(** * Device dashboard (static/js/script.js): a shallow embedding

    The page script keeps all of its state in the DOM and in a few page-global
    variables.  This development embeds the parts of the script that decide
    the specified behaviour:

    - the helpers ([getDeviceIconByName], [generateUniqueId]);
    - the sidebar, a list of child nodes manipulated with [insertBefore];
    - the device elements, kept in a store indexed by node identity, because
      closures and [currentActionDevice] alias them;
    - the password map [devicePasswords];
    - the click handlers of the add, edit and password dialogs;
    - the two scan routines and what they render.

    Handlers are written in a small state monad with exceptions: a thrown
    [TypeError] aborts the handler but keeps the mutations made so far, as
    in the browser.  What the environment decides is an argument of the
    event: the draws of [Math.random], the answer to [confirm], the way a
    fetch settles.

    Further parts are embedded for the properties at the end of the file:
    the filter panel ([applyFilters], [shouldBeFiltered], the clear button),
    the sidebar toggle with its time-out ([toggleSidebar]),
    [generateRandomIP] and [initDeviceSections] with the page load.

    Outside the embedding: the search button (its handler reads the text of
    the markup; no event below stands for it), inline styles other than the
    two [display] values kept here, and the click handler of a scanned item,
    which only fills inputs of the add form that the user can fill as well.

    Texts are written into [innerHTML] as they are.  The handlers below
    take the name of a device for plain text; [Dom] refines the two toggles
    for names whose markup creates elements, and [plain_page] says of a
    page that no text written into it carries markup. *)

From Stdlib Require Import QArith.QArith_base QArith.Qround QArith.Qabs.
From Stdlib Require Import Lqa.
From Stdlib Require Import Ascii String.
From stdpp Require Import gmap strings list pretty.

(** ** JavaScript values and the string built-ins used by the script *)

Module Js.

(** The values a dynamically typed parameter can hold here: [undefined]
    and what [JSON.parse] produces.  Objects and arrays are opaque. *)
Inductive value : Type :=
| Undefined
| Null
| Bool (b : bool)
| Num (n : Z)
| Str (s : string)
| Obj.

(** ToBoolean. *)
Definition truthy (v : value) : bool :=
  match v with
  | Undefined | Null => false
  | Obj => true
  | Bool b => b
  | Num n => negb (n =? 0)%Z
  | Str s => negb (String.eqb s "")
  end.

(** [s.includes(k)]: [k] occurs in [s] as a contiguous substring. *)
Fixpoint includes (s k : string) : bool :=
  String.prefix k s ||
  match s with
  | EmptyString => false
  | String _ rest => includes rest k
  end.

(** ASCII instances of [String.prototype.toLowerCase] and
    [String.prototype.trim]; the built-ins agree with them on ASCII
    text.  The script is embedded over arbitrary instances. *)
Definition lower_ascii (c : ascii) : ascii :=
  let n := Ascii.nat_of_ascii c in
  if (65 <=? n)%nat && (n <=? 90)%nat then Ascii.ascii_of_nat (n + 32) else c.

Fixpoint ascii_toLowerCase (s : string) : string :=
  match s with
  | EmptyString => EmptyString
  | String c rest => String (lower_ascii c) (ascii_toLowerCase rest)
  end.

Definition is_space (c : ascii) : bool :=
  let n := Ascii.nat_of_ascii c in
  (n =? 32)%nat || ((9 <=? n)%nat && (n <=? 13)%nat).

Fixpoint trim_start (s : string) : string :=
  match s with
  | EmptyString => EmptyString
  | String c rest => if is_space c then trim_start rest else s
  end.

Definition ascii_trim (s : string) : string :=
  String.rev (trim_start (String.rev (trim_start s))).

End Js.

(** ** Helper functions of the script *)

Inductive exn : Type :=
| TypeError (msg : string)
| NotFoundError
| FetchError.

Definition icon_phone : string := "📱".
Definition icon_laptop : string := "💻".
Definition icon_printer : string := "🖨️".
Definition icon_computer : string := "🖥️".
Definition icon_camera : string := "📹".
Definition icon_plug : string := "🔌".
Definition icon_sensor : string := "🌡️".

(** The seven icons of the device-type selects. *)
Definition icons : list string :=
  [icon_phone; icon_laptop; icon_printer; icon_computer; icon_camera;
   icon_plug; icon_sensor].

(** The keywords [getDeviceIconByName] looks for. *)
Definition keywords : list string :=
  ["phone"; "iphone"; "samsung"; "xiaomi"; "laptop"; "notebook"; "macbook";
   "printer"; "drukarka"; "computer"; "desktop"; "pc"; "camera"; "kamera";
   "socket"; "plug"; "gniazdko"; "sensor"; "czujnik"].

(** The [if / else if] chain of [getDeviceIconByName] over the lower-cased
    name. *)
Definition icon_of_lowered (name : string) : string :=
  let has := Js.includes name in
  if has "phone" || has "iphone" || has "samsung" || has "xiaomi" then icon_phone
  else if has "laptop" || has "notebook" || has "macbook" then icon_laptop
  else if has "printer" || has "drukarka" then icon_printer
  else if has "computer" || has "desktop" || has "pc" then icon_computer
  else if has "camera" || has "kamera" then icon_camera
  else if has "socket" || has "plug" || has "gniazdko" then icon_plug
  else if has "sensor" || has "czujnik" then icon_sensor
  else icon_phone.

(** [Math.floor(Math.random() * n)], for a draw [u] of [Math.random()].
    Draws are rationals in [[0, 1)], and the product is taken exactly.  The
    script multiplies doubles; for [n = 2] the product of doubles is exact,
    and for the other two [n] of the script a draw here names the outcome,
    not the double that [Math.random] returned: [script_floor] below is the
    computation on doubles, and it reaches the same numbers. *)
Definition random_index (u : Q) (n : Z) : Z :=
  Qfloor (Qmult u (inject_Z n)).

Definition unit_draw (u : Q) : Prop := Qle 0 u ∧ Qlt u 1.

(** [s.padStart(4, '0')]. *)
Definition padStart4 (s : string) : string :=
  String.concat "" (replicate (4 - String.length s) "0") +:+ s.

(** The template of [generateUniqueId] for its two floored numbers. *)
Definition format_id (a b : Z) : string :=
  "DEV_" +:+ padStart4 (pretty a) +:+ "_" +:+ padStart4 (pretty b).

(** [generateUniqueId()], for its two draws. *)
Definition generateUniqueId (u1 u2 : Q) : string :=
  format_id (random_index u1 10000) (random_index u2 10000).

(** ** The sidebar as a list of child nodes *)

Inductive category : Type := Favorites | Online | Offline.

(** Children of [#sidebar]: the static ones of the page (dropdown, filters
    section, text nodes, trailing block), the three category headers made by
    [initDeviceSections], and the [.sidebar-link] device elements, named by
    their identity. *)
Inductive node : Type :=
| Other (n : nat)
| Category (c : category)
| Link (k : nat).

Global Instance category_eq_dec : EqDecision category.
Proof. solve_decision. Defined.

Global Instance node_eq_dec : EqDecision node.
Proof. solve_decision. Defined.

(** [n.nextSibling] among the children [l]; [None] is [null]. *)
Fixpoint nextSibling (n : node) (l : list node) : option node :=
  match l with
  | [] => None
  | x :: l' => if decide (x = n) then head l' else nextSibling n l'
  end.

Definition removeChild (n : node) (l : list node) : list node :=
  filter (λ x, x ≠ n) l.

Fixpoint insert_before (n ref : node) (l : list node) : option (list node) :=
  match l with
  | [] => None
  | x :: l' =>
      if decide (x = ref) then Some (n :: x :: l')
      else cons x <$> insert_before n ref l'
  end.

(** [parent.insertBefore(n, ref)] on the children [l] of the parent.  A node
    that is already a child is moved; with [ref = n] the reference becomes
    the node's next sibling; a [null] reference appends; a reference that is
    not a child is a [NotFoundError] ([None]). *)
Definition insertBefore (n : node) (ref : option node) (l : list node)
  : option (list node) :=
  let ref' := if decide (ref = Some n) then nextSibling n l else ref in
  match ref' with
  | None => Some (removeChild n l ++ [n])
  | Some r => insert_before n r (removeChild n l)
  end.

(** Where the placement routines put a node: directly behind a header. *)
Fixpoint insert_after (h n : node) (l : list node) : list node :=
  match l with
  | [] => []
  | x :: l' => if decide (x = h) then x :: n :: l' else x :: insert_after h n l'
  end.

(** ** Device elements and page state *)

(** A [.sidebar-link] element: the name shown in [.device-name], its data
    attributes, and the [filtered] class.  The name is the text the script
    writes into the markup of the element; what the parser makes of a name
    with markup is the matter of [Dom] below.  The attributes the script writes
    as ['true'] / ['false'] and reads with [=== 'true'] are booleans;
    [data-ip] may be absent. *)
Record element : Type := Element {
  el_name : string;
  data_device_id : string;
  data_protected : bool;
  data_status : string;
  data_favorite : bool;
  data_device_type : string;
  data_ip : option string;
  data_manual_add : bool;
  el_filtered : bool
}.

Inductive action : Type := ActionEdit | ActionDelete.

(** Inputs of the add dialog, and the [data-method] of the connection
    option carrying the [selected] class. *)
Record add_form : Type := AddForm {
  deviceName : string;
  deviceId : string;
  passwordProtect : bool;
  devicePassword : string;
  deviceIP : string;
  deviceType : string;
  selectedOption : option string
}.

Record edit_form : Type := EditForm {
  editDeviceName : string;
  editDeviceId : string;
  editPasswordProtect : bool;
  editDevicePassword : string;
  editDeviceType : string;
  editDeviceIP : string;
  editDeviceIP_disabled : bool
}.

(** What the scan routines put into [.device-list-container]. *)
Record list_item : Type := ListItem {
  li_paired : bool;
  li_id : Js.value;
  li_icon : Js.value;
  li_name : Js.value;
  li_address : Js.value
}.

Inductive bt_child : Type :=
| BtSection (paired : bool) (title : string) (items : list list_item)
| BtNoDevices (text : string).

Inductive view : Type :=
| LoadingIndicator (n : nat)
| ErrorMessage (text : Js.value)
| NoDevicesMessage (text : string)
| DeviceListItem (it : list_item)
| BluetoothContainer (children : list bt_child).

(** One entry of [data.devices], and a parsed response body. *)
Record scan_device : Type := ScanDevice {
  dev_id : Js.value;
  dev_name : Js.value;
  dev_type : Js.value;
  dev_address : Js.value
}.

(** A request the page issues. *)
Record request : Type := Request {
  req_method : string;
  req_url : string
}.

Record scan_data : Type := ScanData {
  data_error : Js.value;
  data_devices : option (list scan_device)
}.

(** How a [fetch(...).then(response => response.json())] settles. *)
Inductive fetch_result : Type :=
| Rejected
| Resolved (data : scan_data).

(** The page: the sidebar children, the store of created device elements,
    the allocation counter that gives created elements their identity, the
    page-global variables, the dialogs' [show] classes and inputs, the scan
    list, and the logs of [alert] texts and requested URLs (latest first). *)
Record state : Type := State {
  sidebar : list node;
  links : gmap nat element;
  next_node : nat;
  favoritesDisplay : bool;
  devicePasswords : gmap string string;
  currentActionDevice : option nat;
  currentActionType : option action;
  addDeviceModal : bool;
  passwordVerifyModal : bool;
  editDeviceModal : bool;
  addForm : add_form;
  editForm : edit_form;
  verifyPassword : string;
  passwordPromptText : string;
  deviceListDisplay : bool;
  container : list view;
  pending : list nat;
  alerts : list string;
  requests : list request
}.

(** Field updates. *)
Definition set_sidebar (f : list node → list node) (s : state) : state :=
  {| sidebar := f (sidebar s); links := links s; next_node := next_node s;
    favoritesDisplay := favoritesDisplay s;
    devicePasswords := devicePasswords s;
    currentActionDevice := currentActionDevice s;
    currentActionType := currentActionType s;
    addDeviceModal := addDeviceModal s;
    passwordVerifyModal := passwordVerifyModal s;
    editDeviceModal := editDeviceModal s; addForm := addForm s;
    editForm := editForm s; verifyPassword := verifyPassword s;
    passwordPromptText := passwordPromptText s;
    deviceListDisplay := deviceListDisplay s; container := container s;
    pending := pending s; alerts := alerts s; requests := requests s |}.

Definition set_links (f : gmap nat element → gmap nat element) (s : state) : state :=
  {| sidebar := sidebar s; links := f (links s); next_node := next_node s;
    favoritesDisplay := favoritesDisplay s;
    devicePasswords := devicePasswords s;
    currentActionDevice := currentActionDevice s;
    currentActionType := currentActionType s;
    addDeviceModal := addDeviceModal s;
    passwordVerifyModal := passwordVerifyModal s;
    editDeviceModal := editDeviceModal s; addForm := addForm s;
    editForm := editForm s; verifyPassword := verifyPassword s;
    passwordPromptText := passwordPromptText s;
    deviceListDisplay := deviceListDisplay s; container := container s;
    pending := pending s; alerts := alerts s; requests := requests s |}.

Definition set_next_node (f : nat → nat) (s : state) : state :=
  {| sidebar := sidebar s; links := links s; next_node := f (next_node s);
    favoritesDisplay := favoritesDisplay s;
    devicePasswords := devicePasswords s;
    currentActionDevice := currentActionDevice s;
    currentActionType := currentActionType s;
    addDeviceModal := addDeviceModal s;
    passwordVerifyModal := passwordVerifyModal s;
    editDeviceModal := editDeviceModal s; addForm := addForm s;
    editForm := editForm s; verifyPassword := verifyPassword s;
    passwordPromptText := passwordPromptText s;
    deviceListDisplay := deviceListDisplay s; container := container s;
    pending := pending s; alerts := alerts s; requests := requests s |}.

Definition set_favoritesDisplay (f : bool → bool) (s : state) : state :=
  {| sidebar := sidebar s; links := links s; next_node := next_node s;
    favoritesDisplay := f (favoritesDisplay s);
    devicePasswords := devicePasswords s;
    currentActionDevice := currentActionDevice s;
    currentActionType := currentActionType s;
    addDeviceModal := addDeviceModal s;
    passwordVerifyModal := passwordVerifyModal s;
    editDeviceModal := editDeviceModal s; addForm := addForm s;
    editForm := editForm s; verifyPassword := verifyPassword s;
    passwordPromptText := passwordPromptText s;
    deviceListDisplay := deviceListDisplay s; container := container s;
    pending := pending s; alerts := alerts s; requests := requests s |}.

Definition set_devicePasswords (f : gmap string string → gmap string string) (s : state) : state :=
  {| sidebar := sidebar s; links := links s; next_node := next_node s;
    favoritesDisplay := favoritesDisplay s;
    devicePasswords := f (devicePasswords s);
    currentActionDevice := currentActionDevice s;
    currentActionType := currentActionType s;
    addDeviceModal := addDeviceModal s;
    passwordVerifyModal := passwordVerifyModal s;
    editDeviceModal := editDeviceModal s; addForm := addForm s;
    editForm := editForm s; verifyPassword := verifyPassword s;
    passwordPromptText := passwordPromptText s;
    deviceListDisplay := deviceListDisplay s; container := container s;
    pending := pending s; alerts := alerts s; requests := requests s |}.

Definition set_currentActionDevice (f : option nat → option nat) (s : state) : state :=
  {| sidebar := sidebar s; links := links s; next_node := next_node s;
    favoritesDisplay := favoritesDisplay s;
    devicePasswords := devicePasswords s;
    currentActionDevice := f (currentActionDevice s);
    currentActionType := currentActionType s;
    addDeviceModal := addDeviceModal s;
    passwordVerifyModal := passwordVerifyModal s;
    editDeviceModal := editDeviceModal s; addForm := addForm s;
    editForm := editForm s; verifyPassword := verifyPassword s;
    passwordPromptText := passwordPromptText s;
    deviceListDisplay := deviceListDisplay s; container := container s;
    pending := pending s; alerts := alerts s; requests := requests s |}.

Definition set_currentActionType (f : option action → option action) (s : state) : state :=
  {| sidebar := sidebar s; links := links s; next_node := next_node s;
    favoritesDisplay := favoritesDisplay s;
    devicePasswords := devicePasswords s;
    currentActionDevice := currentActionDevice s;
    currentActionType := f (currentActionType s);
    addDeviceModal := addDeviceModal s;
    passwordVerifyModal := passwordVerifyModal s;
    editDeviceModal := editDeviceModal s; addForm := addForm s;
    editForm := editForm s; verifyPassword := verifyPassword s;
    passwordPromptText := passwordPromptText s;
    deviceListDisplay := deviceListDisplay s; container := container s;
    pending := pending s; alerts := alerts s; requests := requests s |}.

Definition set_addDeviceModal (f : bool → bool) (s : state) : state :=
  {| sidebar := sidebar s; links := links s; next_node := next_node s;
    favoritesDisplay := favoritesDisplay s;
    devicePasswords := devicePasswords s;
    currentActionDevice := currentActionDevice s;
    currentActionType := currentActionType s;
    addDeviceModal := f (addDeviceModal s);
    passwordVerifyModal := passwordVerifyModal s;
    editDeviceModal := editDeviceModal s; addForm := addForm s;
    editForm := editForm s; verifyPassword := verifyPassword s;
    passwordPromptText := passwordPromptText s;
    deviceListDisplay := deviceListDisplay s; container := container s;
    pending := pending s; alerts := alerts s; requests := requests s |}.

Definition set_passwordVerifyModal (f : bool → bool) (s : state) : state :=
  {| sidebar := sidebar s; links := links s; next_node := next_node s;
    favoritesDisplay := favoritesDisplay s;
    devicePasswords := devicePasswords s;
    currentActionDevice := currentActionDevice s;
    currentActionType := currentActionType s;
    addDeviceModal := addDeviceModal s;
    passwordVerifyModal := f (passwordVerifyModal s);
    editDeviceModal := editDeviceModal s; addForm := addForm s;
    editForm := editForm s; verifyPassword := verifyPassword s;
    passwordPromptText := passwordPromptText s;
    deviceListDisplay := deviceListDisplay s; container := container s;
    pending := pending s; alerts := alerts s; requests := requests s |}.

Definition set_editDeviceModal (f : bool → bool) (s : state) : state :=
  {| sidebar := sidebar s; links := links s; next_node := next_node s;
    favoritesDisplay := favoritesDisplay s;
    devicePasswords := devicePasswords s;
    currentActionDevice := currentActionDevice s;
    currentActionType := currentActionType s;
    addDeviceModal := addDeviceModal s;
    passwordVerifyModal := passwordVerifyModal s;
    editDeviceModal := f (editDeviceModal s); addForm := addForm s;
    editForm := editForm s; verifyPassword := verifyPassword s;
    passwordPromptText := passwordPromptText s;
    deviceListDisplay := deviceListDisplay s; container := container s;
    pending := pending s; alerts := alerts s; requests := requests s |}.

Definition set_addForm (f : add_form → add_form) (s : state) : state :=
  {| sidebar := sidebar s; links := links s; next_node := next_node s;
    favoritesDisplay := favoritesDisplay s;
    devicePasswords := devicePasswords s;
    currentActionDevice := currentActionDevice s;
    currentActionType := currentActionType s;
    addDeviceModal := addDeviceModal s;
    passwordVerifyModal := passwordVerifyModal s;
    editDeviceModal := editDeviceModal s; addForm := f (addForm s);
    editForm := editForm s; verifyPassword := verifyPassword s;
    passwordPromptText := passwordPromptText s;
    deviceListDisplay := deviceListDisplay s; container := container s;
    pending := pending s; alerts := alerts s; requests := requests s |}.

Definition set_editForm (f : edit_form → edit_form) (s : state) : state :=
  {| sidebar := sidebar s; links := links s; next_node := next_node s;
    favoritesDisplay := favoritesDisplay s;
    devicePasswords := devicePasswords s;
    currentActionDevice := currentActionDevice s;
    currentActionType := currentActionType s;
    addDeviceModal := addDeviceModal s;
    passwordVerifyModal := passwordVerifyModal s;
    editDeviceModal := editDeviceModal s; addForm := addForm s;
    editForm := f (editForm s); verifyPassword := verifyPassword s;
    passwordPromptText := passwordPromptText s;
    deviceListDisplay := deviceListDisplay s; container := container s;
    pending := pending s; alerts := alerts s; requests := requests s |}.

Definition set_verifyPassword (f : string → string) (s : state) : state :=
  {| sidebar := sidebar s; links := links s; next_node := next_node s;
    favoritesDisplay := favoritesDisplay s;
    devicePasswords := devicePasswords s;
    currentActionDevice := currentActionDevice s;
    currentActionType := currentActionType s;
    addDeviceModal := addDeviceModal s;
    passwordVerifyModal := passwordVerifyModal s;
    editDeviceModal := editDeviceModal s; addForm := addForm s;
    editForm := editForm s; verifyPassword := f (verifyPassword s);
    passwordPromptText := passwordPromptText s;
    deviceListDisplay := deviceListDisplay s; container := container s;
    pending := pending s; alerts := alerts s; requests := requests s |}.

Definition set_passwordPromptText (f : string → string) (s : state) : state :=
  {| sidebar := sidebar s; links := links s; next_node := next_node s;
    favoritesDisplay := favoritesDisplay s;
    devicePasswords := devicePasswords s;
    currentActionDevice := currentActionDevice s;
    currentActionType := currentActionType s;
    addDeviceModal := addDeviceModal s;
    passwordVerifyModal := passwordVerifyModal s;
    editDeviceModal := editDeviceModal s; addForm := addForm s;
    editForm := editForm s; verifyPassword := verifyPassword s;
    passwordPromptText := f (passwordPromptText s);
    deviceListDisplay := deviceListDisplay s; container := container s;
    pending := pending s; alerts := alerts s; requests := requests s |}.

Definition set_deviceListDisplay (f : bool → bool) (s : state) : state :=
  {| sidebar := sidebar s; links := links s; next_node := next_node s;
    favoritesDisplay := favoritesDisplay s;
    devicePasswords := devicePasswords s;
    currentActionDevice := currentActionDevice s;
    currentActionType := currentActionType s;
    addDeviceModal := addDeviceModal s;
    passwordVerifyModal := passwordVerifyModal s;
    editDeviceModal := editDeviceModal s; addForm := addForm s;
    editForm := editForm s; verifyPassword := verifyPassword s;
    passwordPromptText := passwordPromptText s;
    deviceListDisplay := f (deviceListDisplay s); container := container s;
    pending := pending s; alerts := alerts s; requests := requests s |}.

Definition set_container (f : list view → list view) (s : state) : state :=
  {| sidebar := sidebar s; links := links s; next_node := next_node s;
    favoritesDisplay := favoritesDisplay s;
    devicePasswords := devicePasswords s;
    currentActionDevice := currentActionDevice s;
    currentActionType := currentActionType s;
    addDeviceModal := addDeviceModal s;
    passwordVerifyModal := passwordVerifyModal s;
    editDeviceModal := editDeviceModal s; addForm := addForm s;
    editForm := editForm s; verifyPassword := verifyPassword s;
    passwordPromptText := passwordPromptText s;
    deviceListDisplay := deviceListDisplay s; container := f (container s);
    pending := pending s; alerts := alerts s; requests := requests s |}.

Definition set_pending (f : list nat → list nat) (s : state) : state :=
  {| sidebar := sidebar s; links := links s; next_node := next_node s;
    favoritesDisplay := favoritesDisplay s;
    devicePasswords := devicePasswords s;
    currentActionDevice := currentActionDevice s;
    currentActionType := currentActionType s;
    addDeviceModal := addDeviceModal s;
    passwordVerifyModal := passwordVerifyModal s;
    editDeviceModal := editDeviceModal s; addForm := addForm s;
    editForm := editForm s; verifyPassword := verifyPassword s;
    passwordPromptText := passwordPromptText s;
    deviceListDisplay := deviceListDisplay s; container := container s;
    pending := f (pending s); alerts := alerts s; requests := requests s |}.

Definition set_alerts (f : list string → list string) (s : state) : state :=
  {| sidebar := sidebar s; links := links s; next_node := next_node s;
    favoritesDisplay := favoritesDisplay s;
    devicePasswords := devicePasswords s;
    currentActionDevice := currentActionDevice s;
    currentActionType := currentActionType s;
    addDeviceModal := addDeviceModal s;
    passwordVerifyModal := passwordVerifyModal s;
    editDeviceModal := editDeviceModal s; addForm := addForm s;
    editForm := editForm s; verifyPassword := verifyPassword s;
    passwordPromptText := passwordPromptText s;
    deviceListDisplay := deviceListDisplay s; container := container s;
    pending := pending s; alerts := f (alerts s); requests := requests s |}.

Definition set_requests (f : list request → list request) (s : state) : state :=
  {| sidebar := sidebar s; links := links s; next_node := next_node s;
    favoritesDisplay := favoritesDisplay s;
    devicePasswords := devicePasswords s;
    currentActionDevice := currentActionDevice s;
    currentActionType := currentActionType s;
    addDeviceModal := addDeviceModal s;
    passwordVerifyModal := passwordVerifyModal s;
    editDeviceModal := editDeviceModal s; addForm := addForm s;
    editForm := editForm s; verifyPassword := verifyPassword s;
    passwordPromptText := passwordPromptText s;
    deviceListDisplay := deviceListDisplay s; container := container s;
    pending := pending s; alerts := alerts s; requests := f (requests s) |}.

(** ** Handlers: state with exceptions *)

(** A handler either runs to its end or throws; either way the page keeps
    the mutations made up to that point. *)
Inductive outcome (A : Type) : Type :=
| Done (a : A) (s : state)
| Threw (e : exn) (s : state).
Arguments Done {A} a s.
Arguments Threw {A} e s.

Definition final {A} (o : outcome A) : state :=
  match o with Done _ s => s | Threw _ s => s end.

Definition M (A : Type) : Type := state → outcome A.

Global Instance M_ret : MRet M := λ A a s, Done a s.
Global Instance M_bind : MBind M := λ A B f m s,
  match m s with
  | Done a s' => f a s'
  | Threw e s' => Threw e s'
  end.

Definition gets {A} (f : state → A) : M A := λ s, Done (f s) s.
Definition modify (f : state → state) : M unit := λ s, Done tt (f s).
Definition throw {A} (e : exn) : M A := λ s, Threw e s.

(** [m.catch(h)] on a promise chain, and [try] / [catch]. *)
Definition catch {A} (m : M A) (h : exn → M A) : M A := λ s,
  match m s with
  | Done a s' => Done a s'
  | Threw e s' => h e s'
  end.

Definition when (b : bool) (m : M unit) : M unit :=
  if b then m else mret tt.

(** [l.forEach(f)]. *)
Fixpoint forEach {A} (l : list A) (f : A → M unit) : M unit :=
  match l with
  | [] => mret tt
  | x :: l' => f x ;; forEach l' f
  end.

(** [l.map(f)] for an [f] that may throw. *)
Fixpoint traverse {A B} (f : A → M B) (l : list A) : M (list B) :=
  match l with
  | [] => mret []
  | x :: l' => y ← f x; ys ← traverse f l'; mret (y :: ys)
  end.

Definition alert (msg : string) : M unit := modify (set_alerts (cons msg)).
(** [fetch(url)] without options is a GET request. *)
Definition fetch (url : string) : M unit :=
  modify (set_requests (cons {| req_method := "GET"; req_url := url |})).

(** [document.createElement]: a fresh identity. *)
Definition createElement : M nat :=
  λ s, Done (next_node s) (set_next_node S s).

(** Reading a device element through a reference.  References held by the
    script always denote created elements. *)
Definition getElement (k : nat) : M element := λ s,
  match links s !! k with
  | Some el => Done el s
  | None => Threw (TypeError "dangling element reference") s
  end.

Definition updateElement (k : nat) (f : element → element) : M unit :=
  modify (set_links (alter f k)).

Definition set_data_status (v : string) (el : element) : element :=
  {| el_name := el_name el; data_device_id := data_device_id el;
     data_protected := data_protected el; data_status := v;
     data_favorite := data_favorite el;
     data_device_type := data_device_type el; data_ip := data_ip el;
     data_manual_add := data_manual_add el; el_filtered := el_filtered el |}.

Definition set_data_favorite (v : bool) (el : element) : element :=
  {| el_name := el_name el; data_device_id := data_device_id el;
     data_protected := data_protected el; data_status := data_status el;
     data_favorite := v;
     data_device_type := data_device_type el; data_ip := data_ip el;
     data_manual_add := data_manual_add el; el_filtered := el_filtered el |}.

(** [document.querySelector('.sidebar-category.<c>-devices')]; the headers
    live in the sidebar.  This is the query on a page whose texts carry no
    markup; [Dom.querySelector_category] below also looks at the elements
    that a text with markup creates. *)
Definition querySelector_category (c : category) : M (option node) :=
  gets (λ s, if decide (Category c ∈ sidebar s) then Some (Category c) else None).

(** [h.nextSibling] for the result [h] of a [querySelector]. *)
Definition nextSibling_of (h : option node) : M (option node) :=
  match h with
  | None => throw (TypeError "Cannot read properties of null (reading 'nextSibling')")
  | Some n => gets (λ s, nextSibling n (sidebar s))
  end.

Definition sidebar_insertBefore (n : node) (ref : option node) : M unit := λ s,
  match insertBefore n ref (sidebar s) with
  | Some l => Done tt (set_sidebar (λ _, l) s)
  | None => Threw NotFoundError s
  end.

Definition API_BASE_URL : string := "http://localhost:5000/api".

Definition statuses : list string := ["online"; "offline"].

Definition nonempty (s : string) : bool := negb (String.eqb s "").

(** The methods of the four [.connection-option] elements of the page. *)
Definition connection_options : list string :=
  ["wifi"; "bluetooth"; "camera"; "manual"].

Inductive modal : Type := AddDeviceModal | PasswordVerifyModal | EditDeviceModal.

(** What the user can type or tick in the dialogs. *)
Inductive input : Type :=
| InDeviceName (v : string)
| InPasswordProtect (b : bool)
| InDevicePassword (v : string)
| InDeviceIP (v : string)
| InDeviceType (v : string)
| InVerifyPassword (v : string)
| InEditDeviceName (v : string)
| InEditPasswordProtect (b : bool)
| InEditDevicePassword (v : string)
| InEditDeviceType (v : string)
| InEditDeviceIP (v : string).

(** The events of the page, with what the environment decides in each: the
    draws of [Math.random], the answer to [confirm], the settled fetches.
    The click on the search button has no event here. *)
Inductive event : Type :=
| AddDeviceButtonClick (u1 u2 : Q)
| ConnectionOptionClick (method : string)
| ScanSettled (n : nat) (r : fetch_result)
| ConfirmAddDeviceClick (u : Q)
| DeviceClick (k : nat)
| FavoriteStarClick (k : nat)
| EditButtonClick (k : nat)
| DeleteButtonClick (k : nat) (confirmed : bool)
| ConfirmPasswordVerifyClick
| ConfirmEditDeviceClick
| CloseModalClick (m : modal)
| UserInput (i : input).

(** ** The script *)

Section Script.

(** The string built-ins: [String.prototype.toLowerCase],
    [String.prototype.trim], and the text [openEditDeviceModal] recovers
    from the markup of [.device-name] with its two regular-expression
    replacements. *)
Variable toLowerCase : string → string.
Variable trim : string → string.
Variable cleanName : string → string.

(** [getDeviceIconByName(name)].  A falsy name yields the default icon; a
    string is lower-cased and matched; any other truthy value has no
    [toLowerCase] method, and the call throws. *)
Definition getDeviceIconByName (name : Js.value) : exn + string :=
  if negb (Js.truthy name) then inr icon_phone
  else match name with
       | Js.Str s => inr (icon_of_lowered (toLowerCase s))
       | _ => inl (TypeError "name.toLowerCase is not a function")
       end.

Definition lift {A} (r : exn + A) : M A :=
  match r with inl e => throw e | inr a => mret a end.

(** [a[i]] on an array literal; out of range is [undefined]. *)
Definition array_get (a : list string) (i : Z) : option string :=
  if (i <? 0)%Z then None else a !! Z.to_nat i.

(** *** Sidebar placement *)

Definition visible_favorite (s : state) (n : node) : bool :=
  match n with
  | Link k =>
      match links s !! k with
      | Some el => data_favorite el && negb (el_filtered el)
      | None => false
      end
  | _ => false
  end.

Definition updateSectionVisibility : M unit :=
  s ← gets id;
  let hasFavorites := existsb (visible_favorite s) (sidebar s) in
  favoritesSection ← querySelector_category Favorites;
  match favoritesSection with
  | Some _ => modify (set_favoritesDisplay (λ _, hasFavorites))
  | None => mret tt
  end.

Definition moveDeviceToFavorites (deviceElement : nat) : M unit :=
  favoritesSection ← querySelector_category Favorites;
  match favoritesSection with
  | Some _ =>
      ref ← nextSibling_of favoritesSection;
      sidebar_insertBefore (Link deviceElement) ref
  | None => mret tt
  end.

Definition moveDeviceToCorrectSection (deviceElement : nat) : M unit :=
  el ← getElement deviceElement;
  let status := data_status el in
  let isFavorite := data_favorite el in
  if isFavorite then moveDeviceToFavorites deviceElement
  else if decide (status = "online") then
    onlineSection ← querySelector_category Online;
    ref ← nextSibling_of onlineSection;
    sidebar_insertBefore (Link deviceElement) ref
  else
    offlineSection ← querySelector_category Offline;
    ref ← nextSibling_of offlineSection;
    sidebar_insertBefore (Link deviceElement) ref.

(** The status [addDeviceToSidebar] draws:
    [statuses[Math.floor(Math.random() * statuses.length)]]. *)
Definition random_status (u : Q) : string :=
  default "undefined"
    (array_get statuses (random_index u (Z.of_nat (length statuses)))).

(** The element [addDeviceToSidebar] builds: markup and data attributes;
    [data-ip] is set for a truthy [deviceIP] only. *)
Definition new_element (u : Q) (name id : string) (isProtected : bool)
    (deviceType deviceIP : string) (isManuallyAdded : bool) : element :=
  {| el_name := name; data_device_id := id; data_protected := isProtected;
     data_status := random_status u; data_favorite := false;
     data_device_type := deviceType;
     data_ip := if nonempty deviceIP then Some deviceIP else None;
     data_manual_add := isManuallyAdded; el_filtered := false |}.

(** [addDeviceToSidebar], for the draw [u] of its [Math.random()].  The
    listeners it attaches are the events [EditButtonClick],
    [DeleteButtonClick] and [FavoriteStarClick] of the new element. *)
Definition addDeviceToSidebar (u : Q) (name id : string) (isProtected : bool)
    (deviceType deviceIP : string) (isManuallyAdded : bool) : M unit :=
  newDevice ← createElement;
  modify (set_links <[newDevice :=
    new_element u name id isProtected deviceType deviceIP isManuallyAdded]>) ;;
  if decide (random_status u = "online") then
    onlineSection ← querySelector_category Online;
    ref ← nextSibling_of onlineSection;
    sidebar_insertBefore (Link newDevice) ref
  else
    offlineSection ← querySelector_category Offline;
    ref ← nextSibling_of offlineSection;
    sidebar_insertBefore (Link newDevice) ref.

(** What [updateDeviceInSidebar] rewrites in an element; the status, the
    favorite flag and [data-device-id] stay. *)
Definition edit_element (name : string) (isProtected : bool)
    (deviceType deviceIP : string) (isManuallyAdded : bool) (el : element)
  : element :=
  {| el_name := name; data_device_id := data_device_id el;
     data_protected := isProtected; data_status := data_status el;
     data_favorite := data_favorite el; data_device_type := deviceType;
     data_ip := if nonempty deviceIP then Some deviceIP else None;
     data_manual_add := isManuallyAdded; el_filtered := el_filtered el |}.

Definition updateDeviceInSidebar (deviceElement : nat) (name id : string)
    (isProtected : bool) (deviceType deviceIP : string)
    (isManuallyAdded : bool) : M unit :=
  updateElement deviceElement
    (edit_element name isProtected deviceType deviceIP isManuallyAdded) ;;
  moveDeviceToCorrectSection deviceElement.

Definition deleteDevice (deviceElement : nat) : M unit :=
  el ← getElement deviceElement;
  let deviceId := data_device_id el in
  modify (set_devicePasswords (delete deviceId)) ;;
  attached ← gets (λ s, bool_decide (Link deviceElement ∈ sidebar s));
  if attached : bool then modify (set_sidebar (removeChild (Link deviceElement)))
  else throw (TypeError "Cannot read properties of null (reading 'removeChild')").

(** How [openEditDeviceModal] fills the edit form from an element: the
    IP input is disabled for a device that was not added manually, and
    then shows a placeholder text when there is no IP. *)
Definition edit_form_of (el : element) : edit_form :=
  let deviceIP := default "" (data_ip el) in
  let isManuallyAdded := data_manual_add el in
  {| editDeviceName := cleanName (el_name el);
     editDeviceId := data_device_id el;
     editPasswordProtect := data_protected el;
     editDevicePassword := "";
     editDeviceType := data_device_type el;
     editDeviceIP :=
       if isManuallyAdded then deviceIP
       else if nonempty deviceIP then deviceIP
       else "Not available for this connection type";
     editDeviceIP_disabled := negb isManuallyAdded |}.

Definition openEditDeviceModal (deviceElement : nat) : M unit :=
  el ← getElement deviceElement;
  modify (set_editForm (λ _, edit_form_of el)) ;;
  modify (set_editDeviceModal (λ _, true)).

Definition handleDeviceAction (deviceElement : nat) (actionType : action)
    (confirmed : bool) : M unit :=
  modify (set_currentActionDevice (λ _, Some deviceElement)) ;;
  modify (set_currentActionType (λ _, Some actionType)) ;;
  el ← getElement deviceElement;
  if data_protected el then
    modify (set_passwordPromptText (λ _,
      match actionType with
      | ActionEdit => "Enter password to edit device."
      | ActionDelete => "Enter password to delete device."
      end)) ;;
    modify (set_passwordVerifyModal (λ _, true))
  else
    match actionType with
    | ActionEdit => openEditDeviceModal deviceElement
    | ActionDelete =>
        if confirmed then deleteDevice deviceElement ;; updateSectionVisibility
        else mret tt
    end.

Definition toggleFavorite (deviceElement : nat) : M unit :=
  el ← getElement deviceElement;
  (if data_favorite el then
     updateElement deviceElement (set_data_favorite false) ;;
     moveDeviceToCorrectSection deviceElement
   else
     updateElement deviceElement (set_data_favorite true) ;;
     moveDeviceToFavorites deviceElement) ;;
  updateSectionVisibility.

Definition toggleDeviceStatus (deviceElement : nat) : M unit :=
  el ← getElement deviceElement;
  let currentStatus := data_status el in
  let newStatus := if decide (currentStatus = "online") then "offline" else "online" in
  updateElement deviceElement (set_data_status newStatus) ;;
  moveDeviceToCorrectSection deviceElement ;;
  updateSectionVisibility.

Definition set_modal (m : modal) (b : bool) : M unit :=
  match m with
  | AddDeviceModal => modify (set_addDeviceModal (λ _, b))
  | PasswordVerifyModal => modify (set_passwordVerifyModal (λ _, b))
  | EditDeviceModal => modify (set_editDeviceModal (λ _, b))
  end.

Definition closeModal (m : modal) : M unit := set_modal m false.

(** *** Scanning *)

Definition is_indicator (n : nat) (v : view) : bool :=
  match v with
  | LoadingIndicator m => bool_decide (m = n)
  | _ => false
  end.

(** [deviceListContainer.removeChild(loadingIndicator)]. *)
Definition container_removeChild (n : nat) : M unit :=
  present ← gets (λ s, existsb (is_indicator n) (container s));
  if present : bool then
    modify (set_container (List.filter (λ v, negb (is_indicator n v))))
  else throw NotFoundError.

Definition container_appendChild (v : view) : M unit :=
  modify (set_container (λ c, c ++ [v])).

Definition or_else (v : Js.value) (d : string) : Js.value :=
  if Js.truthy v then v else Js.Str d.

(** The item both scan routines build for a found device: the icon is
    [device.type || getDeviceIconByName(device.name)]. *)
Definition createDeviceListItem (device : scan_device) (isPaired : bool)
  : M list_item :=
  deviceIcon ← (if Js.truthy (dev_type device) then mret (dev_type device)
                else icon ← lift (getDeviceIconByName (dev_name device));
                     mret (Js.Str icon));
  let deviceName := or_else (dev_name device) "Nieznane urządzenie" in
  let macAddress := or_else (dev_address device) "Brak adresu MAC" in
  mret {| li_paired := isPaired; li_id := dev_id device;
          li_icon := deviceIcon; li_name := deviceName;
          li_address := macAddress |}.

Definition scan_url (method : string) : string :=
  API_BASE_URL +:+ "/devices/scan?method=" +:+ method.

(** [scanForDevices(method)] up to the [fetch]; the promise chain is
    [scanForDevices_settled]. *)
Definition scanForDevices (method : string) : M unit :=
  loadingIndicator ← createElement;
  modify (set_container (λ _, [LoadingIndicator loadingIndicator])) ;;
  modify (set_deviceListDisplay (λ _, true)) ;;
  fetch (scan_url method) ;;
  modify (set_pending (cons loadingIndicator)).

Definition scanForDevices_then (loadingIndicator : nat) (data : scan_data)
  : M unit :=
  container_removeChild loadingIndicator ;;
  if Js.truthy (data_error data) then
    container_appendChild (ErrorMessage (data_error data))
  else
    match data_devices data with
    | Some (d :: ds) =>
        forEach (d :: ds) (λ device,
          deviceItem ← createDeviceListItem device false;
          container_appendChild (DeviceListItem deviceItem))
    | _ =>
        container_appendChild
          (NoDevicesMessage "Nie znaleziono żadnych urządzeń.")
    end.

Definition scan_catch (loadingIndicator : nat) (text : string) : M unit :=
  present ← gets (λ s, existsb (is_indicator loadingIndicator) (container s));
  when present (container_removeChild loadingIndicator) ;;
  container_appendChild (ErrorMessage (Js.Str text)).

Definition scanForDevices_settled (loadingIndicator : nat) (r : fetch_result)
  : M unit :=
  modify (set_pending (filter (λ n, n ≠ loadingIndicator))) ;;
  catch
    (match r with
     | Rejected => throw FetchError
     | Resolved data => scanForDevices_then loadingIndicator data
     end)
    (λ _, scan_catch loadingIndicator
       "Wystąpił błąd podczas łączenia z API. Sprawdź, czy serwer API jest uruchomiony.").





(** *** Dialog handlers *)

(** The [click] listener of [#addDeviceButton]. *)
Definition addDeviceButton_click (u1 u2 : Q) : M unit :=
  modify (set_addForm (λ _,
    {| deviceName := ""; deviceId := generateUniqueId u1 u2;
       passwordProtect := false; devicePassword := ""; deviceIP := "";
       deviceType := icon_phone; selectedOption := None |})) ;;
  modify (set_deviceListDisplay (λ _, false)) ;;
  set_modal AddDeviceModal true.

Definition select_option (method : string) (f : add_form) : add_form :=
  {| deviceName := deviceName f; deviceId := deviceId f;
     passwordProtect := passwordProtect f;
     devicePassword := devicePassword f; deviceIP := deviceIP f;
     deviceType := deviceType f; selectedOption := Some method |}.

(** The [click] listener of a [.connection-option]. *)
Definition connectionOption_click (method : string) : M unit :=
  modify (set_addForm (select_option method)) ;;
  if decide (method = "wifi") then scanForDevices "wifi"
  else if decide (method = "bluetooth") then scanForDevices "bluetooth"
  else if decide (method = "camera") then scanForDevices "camera"
  else if decide (method = "manual") then
    modify (set_deviceListDisplay (λ _, false))
  else modify (set_deviceListDisplay (λ _, false)).

(** The [click] listener of [#confirmAddDevice], for the draw [u] that
    [addDeviceToSidebar] makes. *)
Definition confirmAddDevice_click (u : Q) : M unit :=
  form ← gets addForm;
  let deviceName := trim (deviceName form) in
  let deviceId := deviceId form in
  let isPasswordProtected := passwordProtect form in
  let password := devicePassword form in
  let deviceType := deviceType form in
  let manualOptionSelected := bool_decide (selectedOption form = Some "manual") in
  let deviceIP := trim (deviceIP form) in
  if negb (nonempty deviceName) then alert "Enter device name!"
  else if isPasswordProtected && negb (nonempty password) then
    alert "Enter password for protected device!"
  else if manualOptionSelected && negb (nonempty deviceIP) then
    alert "Enter device IP!"
  else
    when isPasswordProtected
      (modify (set_devicePasswords <[deviceId := password]>)) ;;
    addDeviceToSidebar u deviceName deviceId isPasswordProtected deviceType
      (if manualOptionSelected then deviceIP else "") manualOptionSelected ;;
    closeModal AddDeviceModal ;;
    updateSectionVisibility.

(** [currentActionDevice], dereferenced. *)
Definition current_device : M nat :=
  c ← gets currentActionDevice;
  match c with
  | Some k => mret k
  | None => throw (TypeError "Cannot read properties of null (reading 'getAttribute')")
  end.

(** The [click] listener of [#confirmPasswordVerify].  A missing entry of
    the password map reads as [undefined], which no entered string
    equals. *)
Definition confirmPasswordVerify_click : M unit :=
  enteredPassword ← gets verifyPassword;
  device ← current_device;
  el ← getElement device;
  let deviceId := data_device_id el in
  correctPassword ← gets (λ s, devicePasswords s !! deviceId);
  (if decide (Some enteredPassword = correctPassword) then
     closeModal PasswordVerifyModal ;;
     actionType ← gets currentActionType;
     match actionType with
     | Some ActionEdit => openEditDeviceModal device
     | Some ActionDelete => deleteDevice device ;; updateSectionVisibility
     | None => mret tt
     end
   else alert "Incorrect password!") ;;
  modify (set_verifyPassword (λ _, "")).

(** [!devicePasswords[deviceId]]. *)
Definition no_password (p : option string) : bool :=
  match p with
  | Some v => negb (nonempty v)
  | None => true
  end.

(** The [click] listener of [#confirmEditDevice]. *)
Definition confirmEditDevice_click : M unit :=
  form ← gets editForm;
  let deviceName := trim (editDeviceName form) in
  let deviceId := editDeviceId form in
  let isPasswordProtected := editPasswordProtect form in
  let password := editDevicePassword form in
  let deviceType := editDeviceType form in
  deviceIP ←
    (if negb (editDeviceIP_disabled form) then mret (trim (editDeviceIP form))
     else device ← current_device;
          el ← getElement device;
          mret (default "" (data_ip el)));
  stored ← gets (λ s, devicePasswords s !! deviceId);
  if negb (nonempty deviceName) then alert "Enter device name!"
  else if isPasswordProtected && negb (nonempty password) && no_password stored
  then alert "Enter password for protected device!"
  else
    device ← current_device;
    el ← getElement device;
    let isManuallyAdded := data_manual_add el in
    if isManuallyAdded && negb (nonempty deviceIP) then alert "Enter device IP!"
    else
      (if isPasswordProtected then
         when (nonempty password)
           (modify (set_devicePasswords <[deviceId := password]>))
       else modify (set_devicePasswords (delete deviceId))) ;;
      updateDeviceInSidebar device deviceName deviceId isPasswordProtected
        deviceType deviceIP isManuallyAdded ;;
      closeModal EditDeviceModal ;;
      updateSectionVisibility.

Definition user_input (i : input) : M unit :=
  match i with
  | InDeviceName v => modify (set_addForm (λ f,
      {| deviceName := v; deviceId := deviceId f;
         passwordProtect := passwordProtect f;
         devicePassword := devicePassword f; deviceIP := deviceIP f;
         deviceType := deviceType f; selectedOption := selectedOption f |}))
  | InPasswordProtect b => modify (set_addForm (λ f,
      {| deviceName := deviceName f; deviceId := deviceId f;
         passwordProtect := b;
         devicePassword := devicePassword f; deviceIP := deviceIP f;
         deviceType := deviceType f; selectedOption := selectedOption f |}))
  | InDevicePassword v => modify (set_addForm (λ f,
      {| deviceName := deviceName f; deviceId := deviceId f;
         passwordProtect := passwordProtect f;
         devicePassword := v; deviceIP := deviceIP f;
         deviceType := deviceType f; selectedOption := selectedOption f |}))
  | InDeviceIP v => modify (set_addForm (λ f,
      {| deviceName := deviceName f; deviceId := deviceId f;
         passwordProtect := passwordProtect f;
         devicePassword := devicePassword f; deviceIP := v;
         deviceType := deviceType f; selectedOption := selectedOption f |}))
  | InDeviceType v => modify (set_addForm (λ f,
      {| deviceName := deviceName f; deviceId := deviceId f;
         passwordProtect := passwordProtect f;
         devicePassword := devicePassword f; deviceIP := deviceIP f;
         deviceType := v; selectedOption := selectedOption f |}))
  | InVerifyPassword v => modify (set_verifyPassword (λ _, v))
  | InEditDeviceName v => modify (set_editForm (λ f,
      {| editDeviceName := v; editDeviceId := editDeviceId f;
         editPasswordProtect := editPasswordProtect f;
         editDevicePassword := editDevicePassword f;
         editDeviceType := editDeviceType f; editDeviceIP := editDeviceIP f;
         editDeviceIP_disabled := editDeviceIP_disabled f |}))
  | InEditPasswordProtect b => modify (set_editForm (λ f,
      {| editDeviceName := editDeviceName f; editDeviceId := editDeviceId f;
         editPasswordProtect := b;
         editDevicePassword := editDevicePassword f;
         editDeviceType := editDeviceType f; editDeviceIP := editDeviceIP f;
         editDeviceIP_disabled := editDeviceIP_disabled f |}))
  | InEditDevicePassword v => modify (set_editForm (λ f,
      {| editDeviceName := editDeviceName f; editDeviceId := editDeviceId f;
         editPasswordProtect := editPasswordProtect f;
         editDevicePassword := v;
         editDeviceType := editDeviceType f; editDeviceIP := editDeviceIP f;
         editDeviceIP_disabled := editDeviceIP_disabled f |}))
  | InEditDeviceType v => modify (set_editForm (λ f,
      {| editDeviceName := editDeviceName f; editDeviceId := editDeviceId f;
         editPasswordProtect := editPasswordProtect f;
         editDevicePassword := editDevicePassword f;
         editDeviceType := v; editDeviceIP := editDeviceIP f;
         editDeviceIP_disabled := editDeviceIP_disabled f |}))
  | InEditDeviceIP v => modify (set_editForm (λ f,
      {| editDeviceName := editDeviceName f; editDeviceId := editDeviceId f;
         editPasswordProtect := editPasswordProtect f;
         editDevicePassword := editDevicePassword f;
         editDeviceType := editDeviceType f; editDeviceIP := v;
         editDeviceIP_disabled := editDeviceIP_disabled f |}))
  end.

(** *** The page as a transition system *)

Definition handle (e : event) : M unit :=
  match e with
  | AddDeviceButtonClick u1 u2 => addDeviceButton_click u1 u2
  | ConnectionOptionClick method => connectionOption_click method
  | ScanSettled n r => scanForDevices_settled n r
  | ConfirmAddDeviceClick u => confirmAddDevice_click u
  | DeviceClick k => toggleDeviceStatus k
  | FavoriteStarClick k => toggleFavorite k
  | EditButtonClick k => handleDeviceAction k ActionEdit false
  | DeleteButtonClick k confirmed =>
      handleDeviceAction k ActionDelete confirmed
  | ConfirmPasswordVerifyClick => confirmPasswordVerify_click
  | ConfirmEditDeviceClick => confirmEditDevice_click
  | CloseModalClick m => closeModal m
  | UserInput i => user_input i
  end.

Definition shown (m : modal) (s : state) : bool :=
  match m with
  | AddDeviceModal => addDeviceModal s
  | PasswordVerifyModal => passwordVerifyModal s
  | EditDeviceModal => editDeviceModal s
  end.

Definition input_modal (i : input) : modal :=
  match i with
  | InDeviceName _ | InPasswordProtect _ | InDevicePassword _
  | InDeviceIP _ | InDeviceType _ => AddDeviceModal
  | InVerifyPassword _ => PasswordVerifyModal
  | _ => EditDeviceModal
  end.

(** When an event can occur: draws of [Math.random] lie in [[0, 1)]; the
    controls of a device element exist while it is in the sidebar; the
    controls of a dialog are reachable while it carries [show]; a disabled
    input takes no text; a fetch settles once. *)
Definition enabled (e : event) (s : state) : Prop :=
  match e with
  | AddDeviceButtonClick u1 u2 => unit_draw u1 ∧ unit_draw u2
  | ConnectionOptionClick method =>
      method ∈ connection_options ∧ addDeviceModal s = true
  | ScanSettled n _ => n ∈ pending s
  | ConfirmAddDeviceClick u => unit_draw u ∧ addDeviceModal s = true
  | DeviceClick k | FavoriteStarClick k | EditButtonClick k
  | DeleteButtonClick k _ => Link k ∈ sidebar s
  | ConfirmPasswordVerifyClick => passwordVerifyModal s = true
  | ConfirmEditDeviceClick => editDeviceModal s = true
  | CloseModalClick m => shown m s = true
  | UserInput i =>
      shown (input_modal i) s = true ∧
      match i with
      | InEditDeviceIP _ => editDeviceIP_disabled (editForm s) = false
      | _ => True
      end
  end.

(** The children of [#sidebar] in the page: the dropdown, the filters
    section, the text behind it and the trailing block. *)
Definition filtersSection : node := Other 1.
Definition static_sidebar : list node := [Other 0; filtersSection; Other 2; Other 3].

(** [initDeviceSections()] on the sidebar children. *)
Definition initDeviceSections (l : list node) : option (list node) :=
  let l0 := removeChild (Category Offline)
              (removeChild (Category Online)
                 (removeChild (Category Favorites) l)) in
  l1 ← insertBefore (Category Favorites) (nextSibling filtersSection l0) l0;
  l2 ← insertBefore (Category Online) (nextSibling (Category Favorites) l1) l1;
  insertBefore (Category Offline) (nextSibling (Category Online) l2) l2.

(** The page once the [DOMContentLoaded] listener has run. *)
Definition init : state :=
  {| sidebar := default [] (initDeviceSections static_sidebar);
     links := ∅; next_node := 0; favoritesDisplay := false;
     devicePasswords := ∅;
     currentActionDevice := None; currentActionType := None;
     addDeviceModal := false; passwordVerifyModal := false;
     editDeviceModal := false;
     addForm := {| deviceName := ""; deviceId := ""; passwordProtect := false;
                   devicePassword := ""; deviceIP := "";
                   deviceType := icon_phone; selectedOption := None |};
     editForm := {| editDeviceName := ""; editDeviceId := "";
                    editPasswordProtect := false; editDevicePassword := "";
                    editDeviceType := icon_phone; editDeviceIP := "";
                    editDeviceIP_disabled := false |};
     verifyPassword := "";
     passwordPromptText := "Enter password to access the device.";
     deviceListDisplay := false; container := []; pending := [];
     alerts := []; requests := [] |}.

Definition run (e : event) (s : state) : state := final (handle e s).

Inductive reachable : state → Prop :=
| reachable_init : reachable init
| reachable_step s e : reachable s → enabled e s → reachable (run e s).

Definition run_all (es : list event) (s : state) : state :=
  foldl (λ s e, run e s) s es.

End Script.

(** ** Specification vocabulary *)

(** Moving the link [k] directly behind the header of category [c]. *)
Definition place (c : category) (k : nat) (l : list node) : list node :=
  insert_after (Category c) (Link k) (removeChild (Link k) l).

(** The sidebar section a device element belongs to. *)
Definition section_of (el : element) : category :=
  if data_favorite el then Favorites
  else if decide (data_status el = "online") then Online
  else Offline.

Definition has_visible_favorite (s : state) : bool :=
  existsb (visible_favorite s) (sidebar s).

(** Well-formed pages: the sidebar children are distinct nodes and contain
    the three headers; links in the sidebar denote created elements;
    created elements are older than the allocation counter and carry one of
    the two statuses; [currentActionDevice] denotes a created element, and
    is set while the password or the edit dialog is shown. *)
Record wf (s : state) : Prop := Wf {
  wf_nodup : NoDup (sidebar s);
  wf_headers : ∀ c, Category c ∈ sidebar s;
  wf_attached : ∀ k, Link k ∈ sidebar s → is_Some (links s !! k);
  wf_bound : ∀ k, is_Some (links s !! k) → k < next_node s;
  wf_status : ∀ k el, links s !! k = Some el → data_status el ∈ statuses;
  wf_current : ∀ k, currentActionDevice s = Some k → is_Some (links s !! k);
  wf_dialog :
    passwordVerifyModal s = true ∨ editDeviceModal s = true →
    is_Some (currentActionDevice s)
}.

(** A computation keeps a relation between the page before and after it,
    whether it ends or throws. *)
Definition keeps {A} (R : relation state) (m : M A) : Prop :=
  ∀ s, R s (final (m s)).

(** Only the scan list and the pending scans differ. *)
Definition scan_only (s s' : state) : Prop :=
  s' = set_pending (λ _, pending s') (set_container (λ _, container s') s).

(** Some protected device in the sidebar carries the id. *)
Definition protected_in (s : state) (id : string) : Prop :=
  ∃ k el, Link k ∈ sidebar s ∧ links s !! k = Some el ∧
          data_device_id el = id ∧ data_protected el = true.

(** The password map has an entry for exactly the ids of the protected
    devices in the sidebar. *)
Definition pw_inv (s : state) : Prop :=
  ∀ id, is_Some (devicePasswords s !! id) ↔ protected_in s id.

(** The ids of the protected devices in the sidebar, as a set; this makes
    [pw_inv] checkable on a given page. *)
Definition protected_id (s : state) (n : node) : option string :=
  match n with
  | Link k =>
      match links s !! k with
      | Some el => if data_protected el then Some (data_device_id el) else None
      | None => None
      end
  | _ => None
  end.

Definition protected_ids (s : state) : gset string :=
  list_to_set (omap (protected_id s) (sidebar s)).









(** A sequence of events each of which can occur when its turn comes. *)
Fixpoint enabled_all (toLowerCase trim cleanName : string → string)
    (es : list event) (s : state) : Prop :=
  match es with
  | [] => True
  | e :: es' =>
      enabled e s ∧
      enabled_all toLowerCase trim cleanName es'
        (run toLowerCase trim cleanName e s)
  end.

(** ** Sample pages *)

(** Runs of the page with the ASCII string built-ins. *)
Definition sample (es : list event) : state :=
  run_all Js.ascii_toLowerCase Js.ascii_trim Js.ascii_trim es init.

(** A protected phone is added; the draw [0] makes it online. *)
Definition add_phone : list event :=
  [AddDeviceButtonClick 0%Q 0%Q; UserInput (InDeviceName " Phone A ");
   UserInput (InPasswordProtect true); UserInput (InDevicePassword "pw");
   ConfirmAddDeviceClick 0%Q].

(** An unprotected sensor is added; [generateUniqueId] draws the same two
    numbers again, and the sensor gets the id of the phone. *)
Definition add_sensor : list event :=
  [AddDeviceButtonClick 0%Q 0%Q; UserInput (InDeviceName "Sensor");
   ConfirmAddDeviceClick (1 # 2)%Q].



Definition one_device : state := sample add_phone.
Definition two_devices : state := sample (add_phone ++ add_sensor).
Definition empty_form : state := sample [AddDeviceButtonClick 0%Q 0%Q].




(** ** Further parts of the script *)

(** The template of [generateRandomIP] for its two floored numbers. *)
Definition format_ip (a b : Z) : string :=
  "192.168." +:+ pretty a +:+ "." +:+ pretty b.

(** [generateRandomIP()], for its two draws. *)
Definition generateRandomIP (u1 u2 : Q) : string :=
  format_ip (random_index u1 255) (random_index u2 255).

(** *** The numbers of the script *)

(** The finite doubles below [2 ^ 53] in magnitude: [m / 2 ^ k] for an
    integer [m] of at most 53 bits and a scale [k] down to that of the
    smallest subnormal. *)
Definition double (q : Q) : Prop :=
  ∃ m k : Z, (Z.abs m < 2 ^ 53)%Z ∧ (0 ≤ k ≤ 1074)%Z ∧
             (q * inject_Z (2 ^ k) == inject_Z m)%Q.

(** [r] is a double nearest to [x]: what the multiplication of doubles
    returns for the exact product [x] (which one of two nearest doubles
    is left open). *)
Definition rounds_to (x r : Q) : Prop :=
  double r ∧ ∀ d, double d → (Qabs (r - x) <= Qabs (d - x))%Q.

(** [Math.floor(Math.random() * n)] can be [i]: [Math.random()] returns a
    double [u] with [0 <= u < 1], the product is rounded to a double, and
    [Math.floor] of a double is exact. *)
Definition script_floor (n i : Z) : Prop :=
  ∃ u r, double u ∧ (0 <= u)%Q ∧ (u < 1)%Q ∧
         rounds_to (u * inject_Z n) r ∧ i = Qfloor r.

(** The arguments [n] of [Math.floor(Math.random() * n)] in the script:
    the length of [statuses], the range of an octet in [generateRandomIP]
    and the range of a number in [generateUniqueId]. *)
Definition script_ranges : list Z := [2; 255; 10000]%Z.

(** Reading back the two numbers of an id [DEV_dddd_dddd]. *)
Definition digit_value (c : ascii) : option Z :=
  let n := Ascii.nat_of_ascii c in
  if (48 <=? n)%nat && (n <=? 57)%nat then Some (Z.of_nat (n - 48)) else None.

Fixpoint digits_value (acc : Z) (s : string) : option Z :=
  match s with
  | EmptyString => Some acc
  | String c rest =>
      match digit_value c with
      | Some d => digits_value (10 * acc + d) rest
      | None => None
      end
  end.

Definition parse_id (id : string) : option (Z * Z) :=
  if String.prefix "DEV_" id && (String.length id =? 13)%nat &&
     String.eqb (String.substring 8 1 id) "_"
  then
    match digits_value 0 (String.substring 4 4 id),
          digits_value 0 (String.substring 9 4 id) with
    | Some a, Some b => Some (a, b)
    | _, _ => None
    end
  else None.

(** *** Filters *)

(** The filter panel: the two status check boxes and the selected type. *)
Record filter_controls : Type := FilterControls {
  filterAvailable : bool;
  filterOffline : bool;
  deviceTypeFilter : string
}.

(** [shouldBeFiltered(deviceElement)], for the controls it reads. *)
Definition shouldBeFiltered (f : filter_controls) (deviceElement : element) : bool :=
  let deviceStatus := data_status deviceElement in
  let deviceType := data_device_type deviceElement in
  let showAvailable := filterAvailable f in
  let showOffline := filterOffline f in
  let selectedDeviceType := deviceTypeFilter f in
  if (bool_decide (deviceStatus = "online") && negb showAvailable) ||
     (bool_decide (deviceStatus = "offline") && negb showOffline)
  then true
  else if negb (bool_decide (selectedDeviceType = "all")) &&
          negb (bool_decide (deviceType = selectedDeviceType))
  then true
  else false.

Definition set_filtered (v : bool) (el : element) : element :=
  {| el_name := el_name el; data_device_id := data_device_id el;
     data_protected := data_protected el; data_status := data_status el;
     data_favorite := data_favorite el;
     data_device_type := data_device_type el; data_ip := data_ip el;
     data_manual_add := data_manual_add el; el_filtered := v |}.

(** [document.querySelectorAll('.sidebar-link')]: the links of the
    sidebar, in document order.  These are all the elements of that class
    on a page whose texts carry no markup ([plain_page]). *)
Definition sidebar_links (l : list node) : list nat :=
  omap (λ n, match n with Link k => Some k | _ => None end) l.

(** The loop of [applyFilters] over the links, with its local
    [hasFavorites]; the show test is written out there a second time. *)
Fixpoint applyFilters_loop (f : filter_controls) (devices : list nat)
    (hasFavorites : bool) : M bool :=
  match devices with
  | [] => mret hasFavorites
  | device :: rest =>
      el ← getElement device;
      let deviceStatus := data_status el in
      let deviceType := data_device_type el in
      let isFavorite := data_favorite el in
      let showAvailable := filterAvailable f in
      let showOffline := filterOffline f in
      let selectedDeviceType := deviceTypeFilter f in
      let shouldShow := true in
      let shouldShow :=
        if (bool_decide (deviceStatus = "online") && negb showAvailable) ||
           (bool_decide (deviceStatus = "offline") && negb showOffline)
        then false else shouldShow in
      let shouldShow :=
        if negb (bool_decide (selectedDeviceType = "all")) &&
           negb (bool_decide (deviceType = selectedDeviceType))
        then false else shouldShow in
      if shouldShow then
        updateElement device (set_filtered false) ;;
        applyFilters_loop f rest (if isFavorite then true else hasFavorites)
      else
        updateElement device (set_filtered true) ;;
        applyFilters_loop f rest hasFavorites
  end.

(** [applyFilters()], for the controls it reads.  The Online and Offline
    headers are always set to be displayed and have no state here. *)
Definition applyFilters (f : filter_controls) : M unit :=
  devices ← gets (λ s, sidebar_links (sidebar s));
  hasFavorites ← applyFilters_loop f devices false;
  favoritesSection ← querySelector_category Favorites;
  match favoritesSection with
  | Some _ => modify (set_favoritesDisplay (λ _, hasFavorites))
  | None => mret tt
  end.

(** The [click] listener of [#clearFilters]. *)
Definition clearFilters_controls : filter_controls :=
  {| filterAvailable := true; filterOffline := true; deviceTypeFilter := "all" |}.


(** *** The sidebar toggle *)

(** The classes and styles [toggleSidebar] works on: [collapsed] and
    [expanded] of the sidebar, [expanded] of the main content, the [display]
    of the external button, and the time-outs that are still to run. *)
Record chrome : Type := Chrome {
  sidebar_collapsed : bool;
  sidebar_expanded : bool;
  mainContent_expanded : bool;
  external_display : string;
  timeouts : nat
}.

(** [toggleSidebar()], for the constant [IS_MOBILE]. *)
Definition toggleSidebar (IS_MOBILE : bool) (c : chrome) : chrome :=
  if IS_MOBILE then
    {| sidebar_collapsed := sidebar_collapsed c;
       sidebar_expanded := negb (sidebar_expanded c);
       mainContent_expanded := mainContent_expanded c;
       external_display := external_display c; timeouts := timeouts c |}
  else
    let isCollapsed := sidebar_collapsed c in
    {| sidebar_collapsed := negb (sidebar_collapsed c);
       sidebar_expanded := sidebar_expanded c;
       mainContent_expanded := negb (mainContent_expanded c);
       external_display := if isCollapsed then "none" else external_display c;
       timeouts := if isCollapsed then timeouts c else S (timeouts c) |}.

(** The callback of the time-out [toggleSidebar] sets. *)
Definition timeout_fired (c : chrome) : chrome :=
  {| sidebar_collapsed := sidebar_collapsed c;
     sidebar_expanded := sidebar_expanded c;
     mainContent_expanded := mainContent_expanded c;
     external_display := "flex"; timeouts := pred (timeouts c) |}.

(** The end of [addDeviceToSidebar] and of a search with matches:
    [if (sidebar.classList.contains('collapsed')) toggleSidebar()]. *)
Definition open_if_collapsed (IS_MOBILE : bool) (c : chrome) : chrome :=
  if sidebar_collapsed c then toggleSidebar IS_MOBILE c else c.

(** The classes once the [DOMContentLoaded] listener has run. *)
Definition chrome_init : chrome :=
  {| sidebar_collapsed := true; sidebar_expanded := false;
     mainContent_expanded := true; external_display := "flex"; timeouts := 0 |}.

Inductive chrome_event : Type :=
| ToggleButtonClick
| SidebarOpened
| TimeoutFired.

Definition chrome_enabled (e : chrome_event) (c : chrome) : Prop :=
  match e with
  | TimeoutFired => 0 < timeouts c
  | _ => True
  end.

Definition chrome_run (IS_MOBILE : bool) (e : chrome_event) (c : chrome) : chrome :=
  match e with
  | ToggleButtonClick => toggleSidebar IS_MOBILE c
  | SidebarOpened => open_if_collapsed IS_MOBILE c
  | TimeoutFired => timeout_fired c
  end.

Inductive chrome_reachable (IS_MOBILE : bool) : chrome → Prop :=
| chrome_reachable_init : chrome_reachable IS_MOBILE chrome_init
| chrome_reachable_step c e :
    chrome_reachable IS_MOBILE c → chrome_enabled e c →
    chrome_reachable IS_MOBILE (chrome_run IS_MOBILE e c).

(** *** What a step of the page can change *)

(** The page [applyFilters] leaves. *)
Definition filtered (f : filter_controls) (s : state) : state :=
  let s1 := set_links (λ m, foldl (λ m k,
      alter (λ el, set_filtered (shouldBeFiltered f el) el) k m) m
      (sidebar_links (sidebar s))) s in
  set_favoritesDisplay (λ _, has_visible_favorite s1) s1.

(** A favorite that the filters [f] let through. *)
Definition shows (f : filter_controls) (m : gmap nat element) (k : nat) : bool :=
  match m !! k with
  | Some el => data_favorite el && negb (shouldBeFiltered f el)
  | None => false
  end.

(** An IP attribute is not empty, and a device added by hand has one. *)
Definition ip_ok (el : element) : Prop :=
  data_ip el ≠ Some "" ∧ (data_manual_add el = true → is_Some (data_ip el)).

Definition nonempty_data (s : state) : Prop :=
  (∀ id p, devicePasswords s !! id = Some p → p ≠ "") ∧
  (∀ k el, links s !! k = Some el → ip_ok el).

Inductive pw_change (m m' : gmap string string) : Prop :=
| pw_same : m' = m → pw_change m m'
| pw_insert id p : p ≠ "" → m' = <[id := p]> m → pw_change m m'
| pw_delete id : m' = delete id m → pw_change m m'.

(** The four ways a step changes the sidebar, the elements and the
    passwords: not at all (but for a password entry), by a new element, by
    rewriting one element and placing it again, by removing a link. *)
Inductive change (e : event) (s s' : state) : Prop :=
| change_frame :
    sidebar s' = sidebar s → links s' = links s →
    pw_change (devicePasswords s) (devicePasswords s') →
    change e s s'
| change_add el :
    links s' = <[next_node s := el]> (links s) →
    sidebar s' = place (section_of el) (next_node s) (sidebar s) →
    data_device_id el = deviceId (addForm s) → addDeviceModal s = true →
    ip_ok el →
    pw_change (devicePasswords s) (devicePasswords s') →
    change e s s'
| change_update k el el' :
    links s !! k = Some el →
    links s' = <[k := el']> (links s) →
    sidebar s' = place (section_of el') k (sidebar s) →
    data_device_id el' = data_device_id el →
    (ip_ok el → ip_ok el') →
    pw_change (devicePasswords s) (devicePasswords s') →
    change e s s'
| change_delete k el :
    links s !! k = Some el → Link k ∈ sidebar s →
    links s' = links s →
    sidebar s' = removeChild (Link k) (sidebar s) →
    devicePasswords s' = delete (data_device_id el) (devicePasswords s) →
    (e = DeleteButtonClick k true ∧ data_protected el = false) ∨
    (e = ConfirmPasswordVerifyClick ∧ currentActionDevice s = Some k ∧
     currentActionType s = Some ActionDelete ∧
     devicePasswords s !! data_device_id el = Some (verifyPassword s)) →
    change e s s'.

(** The id of the add form stays, or is drawn anew when the dialog
    opens. *)
Definition form_change (s s' : state) : Prop :=
  (deviceId (addForm s') = deviceId (addForm s) ∧
   (addDeviceModal s' = true → addDeviceModal s = true)) ∨
  ∃ u1 u2, unit_draw u1 ∧ unit_draw u2 ∧
           deviceId (addForm s') = generateUniqueId u1 u2.

(** The header a child of the sidebar is listed under: the last category
    header before it. *)
Fixpoint header_from (cur : option category) (n : node) (l : list node)
  : option category :=
  match l with
  | [] => None
  | x :: l' =>
      if decide (x = n) then cur
      else header_from (match x with Category c => Some c | _ => cur end) n l'
  end.

Definition header_of (n : node) (l : list node) : option category :=
  header_from None n l.

(** Every device of the sidebar is listed under the header of its
    section. *)
Definition listed_by_section (s : state) : Prop :=
  ∀ k el, Link k ∈ sidebar s → links s !! k = Some el →
          header_of (Link k) (sidebar s) = Some (section_of el).

(** An id [DEV_dddd_dddd]: the template of [generateUniqueId] for two
    numbers below 10000. *)
Definition id_formed (id : string) : Prop :=
  ∃ a b, (0 ≤ a < 10000)%Z ∧ (0 ≤ b < 10000)%Z ∧ id = format_id a b.

(** Such ids on the elements, and in the add form while its dialog is
    shown. *)
Definition ids_formed (s : state) : Prop :=
  (addDeviceModal s = true → id_formed (deviceId (addForm s))) ∧
  (∀ k el, links s !! k = Some el → id_formed (data_device_id el)).




(** The Favorites header follows the visible favorites, or nothing it
    depends on has changed. *)
Definition display_change (s s' : state) : Prop :=
  favoritesDisplay s' = has_visible_favorite s' ∨
  (favoritesDisplay s' = favoritesDisplay s ∧ sidebar s' = sidebar s ∧
   links s' = links s).

Definition step_ok (e : event) (s s' : state) : Prop :=
  change e s s' ∧ form_change s s' ∧ display_change s s'.

(** *** The page with its filter panel *)

(** *** Texts without markup *)




Definition view_items (v : view) : list list_item :=
  match v with
  | DeviceListItem it => [it]
  | BluetoothContainer children =>
      children ≫= λ ch, match ch with
                        | BtSection _ _ items => items
                        | BtNoDevices _ => []
                        end
  | _ => []
  end.




(** The events of the script, and a change of the filter controls, which
    runs [applyFilters].  The search button is not among them. *)
Inductive page_event : Type :=
| ScriptEvent (e : event)
| FiltersChanged (f : filter_controls).

Section Page.
Variables toLowerCase trim cleanName : string → string.

Definition page_enabled (e : page_event) (s : state) : Prop :=
  match e with
  | ScriptEvent e => enabled e s
  | FiltersChanged _ => True
  end.

Definition page_run (e : page_event) (s : state) : state :=
  match e with
  | ScriptEvent e => run toLowerCase trim cleanName e s
  | FiltersChanged f => final (applyFilters f s)
  end.

Inductive page_reachable : state → Prop :=
| page_reachable_init : page_reachable init
| page_reachable_step s e :
    page_reachable s → page_enabled e s → page_reachable (page_run e s).



End Page.

(** What holds of every page: see [wf], [nonempty_data], [ids_formed],
    [listed_by_section]; and the Favorites header is displayed exactly when
    a favorite of the sidebar is not filtered. *)
Definition page_inv (s : state) : Prop :=
  wf s ∧ nonempty_data s ∧ ids_formed s ∧ listed_by_section s ∧
  favoritesDisplay s = has_visible_favorite s.

(** ** Names with markup *)

(** The templates of [addDeviceToSidebar], [updateDeviceInSidebar] and of
    the scan list write names and addresses into [innerHTML] as they are.
    A text that carries markup creates elements of its own, and
    [document.querySelector] finds them like any other element of the
    page.  The routines above take names for plain text.  [Dom] refines the
    queries of the two toggles, and the routines that place a device, for
    texts whose markup creates elements. *)

(** An element made by such a text, as a query for a section header sees
    it: the header whose two classes it carries, and whether a node follows
    it in its parent, so that its [nextSibling] is not [null]. *)
Record injected : Type := Injected {
  inj_category : category;
  inj_followed : bool
}.

(** What [document.querySelector] returns for a header selector: the
    header, which is a child of the sidebar, or an element made by a
    text. *)
Inductive found : Type :=
| FoundHeader (c : category)
| FoundInjected (followed : bool).

Module Dom.
Section Markup.

(** The elements with header classes that the HTML parser makes of a
    device name inside the template of a device element, and of the texts
    of a scan item inside the template of the item, in document order. *)
Variable headers_in : string → list injected.
Variable headers_in_item : list_item → list injected.

(** Whether some element made by a text matches
    [.sidebar-link[data-favorite="true"]:not(.filtered)]; the toggles do
    not touch such elements. *)
Variable injected_favorite : bool.

Definition first_injected (c : category) (l : list injected) : option found :=
  inj ← head (filter (λ i, inj_category i = c) l);
  Some (FoundInjected (inj_followed inj)).

Definition find_inside (c : category) (s : state) (k : nat) : option found :=
  el ← links s !! k;
  first_injected c (headers_in (el_name el)).

(** The first match in document order among the children of the sidebar,
    each followed by what is inside it. *)
Fixpoint query_from (c : category) (s : state) (l : list node) : option found :=
  match l with
  | [] => None
  | Category c' :: l' =>
      if decide (c' = c) then Some (FoundHeader c) else query_from c s l'
  | Link k :: l' =>
      match find_inside c s k with
      | Some f => Some f
      | None => query_from c s l'
      end
  | Other _ :: l' => query_from c s l'
  end.

(** The scan list stands behind the sidebar in the document. *)
Definition query_scan_list (c : category) (s : state) : option found :=
  first_injected c ((container s ≫= view_items) ≫= headers_in_item).

(** [document.querySelector('.sidebar-category.<c>-devices')]. *)
Definition querySelector_category (c : category) : M (option found) :=
  gets (λ s, match query_from c s (sidebar s) with
             | Some f => Some f
             | None => query_scan_list c s
             end).

(** [sidebar.insertBefore(device, h.nextSibling)] for the result [h] of a
    header query.  A node inside a device or inside the scan list is no
    child of the sidebar: [insertBefore] throws; [null] appends. *)
Definition insertBefore_nextSibling (device : nat) (h : found) : M unit :=
  match h with
  | FoundHeader c =>
      ref ← gets (λ s, nextSibling (Category c) (sidebar s));
      sidebar_insertBefore (Link device) ref
  | FoundInjected true => throw NotFoundError
  | FoundInjected false => sidebar_insertBefore (Link device) None
  end.

(** The display that is set on an element made by a text is no part of
    the page state. *)
Definition updateSectionVisibility : M unit :=
  s ← gets id;
  let hasFavorites :=
    existsb (visible_favorite s) (sidebar s) || injected_favorite in
  favoritesSection ← querySelector_category Favorites;
  match favoritesSection with
  | Some (FoundHeader _) => modify (set_favoritesDisplay (λ _, hasFavorites))
  | Some (FoundInjected _) => mret tt
  | None => mret tt
  end.

Definition moveDeviceToFavorites (deviceElement : nat) : M unit :=
  favoritesSection ← querySelector_category Favorites;
  match favoritesSection with
  | Some h => insertBefore_nextSibling deviceElement h
  | None => mret tt
  end.

Definition moveDeviceToCorrectSection (deviceElement : nat) : M unit :=
  el ← getElement deviceElement;
  let status := data_status el in
  let isFavorite := data_favorite el in
  if isFavorite then moveDeviceToFavorites deviceElement
  else if decide (status = "online") then
    onlineSection ← querySelector_category Online;
    match onlineSection with
    | Some h => insertBefore_nextSibling deviceElement h
    | None => throw (TypeError "Cannot read properties of null (reading 'nextSibling')")
    end
  else
    offlineSection ← querySelector_category Offline;
    match offlineSection with
    | Some h => insertBefore_nextSibling deviceElement h
    | None => throw (TypeError "Cannot read properties of null (reading 'nextSibling')")
    end.

Definition toggleFavorite (deviceElement : nat) : M unit :=
  el ← getElement deviceElement;
  (if data_favorite el then
     updateElement deviceElement (set_data_favorite false) ;;
     moveDeviceToCorrectSection deviceElement
   else
     updateElement deviceElement (set_data_favorite true) ;;
     moveDeviceToFavorites deviceElement) ;;
  updateSectionVisibility.

Definition toggleDeviceStatus (deviceElement : nat) : M unit :=
  el ← getElement deviceElement;
  let currentStatus := data_status el in
  let newStatus := if decide (currentStatus = "online") then "offline" else "online" in
  updateElement deviceElement (set_data_status newStatus) ;;
  moveDeviceToCorrectSection deviceElement ;;
  updateSectionVisibility.

End Markup.
End Dom.

(** No name of a device in the sidebar creates an element with the
    classes of a section header. *)
Definition no_header_markup (headers_in : string → list injected)
    (s : state) : Prop :=
  ∀ k el, Link k ∈ sidebar s → links s !! k = Some el →
          headers_in (el_name el) = [].

(** A name that is the markup of a [div] with the classes of the Offline
    header, and what the parser makes of it: in the template of a device
    element the [div] is followed by the text behind the name. *)
Definition offline_div : string :=
  "<div class='sidebar-category offline-devices'></div>".

Definition sample_headers_in (name : string) : list injected :=
  if String.eqb name offline_div then [Injected Offline true] else [].

(** A device with this name is added; the draw [0] makes it online. *)
Definition markup_device : state :=
  sample [AddDeviceButtonClick 0%Q 0%Q; UserInput (InDeviceName offline_div);
          ConfirmAddDeviceClick 0%Q].

Arguments moveDeviceToFavorites : simpl never.
Arguments moveDeviceToCorrectSection : simpl never.
Arguments updateSectionVisibility : simpl never.
Arguments addDeviceToSidebar : simpl never.
Arguments updateDeviceInSidebar : simpl never.
Arguments deleteDevice : simpl never.
Arguments openEditDeviceModal : simpl never.
Arguments toggleFavorite : simpl never.
Arguments toggleDeviceStatus : simpl never.
Arguments scanForDevices : simpl never.
Arguments place : simpl never.
Arguments removeChild : simpl never.
Arguments has_visible_favorite : simpl never.


(** ** Sidebar children: removal and insertion *)

Lemma elem_of_removeChild x n l : x ∈ removeChild n l ↔ x ∈ l ∧ x ≠ n.
Proof. unfold removeChild. rewrite list_elem_of_filter. tauto. Qed.

Lemma NoDup_removeChild n l : NoDup l → NoDup (removeChild n l).
Proof. apply NoDup_filter. Qed.

Lemma removeChild_notin n l : n ∉ l → removeChild n l = l.
Proof.
  induction l as [|x l IH]; [done|].
  intros Hn. apply not_elem_of_cons in Hn as [Hne Hn].
  unfold removeChild in *. rewrite filter_cons_True; [|congruence].
  f_equal. auto.
Qed.

Lemma removeChild_cons_ne n x l : x ≠ n → removeChild n (x :: l) = x :: removeChild n l.
Proof. intros. unfold removeChild. by rewrite filter_cons_True. Qed.

Lemma removeChild_cons_eq n l : removeChild n (n :: l) = removeChild n l.
Proof. unfold removeChild. rewrite filter_cons_False; [done|]. intros H; by apply H. Qed.

Lemma nextSibling_elem h l r : nextSibling h l = Some r → r ∈ l.
Proof.
  induction l as [|x l IH]; [done|]. cbn.
  destruct (decide (x = h)).
  - destruct l; [done|]. cbn. intros [= ->]. set_solver.
  - intros. right. auto.
Qed.

Lemma nextSibling_notin h l : h ∉ l → nextSibling h l = None.
Proof.
  induction l as [|x l IH]; [done|]. intros Hn.
  apply not_elem_of_cons in Hn as [Hne Hn]. cbn.
  destruct (decide (x = h)); [congruence|auto].
Qed.

Lemma insert_before_cons_ne n r x l :
  x ≠ r → insert_before n r (x :: l) = cons x <$> insert_before n r l.
Proof. intros. cbn. by destruct (decide (x = r)). Qed.

Lemma insertBefore_cons_ne n ref x l :
  x ≠ n → x ∉ l → (∀ r, ref = Some r → r ∈ l) →
  insertBefore n ref (x :: l) = cons x <$> insertBefore n ref l.
Proof.
  intros Hxn Hxl Href. unfold insertBefore.
  assert (nextSibling n (x :: l) = nextSibling n l) as ->.
  { cbn. by destruct (decide (x = n)). }
  rewrite removeChild_cons_ne by done.
  set (ref' := if decide (ref = Some n) then nextSibling n l else ref).
  assert (∀ r, ref' = Some r → r ∈ l) as Href'.
  { intros r. unfold ref'. destruct (decide (ref = Some n)); [apply nextSibling_elem | apply Href]. }
  destruct ref' as [r|]; [|done].
  rewrite insert_before_cons_ne; [done|].
  intros ->. apply Hxl, Href'. done.
Qed.

Lemma insertBefore_after h n l :
  NoDup l → h ∈ l → h ≠ n →
  insertBefore n (nextSibling h l) l = Some (insert_after h n (removeChild n l)).
Proof.
  induction l as [|x l IH]; intros Hnd Hin Hne; [by apply elem_of_nil in Hin|].
  apply NoDup_cons in Hnd as [Hx Hnd].
  destruct (decide (x = h)) as [->|Hxh].
  - rewrite removeChild_cons_ne by done.
    cbn [nextSibling insert_after]. rewrite !decide_True by done.
    unfold insertBefore. destruct l as [|y l]; cbn [head].
    + rewrite decide_False by done. by rewrite removeChild_cons_ne.
    + apply NoDup_cons in Hnd as [Hy Hnd].
      destruct (decide (y = n)) as [->|Hyn].
      * rewrite decide_True by done.
        rewrite removeChild_cons_ne, removeChild_cons_eq by done.
        rewrite (removeChild_notin n l) by done.
        cbn [nextSibling]. rewrite decide_False by done. rewrite decide_True by done.
        destruct l as [|z l]; cbn [head]; [done|].
        cbn [insert_before]. rewrite decide_False.
        2:{ intros ->. apply Hx. set_solver. }
        rewrite decide_True by done. done.
      * rewrite decide_False by congruence.
        rewrite !removeChild_cons_ne by done.
        cbn [insert_before]. rewrite decide_False.
        2:{ intros ->. apply Hx. set_solver. }
        rewrite decide_True by done. done.
  - assert (h ∈ l) as Hhl by set_solver.
    cbn [nextSibling]. rewrite decide_False by done.
    destruct (decide (x = n)) as [->|Hxn].
    + rewrite removeChild_cons_eq. rewrite <- IH by done.
      unfold insertBefore.
      assert (nextSibling h l ≠ Some n) as Hns.
      { intros Hs. apply Hx. by eapply nextSibling_elem. }
      rewrite !decide_False by done. by rewrite removeChild_cons_eq.
    + rewrite insertBefore_cons_ne; [| done | done | intros r; apply nextSibling_elem].
      rewrite IH by done. rewrite removeChild_cons_ne by done.
      cbn. by rewrite decide_False.
Qed.

Lemma nextSibling_insert_after h n l :
  h ∈ l → nextSibling h (insert_after h n l) = Some n.
Proof.
  induction l as [|x l IH]; intros Hin; [by apply elem_of_nil in Hin|].
  cbn. destruct (decide (x = h)) as [->|Hne]; cbn.
  - by rewrite decide_True.
  - rewrite decide_False by done. apply IH. set_solver.
Qed.

Lemma elem_of_insert_after h n l x :
  h ∈ l → x ∈ insert_after h n l ↔ x = n ∨ x ∈ l.
Proof.
  induction l as [|y l IH]; intros Hin; [by apply elem_of_nil in Hin|].
  cbn. destruct (decide (y = h)) as [->|Hne].
  - set_solver.
  - rewrite elem_of_cons, IH by set_solver. set_solver.
Qed.

Lemma insert_after_notin h n l : h ∉ l → insert_after h n l = l.
Proof.
  induction l as [|y l IH]; [done|]. intros Hn.
  apply not_elem_of_cons in Hn as [Hne Hn]. cbn.
  rewrite decide_False by done. f_equal; auto.
Qed.

Lemma NoDup_insert_after h n l :
  NoDup l → n ∉ l → NoDup (insert_after h n l).
Proof.
  induction l as [|y l IH]; intros Hnd Hn; [done|].
  apply NoDup_cons in Hnd as [Hy Hnd].
  apply not_elem_of_cons in Hn as [Hne Hn]. cbn.
  destruct (decide (y = h)) as [->|Hyh].
  - apply NoDup_cons. split; [set_solver|]. apply NoDup_cons. done.
  - apply NoDup_cons. split; [|auto].
    destruct (decide (h ∈ l)).
    + rewrite elem_of_insert_after by done. set_solver.
    + by rewrite insert_after_notin.
Qed.

(** ** What the sidebar routines compute *)

Ltac msimpl :=
  unfold mbind, mret, M_bind, M_ret, gets, modify, throw, when; cbn.

Lemma elem_of_place c k l x :
  Category c ∈ l → x ∈ place c k l ↔ x = Link k ∨ x ∈ l.
Proof.
  intros Hc. unfold place.
  rewrite elem_of_insert_after by (apply elem_of_removeChild; done).
  rewrite elem_of_removeChild.
  destruct (decide (x = Link k)); naive_solver.
Qed.

Lemma NoDup_place c k l : NoDup l → NoDup (place c k l).
Proof.
  intros Hnd. apply NoDup_insert_after; [by apply NoDup_removeChild|].
  rewrite elem_of_removeChild. naive_solver.
Qed.

Lemma nextSibling_place c k l :
  Category c ∈ l → nextSibling (Category c) (place c k l) = Some (Link k).
Proof.
  intros Hc. apply nextSibling_insert_after. by apply elem_of_removeChild.
Qed.

Lemma insert_behind_eq c k s :
  NoDup (sidebar s) → Category c ∈ sidebar s →
  (section ← querySelector_category c;
   ref ← nextSibling_of section;
   sidebar_insertBefore (Link k) ref) s
  = Done tt (set_sidebar (place c k) s).
Proof.
  intros Hnd Hc. unfold querySelector_category, nextSibling_of, sidebar_insertBefore.
  msimpl. rewrite decide_True by done. cbn.
  rewrite insertBefore_after by done. reflexivity.
Qed.

Lemma moveDeviceToFavorites_eq k s :
  NoDup (sidebar s) → Category Favorites ∈ sidebar s →
  moveDeviceToFavorites k s = Done tt (set_sidebar (place Favorites k) s).
Proof.
  intros Hnd Hc. unfold moveDeviceToFavorites, querySelector_category, nextSibling_of, sidebar_insertBefore.
  msimpl. rewrite decide_True by done. cbn.
  rewrite insertBefore_after by done. reflexivity.
Qed.

Lemma moveDeviceToCorrectSection_eq k s el :
  NoDup (sidebar s) → (∀ c, Category c ∈ sidebar s) → links s !! k = Some el →
  moveDeviceToCorrectSection k s = Done tt (set_sidebar (place (section_of el) k) s).
Proof.
  intros Hnd Hc Hel. unfold moveDeviceToCorrectSection, getElement, section_of.
  unfold mbind at 1. unfold M_bind at 1. rewrite Hel.
  destruct (data_favorite el).
  - by apply moveDeviceToFavorites_eq.
  - destruct (decide (data_status el = "online")); by apply insert_behind_eq.
Qed.

Lemma updateSectionVisibility_eq s :
  Category Favorites ∈ sidebar s →
  updateSectionVisibility s
  = Done tt (set_favoritesDisplay (λ _, has_visible_favorite s) s).
Proof.
  intros Hc. unfold updateSectionVisibility, querySelector_category. msimpl.
  rewrite decide_True by done. reflexivity.
Qed.

Lemma toggleDeviceStatus_eq k s el :
  NoDup (sidebar s) → (∀ c, Category c ∈ sidebar s) → links s !! k = Some el →
  let newStatus := if decide (data_status el = "online") then "offline" else "online" in
  let s1 := set_links (alter (set_data_status newStatus) k) s in
  let s2 := set_sidebar (place (section_of (set_data_status newStatus el)) k) s1 in
  toggleDeviceStatus k s
  = Done tt (set_favoritesDisplay (λ _, has_visible_favorite s2) s2).
Proof.
  intros Hnd Hc Hel newStatus s1 s2. unfold toggleDeviceStatus, getElement, updateElement.
  unfold mbind at 1. unfold M_bind at 1. rewrite Hel.
  unfold mbind at 1. unfold M_bind at 1. unfold modify at 1.
  unfold mbind at 1. unfold M_bind at 1.
  rewrite (moveDeviceToCorrectSection_eq k _ (set_data_status newStatus el)); cbn; try done.
  - apply updateSectionVisibility_eq. cbn. apply elem_of_place; auto.
  - rewrite lookup_alter_eq, Hel. done.
Qed.

Lemma toggleFavorite_eq k s el :
  NoDup (sidebar s) → (∀ c, Category c ∈ sidebar s) → links s !! k = Some el →
  let el' := set_data_favorite (negb (data_favorite el)) el in
  let s1 := set_links (alter (set_data_favorite (negb (data_favorite el))) k) s in
  let s2 := set_sidebar (place (section_of el') k) s1 in
  toggleFavorite k s
  = Done tt (set_favoritesDisplay (λ _, has_visible_favorite s2) s2).
Proof.
  intros Hnd Hc Hel el' s1 s2. unfold toggleFavorite, getElement, updateElement.
  unfold mbind at 1. unfold M_bind at 1. rewrite Hel.
  unfold mbind at 1. unfold M_bind at 1.
  subst el' s1 s2. destruct (data_favorite el) eqn:Hfav; cbn [negb].
  - unfold mbind at 1. unfold M_bind at 1. unfold modify at 1.
    rewrite (moveDeviceToCorrectSection_eq k _ (set_data_favorite false el)); cbn; try done.
    + apply updateSectionVisibility_eq. cbn. apply elem_of_place; auto.
    + rewrite lookup_alter_eq, Hel. done.
  - unfold mbind at 1. unfold M_bind at 1. unfold modify at 1.
    rewrite moveDeviceToFavorites_eq; cbn; try done.
    apply updateSectionVisibility_eq. cbn. apply elem_of_place; auto.
Qed.

(** The element [addDeviceToSidebar] creates. *)
Lemma addDeviceToSidebar_eq u name id isProtected deviceType deviceIP isManuallyAdded s :
  NoDup (sidebar s) → (∀ c, Category c ∈ sidebar s) →
  let el := new_element u name id isProtected deviceType deviceIP isManuallyAdded in
  addDeviceToSidebar u name id isProtected deviceType deviceIP isManuallyAdded s
  = Done tt (set_sidebar (place (section_of el) (next_node s))
               (set_links <[next_node s := el]> (set_next_node S s))).
Proof.
  intros Hnd Hc el. unfold addDeviceToSidebar, createElement.
  unfold mbind at 1. unfold M_bind at 1.
  unfold mbind at 1. unfold M_bind at 1. unfold modify at 1.
  unfold section_of, el, new_element. cbn [data_favorite data_status].
  destruct (decide (random_status u = "online")); by rewrite insert_behind_eq.
Qed.

Lemma updateDeviceInSidebar_eq k name id isProtected deviceType deviceIP isManuallyAdded s el :
  NoDup (sidebar s) → (∀ c, Category c ∈ sidebar s) → links s !! k = Some el →
  let f := edit_element name isProtected deviceType deviceIP isManuallyAdded in
  updateDeviceInSidebar k name id isProtected deviceType deviceIP isManuallyAdded s
  = Done tt (set_sidebar (place (section_of (f el)) k) (set_links (alter f k) s)).
Proof.
  intros Hnd Hc Hel f. unfold updateDeviceInSidebar, updateElement.
  unfold mbind at 1. unfold M_bind at 1. unfold modify at 1.
  fold f.
  rewrite (moveDeviceToCorrectSection_eq k _ (f el)); cbn; try done.
  rewrite lookup_alter_eq, Hel. done.
Qed.

Lemma deleteDevice_eq k s el :
  links s !! k = Some el → Link k ∈ sidebar s →
  deleteDevice k s
  = Done tt (set_sidebar (removeChild (Link k))
               (set_devicePasswords (delete (data_device_id el)) s)).
Proof.
  intros Hel Hin. unfold deleteDevice, getElement.
  unfold mbind at 1. unfold M_bind at 1. rewrite Hel.
  msimpl. rewrite bool_decide_eq_true_2 by done. reflexivity.
Qed.

Lemma deleteDevice_detached k s el :
  links s !! k = Some el → Link k ∉ sidebar s →
  ∃ e, deleteDevice k s
       = Threw e (set_devicePasswords (delete (data_device_id el)) s).
Proof.
  intros Hel Hin. unfold deleteDevice, getElement.
  unfold mbind at 1. unfold M_bind at 1. rewrite Hel.
  msimpl. rewrite bool_decide_eq_false_2 by done. eauto.
Qed.

(** ** The status draw *)

Lemma random_index_range u n :
  unit_draw u → (0 < n)%Z → (0 ≤ random_index u n < n)%Z.
Proof.
  intros [Hlo Hhi] Hn. unfold random_index.
  assert (inject_Z 0 < inject_Z n)%Q as Hn' by (by rewrite <- Zlt_Qlt).
  split.
  - change 0%Z with (Qfloor (inject_Z 0)).
    apply Qfloor_resp_le. change (inject_Z 0) with (0 * inject_Z n)%Q.
    apply Qmult_le_compat_r; [done|]. by apply Qlt_le_weak.
  - rewrite Zlt_Qlt. eapply Qle_lt_trans; [apply Qfloor_le|].
    rewrite <- (Qmult_1_l (inject_Z n)) at 2.
    by apply Qmult_lt_compat_r.
Qed.

Lemma random_status_cases u :
  unit_draw u →
  (random_index u 2 = 0%Z ∧ random_status u = "online") ∨
  (random_index u 2 = 1%Z ∧ random_status u = "offline").
Proof.
  intros Hu. pose proof (random_index_range u 2 Hu ltac:(lia)) as Hr.
  unfold random_status, array_get.
  change (Z.of_nat (length statuses)) with 2%Z.
  assert (random_index u 2 = 0 ∨ random_index u 2 = 1)%Z as [E | E] by lia;
    rewrite E; auto.
Qed.

Lemma random_status_in u : unit_draw u → random_status u ∈ statuses.
Proof.
  intros Hu. destruct (random_status_cases u Hu) as [[_ ->] | [_ ->]];
    unfold statuses; set_solver.
Qed.

(** ** Well-formedness is kept *)

Lemma wf_frame s s' :
  sidebar s' = sidebar s → links s' = links s → next_node s' = next_node s →
  currentActionDevice s' = currentActionDevice s →
  passwordVerifyModal s' = passwordVerifyModal s →
  editDeviceModal s' = editDeviceModal s →
  wf s → wf s'.
Proof.
  intros Hs Hl Hn Hc Hp He [? ? ? ? ? ? ?].
  constructor; rewrite ?Hs, ?Hl, ?Hn, ?Hc, ?Hp, ?He; done.
Qed.

Lemma wf_place c k s :
  wf s → is_Some (links s !! k) → wf (set_sidebar (place c k) s).
Proof.
  intros [? Hh ? ? ? ? ?] Hk. constructor; cbn; try done.
  - by apply NoDup_place.
  - intros c'. apply elem_of_place; auto.
  - intros k'. rewrite elem_of_place by auto. intros [[= ->] | ?]; auto.
Qed.

Lemma wf_alter f k s :
  wf s → (∀ el, links s !! k = Some el → data_status (f el) ∈ statuses) →
  wf (set_links (alter f k) s).
Proof.
  intros [? ? Ha Hb Hst Hc ?] Hf.
  assert (∀ j, is_Some (alter f k (links s) !! j) ↔ is_Some (links s !! j)) as Hdom.
  { intros j. destruct (decide (k = j)) as [->|].
    - rewrite lookup_alter_eq. by rewrite fmap_is_Some.
    - by rewrite lookup_alter_ne. }
  constructor; cbn; try done.
  - intros j Hj. apply Hdom; auto.
  - intros j Hj. apply Hb, Hdom, Hj.
  - intros j el. destruct (decide (k = j)) as [->|].
    + rewrite lookup_alter_eq. destruct (links s !! j) as [el0|] eqn:E; [|done].
      cbn. intros [= <-]. auto.
    + rewrite lookup_alter_ne by done. apply Hst.
  - intros j Hj. apply Hdom; auto.
Qed.

Lemma wf_fresh s : wf s → Link (next_node s) ∉ sidebar s.
Proof.
  intros [? ? Ha Hb ? ? ?] Hin. apply Ha, Hb in Hin. lia.
Qed.

Lemma wf_create el s :
  wf s → data_status el ∈ statuses →
  wf (set_links <[next_node s := el]> (set_next_node S s)).
Proof.
  intros [? ? Ha Hb Hst Hc ?] Hel. constructor; cbn; try done.
  - intros j Hj. rewrite lookup_insert_is_Some. right. split; [|auto].
    intros <-. apply Ha, Hb in Hj. lia.
  - intros j. rewrite lookup_insert_is_Some. intros [<- | [_ Hj]]; [lia|].
    apply Hb in Hj. lia.
  - intros j el'. rewrite lookup_insert. case_decide.
    + by intros [= <-].
    + apply Hst.
  - intros j Hj. rewrite lookup_insert_is_Some.
    destruct (decide (next_node s = j)); auto.
Qed.

Lemma wf_allocate s : wf s → wf (set_next_node S s).
Proof.
  intros [? ? Ha Hb Hst Hc ?]. constructor; cbn; try done.
  intros j Hj. apply Hb in Hj. lia.
Qed.

Lemma wf_remove n s : wf s → (∀ c, n ≠ Category c) → wf (set_sidebar (removeChild n) s).
Proof.
  intros [? Hh Ha ? ? ? ?] Hn. constructor; cbn; try done.
  - by apply NoDup_removeChild.
  - intros c. apply elem_of_removeChild. split; [done|]. intros E. by eapply Hn.
  - intros j Hj. apply elem_of_removeChild in Hj as [Hj _]. auto.
Qed.

Lemma wf_set_current k s :
  wf s → is_Some (links s !! k) → wf (set_currentActionDevice (λ _, Some k) s).
Proof.
  intros [? ? ? ? ? ? ?] Hk. constructor; cbn; try done.
  by intros j [= <-].
Qed.

Lemma wf_show_password s :
  wf s → is_Some (currentActionDevice s) → wf (set_passwordVerifyModal (λ _, true) s).
Proof. intros [? ? ? ? ? ? ?] Hk. constructor; cbn; done. Qed.

Lemma wf_show_edit s :
  wf s → is_Some (currentActionDevice s) → wf (set_editDeviceModal (λ _, true) s).
Proof. intros [? ? ? ? ? ? ?] Hk. constructor; cbn; done. Qed.

Lemma wf_hide_password s : wf s → wf (set_passwordVerifyModal (λ _, false) s).
Proof.
  intros [? ? ? ? ? ? Hd]. constructor; cbn; try done.
  intros [? | He]; [done|]. auto.
Qed.

Lemma wf_hide_edit s : wf s → wf (set_editDeviceModal (λ _, false) s).
Proof.
  intros [? ? ? ? ? ? Hd]. constructor; cbn; try done.
  intros [Hp | ?]; [|done]. auto.
Qed.

(** ** Frame rules *)

Section Keeps.
Context (R : relation state) `{!PreOrder R}.

Lemma keeps_ret {A} (a : A) : keeps R (mret a).
Proof. intros s. cbn. reflexivity. Qed.

Lemma keeps_throw {A} e : keeps R (@throw A e).
Proof. intros s. cbn. reflexivity. Qed.

Lemma keeps_gets {A} (f : state → A) : keeps R (gets f).
Proof. intros s. cbn. reflexivity. Qed.

Lemma keeps_modify f : (∀ s, R s (f s)) → keeps R (modify f).
Proof. intros Hf s. apply Hf. Qed.

Lemma keeps_bind {A B} (m : M A) (f : A → M B) :
  keeps R m → (∀ a, keeps R (f a)) → keeps R (m ≫= f).
Proof.
  intros Hm Hf s. specialize (Hm s). unfold mbind, M_bind.
  destruct (m s) as [a s'|e s']; cbn in *; [|done].
  etransitivity; [exact Hm | apply Hf].
Qed.

Lemma keeps_catch {A} (m : M A) h :
  keeps R m → (∀ e, keeps R (h e)) → keeps R (catch m h).
Proof.
  intros Hm Hh s. specialize (Hm s). unfold catch.
  destruct (m s) as [a s'|e s']; cbn in *; [done|].
  etransitivity; [exact Hm | apply Hh].
Qed.

Lemma keeps_when b m : keeps R m → keeps R (when b m).
Proof. destruct b; [done|]. intros _. apply keeps_ret. Qed.

Lemma keeps_forEach {A} (l : list A) f :
  (∀ x, keeps R (f x)) → keeps R (forEach l f).
Proof.
  intros Hf. induction l as [|x l IH]; [apply keeps_ret|].
  cbn [forEach]. apply keeps_bind; auto.
Qed.

Lemma keeps_traverse {A B} (f : A → M B) l :
  (∀ x, keeps R (f x)) → keeps R (traverse f l).
Proof.
  intros Hf. induction l as [|x l IH]; [apply keeps_ret|].
  cbn [traverse]. apply keeps_bind; [auto|]. intros y.
  apply keeps_bind; [auto|]. intros ys. apply keeps_ret.
Qed.

Lemma keeps_lift {A} (r : exn + A) : keeps R (lift r).
Proof. destruct r; [apply keeps_throw | apply keeps_ret]. Qed.
End Keeps.

Global Instance scan_only_preorder : PreOrder scan_only.
Proof.
  split.
  - intros s. unfold scan_only. by destruct s.
  - intros s1 s2 s3 H12 H23. unfold scan_only in *.
    rewrite H23. rewrite H12. by destruct s1.
Qed.

Lemma scan_only_container f s : scan_only s (set_container f s).
Proof. unfold scan_only. by destruct s. Qed.

Lemma scan_only_pending f s : scan_only s (set_pending f s).
Proof. unfold scan_only. by destruct s. Qed.

Section ScanFrame.
Variable toLowerCase : string → string.

Lemma keeps_container_removeChild n : keeps scan_only (container_removeChild n).
Proof.
  apply (keeps_bind scan_only); [apply (keeps_gets scan_only)|]. intros [].
  - apply (keeps_modify scan_only). intros s. apply scan_only_container.
  - apply (keeps_throw scan_only).
Qed.

Lemma keeps_container_appendChild v : keeps scan_only (container_appendChild v).
Proof. apply (keeps_modify scan_only). intros s. apply scan_only_container. Qed.

Lemma keeps_createDeviceListItem d p :
  keeps scan_only (createDeviceListItem toLowerCase d p).
Proof.
  unfold createDeviceListItem. apply (keeps_bind scan_only).
  - destruct (Js.truthy (dev_type d)); [apply (keeps_ret scan_only)|].
    apply (keeps_bind scan_only); [apply (keeps_lift scan_only)|].
    intros. apply (keeps_ret scan_only).
  - intros. apply (keeps_ret scan_only).
Qed.

Lemma keeps_scan_catch n text : keeps scan_only (scan_catch n text).
Proof.
  unfold scan_catch. apply (keeps_bind scan_only); [apply (keeps_gets scan_only)|].
  intros b. apply (keeps_bind scan_only).
  - apply (keeps_when scan_only). apply keeps_container_removeChild.
  - intros _. apply keeps_container_appendChild.
Qed.

Lemma keeps_scanForDevices_then n data :
  keeps scan_only (scanForDevices_then toLowerCase n data).
Proof.
  unfold scanForDevices_then.
  apply (keeps_bind scan_only); [apply keeps_container_removeChild|].
  intros _. destruct (Js.truthy (data_error data)); [apply keeps_container_appendChild|].
  destruct (data_devices data) as [[|d ds]|]; try apply keeps_container_appendChild.
  apply (keeps_forEach scan_only). intros x.
  apply (keeps_bind scan_only); [apply keeps_createDeviceListItem|].
  intros. apply keeps_container_appendChild.
Qed.

Lemma keeps_scanForDevices_settled n r :
  keeps scan_only (scanForDevices_settled toLowerCase n r).
Proof.
  unfold scanForDevices_settled. apply (keeps_bind scan_only).
  - apply (keeps_modify scan_only). intros s. apply scan_only_pending.
  - intros _. apply (keeps_catch scan_only).
    + destruct r; [apply (keeps_throw scan_only) | apply keeps_scanForDevices_then].
    + intros _. apply keeps_scan_catch.
Qed.
End ScanFrame.

Lemma wf_scan_only s s' : scan_only s s' → wf s → wf s'.
Proof. intros ->. by apply wf_frame. Qed.

(** ** Well-formedness is an invariant of the page *)


Lemma elem_of_place_old c k l x : Category c ∈ l → x ∈ l → x ∈ place c k l.
Proof. intros Hc Hx. apply elem_of_place; auto. Qed.

Lemma openEditDeviceModal_eq cleanName k s el :
  links s !! k = Some el →
  openEditDeviceModal cleanName k s
  = Done tt (set_editDeviceModal (λ _, true)
               (set_editForm (λ _, edit_form_of cleanName el) s)).
Proof.
  intros Hel. unfold openEditDeviceModal, getElement.
  unfold mbind at 1. unfold M_bind at 1. rewrite Hel. reflexivity.
Qed.

Lemma sidebar_init :
  sidebar init
  = [Other 0; Other 1; Category Favorites; Category Online; Category Offline;
     Other 2; Other 3].
Proof. by vm_compute. Qed.

Lemma wf_init : wf init.
Proof.
  constructor; rewrite ?sidebar_init.
  - by apply (bool_decide_unpack _).
  - intros c. destruct c; set_solver.
  - intros k Hk. set_solver.
  - intros k [? Hk]. change (links init) with (∅ : gmap nat element) in Hk.
    by rewrite lookup_empty in Hk.
  - intros k el Hk. change (links init) with (∅ : gmap nat element) in Hk.
    by rewrite lookup_empty in Hk.
  - done.
  - by intros [? | ?].
Qed.

Lemma wf_set_favoritesDisplay f s : wf s → wf (set_favoritesDisplay f s).
Proof. by apply wf_frame. Qed.

Lemma wf_set_devicePasswords f s : wf s → wf (set_devicePasswords f s).
Proof. by apply wf_frame. Qed.

Lemma wf_set_currentActionType f s : wf s → wf (set_currentActionType f s).
Proof. by apply wf_frame. Qed.

Lemma wf_set_addDeviceModal f s : wf s → wf (set_addDeviceModal f s).
Proof. by apply wf_frame. Qed.

Lemma wf_set_addForm f s : wf s → wf (set_addForm f s).
Proof. by apply wf_frame. Qed.

Lemma wf_set_editForm f s : wf s → wf (set_editForm f s).
Proof. by apply wf_frame. Qed.

Lemma wf_set_verifyPassword f s : wf s → wf (set_verifyPassword f s).
Proof. by apply wf_frame. Qed.

Lemma wf_set_passwordPromptText f s : wf s → wf (set_passwordPromptText f s).
Proof. by apply wf_frame. Qed.

Lemma wf_set_deviceListDisplay f s : wf s → wf (set_deviceListDisplay f s).
Proof. by apply wf_frame. Qed.

Lemma wf_set_container f s : wf s → wf (set_container f s).
Proof. by apply wf_frame. Qed.

Lemma wf_set_pending f s : wf s → wf (set_pending f s).
Proof. by apply wf_frame. Qed.

Lemma wf_set_alerts f s : wf s → wf (set_alerts f s).
Proof. by apply wf_frame. Qed.

Lemma wf_set_requests f s : wf s → wf (set_requests f s).
Proof. by apply wf_frame. Qed.

Create HintDb wf_db discriminated.
#[global] Hint Resolve wf_set_favoritesDisplay wf_set_devicePasswords wf_set_currentActionType wf_set_addDeviceModal wf_set_addForm wf_set_editForm wf_set_verifyPassword wf_set_passwordPromptText wf_set_deviceListDisplay wf_set_container wf_set_pending wf_set_alerts wf_set_requests
  wf_allocate wf_hide_password wf_hide_edit : wf_db.

Section Invariant.
Variables toLowerCase trim cleanName : string → string.

Lemma wf_toggleDeviceStatus k s :
  wf s → is_Some (links s !! k) → wf (final (toggleDeviceStatus k s)).
Proof.
  intros Hwf [el Hel].
  rewrite (toggleDeviceStatus_eq k s el); [| apply Hwf | apply Hwf | done].
  cbn [final]. apply wf_set_favoritesDisplay.
  apply wf_place.
  - apply wf_alter; [done|]. intros el' _. cbn.
    case_decide; unfold statuses; set_solver.
  - cbn. rewrite lookup_alter_eq, Hel. by eexists.
Qed.

Lemma wf_toggleFavorite k s :
  wf s → is_Some (links s !! k) → wf (final (toggleFavorite k s)).
Proof.
  intros Hwf [el Hel].
  rewrite (toggleFavorite_eq k s el); [| apply Hwf | apply Hwf | done].
  cbn [final]. apply wf_set_favoritesDisplay.
  apply wf_place.
  - apply wf_alter; [done|]. intros el' Hel'. cbn. eapply wf_status; eauto.
  - cbn. rewrite lookup_alter_eq, Hel. by eexists.
Qed.
Lemma wf_delete k s :
  wf s → is_Some (links s !! k) →
  wf (final ((deleteDevice k ;; updateSectionVisibility) s)).
Proof.
  intros Hwf [el Hel]. unfold mbind, M_bind.
  destruct (decide (Link k ∈ sidebar s)) as [Hin|Hout].
  - rewrite (deleteDevice_eq k s el) by done.
    rewrite updateSectionVisibility_eq.
    2:{ cbn. apply elem_of_removeChild. split; [apply Hwf | done]. }
    cbn [final]. apply wf_set_favoritesDisplay, wf_remove; [|done].
    by apply wf_set_devicePasswords.
  - destruct (deleteDevice_detached k s el Hel Hout) as [e ->].
    cbn [final]. by apply wf_set_devicePasswords.
Qed.

Lemma wf_handleDeviceAction k act confirmed s :
  wf s → Link k ∈ sidebar s →
  wf (final (handleDeviceAction cleanName k act confirmed s)).
Proof.
  intros Hwf Hin. destruct (wf_attached s Hwf k Hin) as [el Hel].
  assert (wf (set_currentActionType (λ _, Some act)
                (set_currentActionDevice (λ _, Some k) s))) as Hwf'.
  { apply wf_set_currentActionType, wf_set_current; [done | by eexists]. }
  unfold handleDeviceAction, getElement. msimpl. rewrite Hel.
  destruct (data_protected el).
  - cbn. apply wf_show_password; [|by cbn]. by apply wf_set_passwordPromptText.
  - destruct act.
    + rewrite (openEditDeviceModal_eq _ _ _ el) by done. cbn [final].
      apply wf_show_edit; [|by cbn]. by apply wf_set_editForm.
    + destruct confirmed; [|done].
      apply wf_delete; [done|]. cbn. by eexists.
Qed.

Lemma wf_confirmAddDevice u s :
  wf s → unit_draw u → wf (final (confirmAddDevice_click trim u s)).
Proof.
  intros Hwf Hu. unfold confirmAddDevice_click. msimpl.
  destruct (nonempty (trim _)); cbn; [|by apply wf_set_alerts].
  destruct (passwordProtect (addForm s) && _); cbn; [by apply wf_set_alerts|].
  destruct (bool_decide _ && _); cbn; [by apply wf_set_alerts|].
  destruct (passwordProtect (addForm s)); cbn.
  all: rewrite addDeviceToSidebar_eq; [| apply Hwf | apply Hwf].
  all: cbn; rewrite updateSectionVisibility_eq;
    [| cbn; apply elem_of_place_old; apply Hwf].
  all: cbn [final]; apply wf_set_favoritesDisplay, wf_set_addDeviceModal.
  all: match goal with
       | |- wf (set_sidebar _ (set_links _ (set_next_node S ?X))) =>
           apply (wf_place _ _ (set_links _ (set_next_node S X)));
           [ apply (wf_create _ X);
             [auto with wf_db | by apply random_status_in]
           | cbn; rewrite lookup_insert_eq; by eexists ]
       end.
Qed.

Lemma wf_confirmPasswordVerify s :
  wf s → passwordVerifyModal s = true →
  wf (final (confirmPasswordVerify_click cleanName s)).
Proof.
  intros Hwf Hshown.
  destruct (wf_dialog s Hwf (or_introl Hshown)) as [k Hk].
  destruct (wf_current s Hwf k Hk) as [el Hel].
  unfold confirmPasswordVerify_click, current_device, getElement. msimpl.
  rewrite Hk. cbn. rewrite Hel. cbn.
  destruct (decide (Some (verifyPassword s) = _)); cbn.
  2:{ by apply wf_set_verifyPassword, wf_set_alerts. }
  assert (wf (set_passwordVerifyModal (λ _, false) s)) as Hwf'
    by by apply wf_hide_password.
  destruct (currentActionType s) as [[]|]; cbn.
  - rewrite (openEditDeviceModal_eq _ _ _ el) by done. cbn.
    apply wf_set_verifyPassword, wf_show_edit; [|cbn; by eexists].
    by apply wf_set_editForm.
  - pose proof (wf_delete k _ Hwf' (ex_intro _ el Hel)) as Hd.
    unfold mbind, M_bind in Hd.
    destruct (deleteDevice k _) as [[] s1|e1 s1]; [|done].
    destruct (updateSectionVisibility s1) as [[] s2|e2 s2]; cbn in *; [|done].
    by apply wf_set_verifyPassword.
  - by apply wf_set_verifyPassword.
Qed.

Lemma wf_confirmEditDevice s :
  wf s → editDeviceModal s = true →
  wf (final (confirmEditDevice_click trim s)).
Proof.
  intros Hwf Hshown.
  destruct (wf_dialog s Hwf (or_intror Hshown)) as [k Hk].
  destruct (wf_current s Hwf k Hk) as [el Hel].
  unfold confirmEditDevice_click, current_device, getElement. msimpl.
  destruct (negb (editDeviceIP_disabled (editForm s))); cbn.
  all: rewrite ?Hk; cbn; rewrite ?Hel; cbn.
  all: destruct (nonempty (trim _)); cbn; [|by apply wf_set_alerts].
  all: destruct (_ && no_password _); cbn; [by apply wf_set_alerts|].
  all: rewrite ?Hk; cbn; rewrite ?Hel; cbn.
  all: destruct (data_manual_add el && _); cbn; [by apply wf_set_alerts|].
  all: destruct (editPasswordProtect (editForm s)); cbn;
    [destruct (nonempty (editDevicePassword (editForm s))); cbn|].
  all: rewrite (updateDeviceInSidebar_eq _ _ _ _ _ _ _ _ el);
    [| apply Hwf | apply Hwf | done].
  all: cbn; rewrite updateSectionVisibility_eq;
    [| cbn; apply elem_of_place_old; apply Hwf].
  all: cbn [final]; apply wf_set_favoritesDisplay, wf_hide_edit.
  all: match goal with
       | |- wf (set_sidebar _ (set_links _ ?X)) =>
           apply (wf_place _ _ (set_links _ X));
           [ apply (wf_alter _ _ X); [auto with wf_db|];
             intros el' Hel'; cbn; eapply wf_status; eauto
           | cbn; rewrite lookup_alter_eq, Hel; by eexists ]
       end.
Qed.

Lemma wf_scanForDevices method s : wf s → wf (final (scanForDevices method s)).
Proof.
  intros Hwf. unfold scanForDevices, createElement, fetch. msimpl.
  apply wf_set_pending, wf_set_requests, wf_set_deviceListDisplay, wf_set_container.
  by apply wf_allocate.
Qed.

Lemma wf_run e s :
  wf s → enabled e s → wf (run toLowerCase trim cleanName e s).
Proof.
  intros Hwf Hen. unfold run. destruct e; cbn [handle enabled] in *.
  - unfold addDeviceButton_click, set_modal. msimpl.
    by apply wf_set_addDeviceModal, wf_set_deviceListDisplay, wf_set_addForm.
  - unfold connectionOption_click. unfold mbind at 1, M_bind at 1, modify at 1.
    assert (wf (set_addForm (select_option method) s)) by by apply wf_set_addForm.
    repeat case_decide; try by apply wf_scanForDevices.
    all: by apply wf_set_deviceListDisplay.
  - eapply wf_scan_only; [apply keeps_scanForDevices_settled | done].
  - destruct Hen. by apply wf_confirmAddDevice.
  - apply wf_toggleDeviceStatus; [done|]. by apply Hwf.
  - apply wf_toggleFavorite; [done|]. by apply Hwf.
  - by apply wf_handleDeviceAction.
  - by apply wf_handleDeviceAction.
  - by apply wf_confirmPasswordVerify.
  - by apply wf_confirmEditDevice.
  - destruct m; cbn; auto with wf_db.
  - destruct i; cbn; auto with wf_db.
Qed.

(** Every page the script can reach is well formed. *)
Lemma reachable_wf s : reachable toLowerCase trim cleanName s → wf s.
Proof.
  induction 1 as [|s e _ IH Hen]; [apply wf_init | by apply wf_run].
Qed.
End Invariant.

(** ** Reaching the sample pages *)

Lemma reachable_run_all toLowerCase trim cleanName es s :
  reachable toLowerCase trim cleanName s →
  enabled_all toLowerCase trim cleanName es s →
  reachable toLowerCase trim cleanName (run_all toLowerCase trim cleanName es s).
Proof.
  revert s. induction es as [|e es IH]; intros s Hs Hen; [done|].
  destruct Hen as [He Hes]. cbn. apply IH; [|done]. by constructor.
Qed.

Lemma unit_draw_0 : unit_draw 0.
Proof. split; by vm_compute. Qed.

Lemma unit_draw_half : unit_draw (1 # 2).
Proof. split; by vm_compute. Qed.

Lemma reachable_one_device :
  reachable Js.ascii_toLowerCase Js.ascii_trim Js.ascii_trim one_device.
Proof.
  apply reachable_run_all; [constructor|].
  cbn [enabled_all add_phone]. repeat split; try apply unit_draw_0; by vm_compute.
Qed.

Lemma wf_one_device : wf one_device.
Proof. eapply reachable_wf, reachable_one_device. Qed.

(** ** The icon of a device name *)

Lemma icon_of_lowered_in name : icon_of_lowered name ∈ icons.
Proof.
  unfold icon_of_lowered, icons.
  repeat match goal with |- context [if ?b then _ else _] => destruct b end;
    set_solver.
Qed.

Lemma icon_of_lowered_default name :
  (∀ k, k ∈ keywords → Js.includes name k = false) →
  icon_of_lowered name = icon_phone.
Proof.
  intros Hk. unfold icon_of_lowered.
  rewrite !Hk by (unfold keywords; set_solver). done.
Qed.

(** C10, as amended.  [getDeviceIconByName] returns one of the seven
    distinct icons for every name that is falsy ([null], [undefined], the
    empty string, ...) or a string; the icon is the default smartphone icon
    when the name is falsy and when the lower-cased string contains none of
    the keywords.  For any other name (truthy and not a string) the call
    throws. *)
Theorem getDeviceIconByName_on_names toLowerCase (name : Js.value) :
  length icons = 7 ∧ NoDup icons ∧
  ((Js.truthy name = false ∨ ∃ s, name = Js.Str s) →
   ∃ icon, getDeviceIconByName toLowerCase name = inr icon ∧ icon ∈ icons) ∧
  (Js.truthy name = false →
   getDeviceIconByName toLowerCase name = inr icon_phone) ∧
  (∀ s, name = Js.Str s →
     (∀ k, k ∈ keywords → Js.includes (toLowerCase s) k = false) →
     getDeviceIconByName toLowerCase name = inr icon_phone) ∧
  (Js.truthy name = true → (∀ s, name ≠ Js.Str s) →
   ∃ e, getDeviceIconByName toLowerCase name = inl e).
Proof.
  split; [done|]. split; [by apply (bool_decide_unpack _)|].
  assert (icon_phone ∈ icons) as Hdef by (unfold icons; set_solver).
  unfold getDeviceIconByName. repeat split.
  - intros [Hf | [s ->]].
    + rewrite Hf. cbn. eauto.
    + destruct (Js.truthy (Js.Str s)); cbn; [|by eauto].
      eexists. split; [done|]. apply icon_of_lowered_in.
  - intros ->. done.
  - intros s -> Hk. destruct (Js.truthy (Js.Str s)); cbn; [|done].
    by rewrite icon_of_lowered_default.
  - intros Ht Hs. rewrite Ht. cbn. destruct name; try by eauto.
    by destruct (Hs s).
Qed.

(** A name without keyword gets the default icon. *)
Lemma getDeviceIconByName_on_names_witness :
  getDeviceIconByName Js.ascii_toLowerCase (Js.Str "Hallway Lamp") = inr icon_phone.
Proof.
  destruct (getDeviceIconByName_on_names Js.ascii_toLowerCase
              (Js.Str "Hallway Lamp")) as (_ & _ & _ & _ & H & _).
  apply (H "Hallway Lamp"); [reflexivity|].
  intros k Hk. unfold keywords in Hk.
  repeat (apply elem_of_cons in Hk as [-> | Hk]; [by vm_compute|]).
  by apply elem_of_nil in Hk.
Defined.

(** C10 as stated fails: a number is truthy and has no [toLowerCase]
    method, so for the name [42] no icon comes back. *)
Lemma getDeviceIconByName_not_total :
  getDeviceIconByName Js.ascii_toLowerCase (Js.Num 42)
  = inl (TypeError "name.toLowerCase is not a function") ∧
  ¬ (∀ name, ∃ icon,
       getDeviceIconByName Js.ascii_toLowerCase name = inr icon ∧ icon ∈ icons).
Proof.
  split; [reflexivity|]. intros H. destruct (H (Js.Num 42)) as (icon & Hi & _).
  discriminate Hi.
Qed.

(** ** Status and placement *)

Lemma toggleDeviceStatus_spec k s el :
  wf s → links s !! k = Some el →
  let newStatus := if decide (data_status el = "online") then "offline" else "online" in
  ∃ s', toggleDeviceStatus k s = Done tt s' ∧ wf s' ∧
        links s' !! k = Some (set_data_status newStatus el) ∧
        sidebar s' = place (section_of (set_data_status newStatus el)) k (sidebar s) ∧
        requests s' = requests s ∧ devicePasswords s' = devicePasswords s.
Proof.
  intros Hwf Hel newStatus. eexists. split.
  { apply (toggleDeviceStatus_eq k s el); [apply Hwf | apply Hwf | done]. }
  split.
  { pose proof (wf_toggleDeviceStatus k s Hwf (ex_intro _ el Hel)) as H.
    rewrite (toggleDeviceStatus_eq k s el) in H; [done | apply Hwf | apply Hwf | done]. }
  cbn. rewrite lookup_alter_eq, Hel. done.
Qed.

Lemma toggleFavorite_spec k s el :
  wf s → links s !! k = Some el →
  let el' := set_data_favorite (negb (data_favorite el)) el in
  ∃ s', toggleFavorite k s = Done tt s' ∧ wf s' ∧
        links s' !! k = Some el' ∧
        sidebar s' = place (section_of el') k (sidebar s).
Proof.
  intros Hwf Hel el'. eexists. split.
  { apply (toggleFavorite_eq k s el); [apply Hwf | apply Hwf | done]. }
  split.
  { pose proof (wf_toggleFavorite k s Hwf (ex_intro _ el Hel)) as H.
    rewrite (toggleFavorite_eq k s el) in H; [done | apply Hwf | apply Hwf | done]. }
  cbn. rewrite lookup_alter_eq, Hel. done.
Qed.

(** C9.  On every page the script can reach and for every device element
    of it, [toggleDeviceStatus] turns ['online'] into ['offline'] and
    ['offline'] into ['online'], and applying it twice gives the status the
    element had. *)
Theorem toggleDeviceStatus_involution toLowerCase trim cleanName s k el :
  reachable toLowerCase trim cleanName s → links s !! k = Some el →
  ∃ s1 s2 el1 el2,
    toggleDeviceStatus k s = Done tt s1 ∧ links s1 !! k = Some el1 ∧
    toggleDeviceStatus k s1 = Done tt s2 ∧ links s2 !! k = Some el2 ∧
    (data_status el = "online" → data_status el1 = "offline") ∧
    (data_status el = "offline" → data_status el1 = "online") ∧
    data_status el2 = data_status el.
Proof.
  intros Hreach Hel. pose proof (reachable_wf _ _ _ s Hreach) as Hwf.
  destruct (toggleDeviceStatus_spec k s el Hwf Hel) as (s1 & Hs1 & Hwf1 & Hel1 & _).
  destruct (toggleDeviceStatus_spec k s1 _ Hwf1 Hel1) as (s2 & Hs2 & _ & Hel2 & _).
  exists s1, s2. do 2 eexists.
  split; [done|]. split; [done|]. split; [done|]. split; [done|].
  cbn. split; [by intros ->|]. split; [by intros ->|].
  pose proof (wf_status s Hwf k el Hel) as Hst.
  unfold statuses in Hst.
  apply elem_of_cons in Hst as [-> | Hst]; [done|].
  apply elem_of_cons in Hst as [-> | Hst]; [done|].
  by apply elem_of_nil in Hst.
Qed.

(** The online phone of [one_device], toggled twice. *)
Lemma toggleDeviceStatus_involution_witness :
  ∃ s1 s2 el1 el2,
    toggleDeviceStatus 0 one_device = Done tt s1 ∧ links s1 !! 0 = Some el1 ∧
    toggleDeviceStatus 0 s1 = Done tt s2 ∧ links s2 !! 0 = Some el2 ∧
    ("online" = "online" → data_status el1 = "offline") ∧
    ("online" = "offline" → data_status el1 = "online") ∧
    data_status el2 = "online".
Proof.
  apply (toggleDeviceStatus_involution Js.ascii_toLowerCase Js.ascii_trim
           Js.ascii_trim one_device 0
           (new_element 0 "Phone A" "DEV_0000_0000" true icon_phone "" false)).
  - apply reachable_one_device.
  - by vm_compute.
Defined.

(** ** Names with markup: the refined queries *)

Section MarkupFacts.
Variable headers_in : string → list injected.
Variable headers_in_item : list_item → list injected.
Variable injected_favorite : bool.

Lemma query_from_plain c s l :
  (∀ k el, Link k ∈ l → links s !! k = Some el → headers_in (el_name el) = []) →
  Category c ∈ l →
  Dom.query_from headers_in c s l = Some (FoundHeader c).
Proof.
  induction l as [|x l IH]; intros Hplain Hc.
  { by apply elem_of_nil in Hc. }
  assert (∀ k el, Link k ∈ l → links s !! k = Some el →
                  headers_in (el_name el) = []) as Hplain'.
  { intros k el Hk. apply Hplain. by right. }
  destruct x as [n|c'|k]; cbn [Dom.query_from].
  - apply IH; [done | set_solver].
  - case_decide; [done|]. apply IH; [done | set_solver].
  - assert (Dom.find_inside headers_in c s k = None) as ->.
    { unfold Dom.find_inside. destruct (links s !! k) as [el|] eqn:Hel; [|done].
      cbn. rewrite (Hplain k el); [done | by left | done]. }
    apply IH; [done | set_solver].
Qed.

Lemma dom_querySelector_category_eq c s :
  no_header_markup headers_in s → Category c ∈ sidebar s →
  Dom.querySelector_category headers_in headers_in_item c s
  = Done (Some (FoundHeader c)) s.
Proof.
  intros Hplain Hc. unfold Dom.querySelector_category, gets.
  by rewrite query_from_plain.
Qed.

Lemma dom_place_eq c k s :
  wf s → no_header_markup headers_in s →
  (section ← Dom.querySelector_category headers_in headers_in_item c;
   match section with
   | Some h => Dom.insertBefore_nextSibling k h
   | None => throw (TypeError "Cannot read properties of null (reading 'nextSibling')")
   end) s
  = Done tt (set_sidebar (place c k) s).
Proof.
  intros Hwf Hplain. unfold mbind, M_bind.
  rewrite dom_querySelector_category_eq; [| done | apply Hwf].
  unfold Dom.insertBefore_nextSibling, sidebar_insertBefore. msimpl.
  rewrite insertBefore_after; [reflexivity | apply Hwf | apply Hwf | done].
Qed.

Lemma dom_moveDeviceToFavorites_eq k s :
  wf s → no_header_markup headers_in s →
  Dom.moveDeviceToFavorites headers_in headers_in_item k s
  = Done tt (set_sidebar (place Favorites k) s).
Proof.
  intros Hwf Hplain. unfold Dom.moveDeviceToFavorites, mbind, M_bind.
  rewrite dom_querySelector_category_eq; [| done | apply Hwf].
  unfold Dom.insertBefore_nextSibling, sidebar_insertBefore. msimpl.
  rewrite insertBefore_after; [reflexivity | apply Hwf | apply Hwf | done].
Qed.

Lemma dom_moveDeviceToCorrectSection_eq k s el :
  wf s → no_header_markup headers_in s → links s !! k = Some el →
  Dom.moveDeviceToCorrectSection headers_in headers_in_item k s
  = Done tt (set_sidebar (place (section_of el) k) s).
Proof.
  intros Hwf Hplain Hel.
  unfold Dom.moveDeviceToCorrectSection, getElement, section_of.
  unfold mbind at 1. unfold M_bind at 1. rewrite Hel. cbv zeta.
  destruct (data_favorite el).
  - by apply dom_moveDeviceToFavorites_eq.
  - destruct (decide (data_status el = "online")); by apply dom_place_eq.
Qed.

Lemma dom_updateSectionVisibility_eq s :
  no_header_markup headers_in s → Category Favorites ∈ sidebar s →
  Dom.updateSectionVisibility headers_in headers_in_item injected_favorite s
  = Done tt (set_favoritesDisplay
               (λ _, has_visible_favorite s || injected_favorite) s).
Proof.
  intros Hplain Hc. unfold Dom.updateSectionVisibility.
  unfold mbind at 1. unfold M_bind at 1, gets at 1. cbv zeta.
  unfold mbind, M_bind. by rewrite dom_querySelector_category_eq.
Qed.

Lemma no_header_markup_alter f k s :
  (∀ el, el_name (f el) = el_name el) →
  no_header_markup headers_in s →
  no_header_markup headers_in (set_links (alter f k) s).
Proof.
  intros Hf Hplain k' el'. cbn. intros Hin. destruct (decide (k' = k)) as [->|].
  - rewrite lookup_alter_eq. destruct (links s !! k) as [el|] eqn:Hel; [|done].
    cbn. intros [= <-]. rewrite Hf. by apply (Hplain k el).
  - rewrite lookup_alter_ne by done. by apply Hplain.
Qed.

Lemma no_header_markup_place c k s :
  Category c ∈ sidebar s → Link k ∈ sidebar s →
  no_header_markup headers_in s →
  no_header_markup headers_in (set_sidebar (place c k) s).
Proof.
  intros Hc Hk Hplain k' el'. cbn. rewrite elem_of_place by done.
  intros [[= ->] | Hin]; by apply Hplain.
Qed.

(** The placement of the refined toggles on a page without header
    markup. *)
Lemma dom_toggleDeviceStatus_spec k s el :
  wf s → no_header_markup headers_in s →
  Link k ∈ sidebar s → links s !! k = Some el →
  let newStatus := if decide (data_status el = "online") then "offline" else "online" in
  ∃ s', Dom.toggleDeviceStatus headers_in headers_in_item injected_favorite k s
        = Done tt s' ∧
        links s' !! k = Some (set_data_status newStatus el) ∧
        sidebar s' = place (section_of (set_data_status newStatus el)) k (sidebar s).
Proof.
  intros Hwf Hplain Hk Hel newStatus.
  unfold Dom.toggleDeviceStatus, getElement, updateElement.
  unfold mbind at 1. unfold M_bind at 1. rewrite Hel. cbv zeta. fold newStatus.
  unfold mbind at 1. unfold M_bind at 1, modify.
  set (s1 := set_links (alter (set_data_status newStatus) k) s).
  assert (wf s1) as Hwf1.
  { apply wf_alter; [done|]. intros el' _. cbn. unfold newStatus.
    case_decide; unfold statuses; set_solver. }
  assert (no_header_markup headers_in s1) as Hplain1
    by by apply no_header_markup_alter.
  assert (links s1 !! k = Some (set_data_status newStatus el)) as Hel1.
  { unfold s1. cbn. by rewrite lookup_alter_eq, Hel. }
  unfold mbind, M_bind.
  rewrite (dom_moveDeviceToCorrectSection_eq k s1 _ Hwf1 Hplain1 Hel1).
  rewrite dom_updateSectionVisibility_eq.
  - eexists. split; [reflexivity|]. by split.
  - apply no_header_markup_place; [apply Hwf1 | done | done].
  - apply (wf_place _ k s1 Hwf1). by eexists.
Qed.

Lemma dom_toggleFavorite_spec k s el :
  wf s → no_header_markup headers_in s →
  Link k ∈ sidebar s → links s !! k = Some el →
  let el' := set_data_favorite (negb (data_favorite el)) el in
  ∃ s', Dom.toggleFavorite headers_in headers_in_item injected_favorite k s
        = Done tt s' ∧
        links s' !! k = Some el' ∧
        sidebar s' = place (section_of el') k (sidebar s).
Proof.
  intros Hwf Hplain Hk Hel el'.
  unfold Dom.toggleFavorite, getElement, updateElement.
  unfold mbind at 1. unfold M_bind at 1. rewrite Hel.
  assert (∀ v, wf (set_links (alter (set_data_favorite v) k) s) ∧
               no_header_markup headers_in (set_links (alter (set_data_favorite v) k) s) ∧
               links (set_links (alter (set_data_favorite v) k) s) !! k
               = Some (set_data_favorite v el)) as Hstep.
  { intros v. split; [|split].
    - apply wf_alter; [done|]. intros el0 Hel0. cbn. by eapply wf_status.
    - by apply no_header_markup_alter.
    - cbn. by rewrite lookup_alter_eq, Hel. }
  unfold el'. destruct (data_favorite el) eqn:Hfav; cbn [negb].
  - destruct (Hstep false) as (Hwf1 & Hplain1 & Hel1).
    unfold mbind, M_bind, modify.
    rewrite (dom_moveDeviceToCorrectSection_eq k _ _ Hwf1 Hplain1 Hel1).
    rewrite dom_updateSectionVisibility_eq.
    + eexists. split; [reflexivity|]. by split.
    + apply no_header_markup_place; [apply Hwf1 | done | done].
    + apply (wf_place _ k _ Hwf1). by eexists.
  - destruct (Hstep true) as (Hwf1 & Hplain1 & Hel1).
    unfold mbind, M_bind, modify.
    rewrite (dom_moveDeviceToFavorites_eq k _ Hwf1 Hplain1).
    rewrite dom_updateSectionVisibility_eq.
    + eexists. split; [reflexivity|]. by split.
    + apply no_header_markup_place; [apply Hwf1 | done | done].
    + apply (wf_place _ k _ Hwf1). by eexists.
Qed.

End MarkupFacts.

(** C4, as amended.  On a page where no name of a device in the sidebar
    creates an element with the classes of a section header, after a status
    toggle and after a favorite toggle of a device of the sidebar the
    device element stands directly behind the header of its section: the
    Favorites header for a favorite, and otherwise the Online header for the
    status ['online'] and the Offline header for ['offline'].  This holds
    whatever the scan list holds and whatever other elements the names
    create. *)
Theorem toggles_recategorize headers_in headers_in_item injected_favorite s k el :
  wf s → Link k ∈ sidebar s → links s !! k = Some el →
  no_header_markup headers_in s →
  ∀ toggle,
    toggle = Dom.toggleDeviceStatus headers_in headers_in_item injected_favorite ∨
    toggle = Dom.toggleFavorite headers_in headers_in_item injected_favorite →
  ∃ s' el',
    toggle k s = Done tt s' ∧ links s' !! k = Some el' ∧
    (data_favorite el' = true →
     nextSibling (Category Favorites) (sidebar s') = Some (Link k)) ∧
    (data_favorite el' = false → data_status el' = "online" →
     nextSibling (Category Online) (sidebar s') = Some (Link k)) ∧
    (data_favorite el' = false → data_status el' = "offline" →
     nextSibling (Category Offline) (sidebar s') = Some (Link k)).
Proof.
  intros Hwf Hk Hel Hplain toggle Htoggle.
  assert (∃ s' el', toggle k s = Done tt s' ∧ links s' !! k = Some el' ∧
            sidebar s' = place (section_of el') k (sidebar s))
    as (s' & el' & Hs' & Hel' & Hsb).
  { destruct Htoggle as [-> | ->].
    - destruct (dom_toggleDeviceStatus_spec headers_in headers_in_item
                  injected_favorite k s el Hwf Hplain Hk Hel) as (s' & ? & ? & ?).
      eauto.
    - destruct (dom_toggleFavorite_spec headers_in headers_in_item
                  injected_favorite k s el Hwf Hplain Hk Hel) as (s' & ? & ? & ?).
      eauto. }
  exists s', el'. split; [done|]. split; [done|].
  assert (nextSibling (Category (section_of el')) (sidebar s') = Some (Link k)) as Hnext.
  { rewrite Hsb. apply nextSibling_place, Hwf. }
  unfold section_of in Hnext. repeat split.
  - intros Hf. by rewrite Hf in Hnext.
  - intros Hf Hst. by rewrite Hf, Hst in Hnext.
  - intros Hf Hst. by rewrite Hf, Hst in Hnext.
Qed.

Lemma links_one_device k el :
  links one_device !! k = Some el →
  k = 0 ∧ el = new_element 0 "Phone A" "DEV_0000_0000" true icon_phone "" false.
Proof.
  intros Hel. destruct (decide (k = 0)) as [->|Hne].
  - split; [done|]. vm_compute in Hel. by injection Hel as <-.
  - exfalso. assert (links one_device !! k = None) as Hnone; [|congruence].
    apply not_elem_of_dom.
    assert (dom (links one_device) = {[0]}) as -> by (by vm_compute).
    set_solver.
Qed.

(** The phone of [one_device] is made a favorite. *)
Lemma toggles_recategorize_witness :
  ∃ s' el',
    Dom.toggleFavorite sample_headers_in (λ _, []) false 0 one_device
    = Done tt s' ∧
    links s' !! 0 = Some el' ∧
    (data_favorite el' = true →
     nextSibling (Category Favorites) (sidebar s') = Some (Link 0)) ∧
    (data_favorite el' = false → data_status el' = "online" →
     nextSibling (Category Online) (sidebar s') = Some (Link 0)) ∧
    (data_favorite el' = false → data_status el' = "offline" →
     nextSibling (Category Offline) (sidebar s') = Some (Link 0)).
Proof.
  apply (toggles_recategorize sample_headers_in (λ _, []) false one_device 0
           (new_element 0 "Phone A" "DEV_0000_0000" true icon_phone "" false)).
  - apply wf_one_device.
  - apply (bool_decide_unpack _). by vm_compute.
  - by vm_compute.
  - intros k el _ Hel. by apply links_one_device in Hel as [_ ->].
  - by right.
Defined.

(** C4 as stated fails.  The device of [markup_device] is online and
    its name is the markup of a [div] with the classes of the Offline
    header.  A click on the device makes it offline; the query for the
    Offline header then finds the [div] inside the device, which comes
    before the header in the document; [insertBefore] throws, and the
    device stays behind the Online header. *)
Lemma toggle_with_markup_name :
  reachable Js.ascii_toLowerCase Js.ascii_trim Js.ascii_trim markup_device ∧
  enabled (DeviceClick 0) markup_device ∧
  el_name <$> links markup_device !! 0 = Some offline_div ∧
  data_status <$> links markup_device !! 0 = Some "online" ∧
  ∃ s',
    Dom.toggleDeviceStatus sample_headers_in (λ _, []) false 0 markup_device
    = Threw NotFoundError s' ∧
    data_status <$> links s' !! 0 = Some "offline" ∧
    data_favorite <$> links s' !! 0 = Some false ∧
    nextSibling (Category Online) (sidebar s') = Some (Link 0) ∧
    nextSibling (Category Offline) (sidebar s') = Some (Other 2).
Proof.
  split.
  { apply reachable_run_all; [constructor|].
    cbn [enabled_all]. repeat split; try apply unit_draw_0; by vm_compute. }
  split; [cbn; apply (bool_decide_unpack _); by vm_compute|].
  split; [by vm_compute|]. split; [by vm_compute|].
  eexists. by vm_compute.
Qed.

Lemma addDeviceToSidebar_spec u name id isProtected deviceType deviceIP isManuallyAdded s :
  wf s →
  let el := new_element u name id isProtected deviceType deviceIP isManuallyAdded in
  ∃ s', addDeviceToSidebar u name id isProtected deviceType deviceIP isManuallyAdded s
        = Done tt s' ∧
        links s' = <[next_node s := el]> (links s) ∧
        sidebar s' = place (section_of el) (next_node s) (sidebar s) ∧
        requests s' = requests s ∧ devicePasswords s' = devicePasswords s.
Proof.
  intros Hwf el. eexists. split.
  { apply addDeviceToSidebar_eq; apply Hwf. }
  done.
Qed.

(** C1, as amended.  The status of a device is drawn at random when the
    device is created: [addDeviceToSidebar] gives the new element the status
    [statuses[Math.floor(Math.random() * 2)]], and each of ['online'] and
    ['offline'] comes out for some draw.  A status toggle draws nothing: the
    new status is the other one of the two, whatever else happens.  Neither
    step issues a request, so no connectivity is checked. *)
Theorem status_assignment s :
  wf s →
  (∀ u name id isProtected deviceType deviceIP isManuallyAdded,
     unit_draw u →
     ∃ s' el,
       addDeviceToSidebar u name id isProtected deviceType deviceIP
         isManuallyAdded s = Done tt s' ∧
       links s' !! next_node s = Some el ∧
       data_status el = random_status u ∧ random_status u ∈ statuses ∧
       requests s' = requests s) ∧
  (∀ target, target ∈ statuses → ∃ u, unit_draw u ∧ random_status u = target) ∧
  (∀ k el,
     links s !! k = Some el →
     ∃ s' el',
       toggleDeviceStatus k s = Done tt s' ∧ links s' !! k = Some el' ∧
       data_status el' =
         (if decide (data_status el = "online") then "offline" else "online") ∧
       requests s' = requests s).
Proof.
  intros Hwf. split; [|split].
  - intros u name id isProtected deviceType deviceIP isManuallyAdded Hu.
    destruct (addDeviceToSidebar_spec u name id isProtected deviceType deviceIP
                isManuallyAdded s Hwf) as (s' & Hs' & Hl & _ & Hr & _).
    exists s'. eexists. split; [done|]. rewrite Hl, lookup_insert_eq.
    split; [done|]. split; [done|]. split; [by apply random_status_in | done].
  - intros target Ht. unfold statuses in Ht.
    apply elem_of_cons in Ht as [-> | Ht]; [exists 0%Q; split; [apply unit_draw_0 | by vm_compute]|].
    apply elem_of_cons in Ht as [-> | Ht]; [exists (1 # 2)%Q; split; [apply unit_draw_half | by vm_compute]|].
    by apply elem_of_nil in Ht.
  - intros k el Hel.
    destruct (toggleDeviceStatus_spec k s el Hwf Hel) as (s' & Hs' & _ & Hel' & _ & Hr & _).
    exists s'. eexists. split; [done|]. split; [done|]. done.
Qed.

(** Toggling the online phone of [one_device] gives ['offline']. *)
Lemma status_assignment_witness :
  ∃ s' el',
    toggleDeviceStatus 0 one_device = Done tt s' ∧ links s' !! 0 = Some el' ∧
    data_status el' = "offline" ∧ requests s' = requests one_device.
Proof.
  destruct (status_assignment one_device wf_one_device) as (_ & _ & H).
  apply (H 0 (new_element 0 "Phone A" "DEV_0000_0000" true icon_phone "" false)).
  by vm_compute.
Defined.

(** C1 as stated fails for the toggle: the phone of [one_device] is online,
    and toggling its status always leaves it offline; the status ['online']
    of [statuses] never comes out. *)
Lemma toggle_is_not_random :
  (data_status <$> links one_device !! 0 = Some "online") ∧
  ¬ (∀ target, target ∈ statuses →
       ∃ s', toggleDeviceStatus 0 one_device = Done tt s' ∧
             data_status <$> links s' !! 0 = Some target).
Proof.
  split; [by vm_compute|]. intros H.
  destruct (H "online") as (s' & Hs' & Hst); [unfold statuses; set_solver|].
  destruct (toggleDeviceStatus_spec 0 one_device
              (new_element 0 "Phone A" "DEV_0000_0000" true icon_phone "" false)
              wf_one_device) as (s'' & Hs'' & _ & Hel & _); [by vm_compute|].
  rewrite Hs'' in Hs'. injection Hs' as <-. rewrite Hel in Hst. discriminate Hst.
Qed.

(** ** The add dialog *)

Lemma nonempty_false s : nonempty s = false ↔ s = "".
Proof.
  unfold nonempty. destruct (String.eqb_spec s ""); cbn; split; congruence.
Qed.

(** C3.  When the add form fails validation (the trimmed name is empty, or
    protection is ticked with an empty password, or the manual option is
    selected with an empty trimmed IP), the confirm handler shows one
    alert and returns: the page is the one before with the alert logged,
    so no device is added, no password stored, and the dialog stays
    open. *)
Theorem confirmAddDevice_validation trim u s :
  trim (deviceName (addForm s)) = "" ∨
  (passwordProtect (addForm s) = true ∧ devicePassword (addForm s) = "") ∨
  (selectedOption (addForm s) = Some "manual" ∧ trim (deviceIP (addForm s)) = "") →
  ∃ msg s',
    confirmAddDevice_click trim u s = Done tt s' ∧
    s' = set_alerts (cons msg) s ∧
    msg ∈ ["Enter device name!"; "Enter password for protected device!";
           "Enter device IP!"] ∧
    sidebar s' = sidebar s ∧ links s' = links s ∧
    devicePasswords s' = devicePasswords s ∧
    addDeviceModal s' = addDeviceModal s.
Proof.
  intros Hfail.
  assert (∃ msg, confirmAddDevice_click trim u s = Done tt (set_alerts (cons msg) s) ∧
            msg ∈ ["Enter device name!"; "Enter password for protected device!";
                   "Enter device IP!"]) as (msg & Hrun & Hmsg).
  { unfold confirmAddDevice_click. msimpl.
    destruct (nonempty (trim (deviceName (addForm s)))) eqn:Hname; cbn.
    2:{ eexists. split; [done|]. set_solver. }
    destruct (passwordProtect (addForm s) && negb (nonempty (devicePassword (addForm s))))
      eqn:Hpw; cbn.
    { eexists. split; [done|]. set_solver. }
    destruct (bool_decide (selectedOption (addForm s) = Some "manual") &&
              negb (nonempty (trim (deviceIP (addForm s))))) eqn:Hip; cbn.
    { eexists. split; [done|]. set_solver. }
    exfalso. destruct Hfail as [Hn | [[Hp Hd] | [Hm Hi]]].
    - apply nonempty_false in Hn. congruence.
    - apply nonempty_false in Hd. rewrite Hp, Hd in Hpw. done.
    - apply nonempty_false in Hi. rewrite Hi, bool_decide_eq_true_2 in Hip by done. done. }
  exists msg. eexists. split; [exact Hrun|]. done.
Qed.

(** Confirming the freshly opened, empty add form. *)
Lemma confirmAddDevice_validation_witness :
  ∃ msg s',
    confirmAddDevice_click Js.ascii_trim 0 empty_form = Done tt s' ∧
    s' = set_alerts (cons msg) empty_form ∧
    msg ∈ ["Enter device name!"; "Enter password for protected device!";
           "Enter device IP!"] ∧
    sidebar s' = sidebar empty_form ∧ links s' = links empty_form ∧
    devicePasswords s' = devicePasswords empty_form ∧
    addDeviceModal s' = addDeviceModal empty_form.
Proof.
  apply (confirmAddDevice_validation Js.ascii_trim 0 empty_form).
  left. by vm_compute.
Defined.



(** ** Password verification *)

(** Checks that each event of a given run can occur, by evaluation. *)
Ltac check_enabled :=
  repeat match goal with
    | |- _ ∧ _ => split
    | |- True => exact I
    | |- unit_draw _ => split; by vm_compute
    | |- _ ∈ _ => apply (bool_decide_unpack _); by vm_compute
    | |- _ = _ => by vm_compute
    | |- enabled _ _ => cbn [enabled shown input_modal]
    | |- enabled_all _ _ _ _ _ => cbn [enabled_all]
    end.




(** ** The password map and the protected devices *)

Lemma elem_of_protected_ids s id : id ∈ protected_ids s ↔ protected_in s id.
Proof.
  unfold protected_ids, protected_in.
  rewrite elem_of_list_to_set, list_elem_of_omap. split.
  - intros (n & Hn & Hid). destruct n as [| |k]; try done. cbn in Hid.
    destruct (links s !! k) as [el|] eqn:Hel; [|done].
    destruct (data_protected el) eqn:Hp; [|done].
    injection Hid as <-. by exists k, el.
  - intros (k & el & Hin & Hel & <- & Hp). exists (Link k). split; [done|].
    cbn. by rewrite Hel, Hp.
Qed.

(** The invariant, as an equation between two finite sets. *)
Lemma pw_inv_set s : pw_inv s ↔ dom (devicePasswords s) = protected_ids s.
Proof.
  unfold pw_inv. split.
  - intros H. apply set_eq. intros id.
    by rewrite elem_of_dom, elem_of_protected_ids.
  - intros H id. by rewrite <- elem_of_dom, H, elem_of_protected_ids.
Qed.

Lemma reachable_two_devices :
  reachable Js.ascii_toLowerCase Js.ascii_trim Js.ascii_trim two_devices.
Proof.
  apply reachable_run_all; [constructor|].
  unfold add_phone, add_sensor. cbn [app]. check_enabled.
Qed.

(** C8.  The comment of [generateUniqueId] promises unique ids; the
    function draws two numbers and does not look at the ids in use.  In
    [two_devices] the draws came out the same twice: the protected phone
    and the unprotected sensor carry the same id.  The password map has the
    one entry it should have.  The confirmed deletion of the sensor
    removes that entry, and the phone stays in the sidebar, protected,
    with no entry in the map. *)
Lemma delete_breaks_password_map :
  reachable Js.ascii_toLowerCase Js.ascii_trim Js.ascii_trim two_devices ∧
  data_device_id <$> links two_devices !! 0 = Some "DEV_0000_0000" ∧
  data_device_id <$> links two_devices !! 1 = Some "DEV_0000_0000" ∧
  pw_inv two_devices ∧
  enabled (DeleteButtonClick 1 true) two_devices ∧
  let s' := run Js.ascii_toLowerCase Js.ascii_trim Js.ascii_trim
              (DeleteButtonClick 1 true) two_devices in
  Link 0 ∈ sidebar s' ∧
  data_protected <$> links s' !! 0 = Some true ∧
  devicePasswords s' !! "DEV_0000_0000" = None ∧
  ¬ pw_inv s'.
Proof.
  split; [apply reachable_two_devices|].
  split; [by vm_compute|]. split; [by vm_compute|].
  split; [apply pw_inv_set; by vm_compute|].
  split; [cbn; apply (bool_decide_unpack _); by vm_compute|].
  cbv zeta.
  split; [apply (bool_decide_unpack _); by vm_compute|].
  split; [by vm_compute|]. split; [by vm_compute|].
  intros H. destruct (proj2 (H "DEV_0000_0000")) as [pw Hpw].
  - exists 0, (new_element 0 "Phone A" "DEV_0000_0000" true icon_phone "" false).
    split; [apply (bool_decide_unpack _); by vm_compute|].
    split; [by vm_compute|]. done.
  - vm_compute in Hpw. discriminate Hpw.
Qed.

(** ** What the scans render *)


Lemma run_bind_throw {A B} (m : M A) (k : A → M B) s e s' :
  m s = Threw e s' → (m ≫= k) s = Threw e s'.
Proof. intros H. unfold mbind, M_bind. by rewrite H. Qed.

Section Scans.
Variable toLowerCase : string → string.






Lemma scanForDevices_eq method s :
  scanForDevices method s
  = Done tt (set_pending (cons (next_node s))
               (set_requests (cons {| req_method := "GET"; req_url := scan_url method |})
                  (set_deviceListDisplay (λ _, true)
                     (set_container (λ _, [LoadingIndicator (next_node s)])
                        (set_next_node S s))))).
Proof. reflexivity. Qed.











End Scans.





(** * Further properties of the script *)

(** ** Pages without markup *)

Section PlainReachable.
Variables toLowerCase trim cleanName : string → string.




End PlainReachable.






(** ** Generated ids and addresses *)

Lemma padded_number_check :
  forallb (λ a : Z,
    (String.length (padStart4 (pretty a)) =? 4)%nat &&
    bool_decide (digits_value 0 (padStart4 (pretty a)) = Some a))
    (seqZ 0 10000) = true.
Proof. by vm_compute. Qed.

Lemma padded_number a :
  (0 ≤ a < 10000)%Z →
  String.length (padStart4 (pretty a)) = 4 ∧
  digits_value 0 (padStart4 (pretty a)) = Some a.
Proof.
  intros Ha. pose proof padded_number_check as H.
  rewrite forallb_forall in H. specialize (H a).
  rewrite <- list_elem_of_In, elem_of_seqZ in H.
  assert (0 ≤ a < 0 + 10000)%Z as Hr by lia. apply H in Hr.
  apply andb_true_iff in Hr as [H1 H2].
  split; [by apply Nat.eqb_eq | by apply bool_decide_eq_true in H2].
Qed.

Lemma length_four (x : string) :
  String.length x = 4 →
  ∃ c1 c2 c3 c4, x = String c1 (String c2 (String c3 (String c4 ""))).
Proof.
  destruct x as [|c1 [|c2 [|c3 [|c4 [|c5 x]]]]]; try done. eauto.
Qed.

Lemma parse_id_format x y a b :
  String.length x = 4 → String.length y = 4 →
  digits_value 0 x = Some a → digits_value 0 y = Some b →
  String.length ("DEV_" +:+ x +:+ "_" +:+ y) = 13 ∧
  parse_id ("DEV_" +:+ x +:+ "_" +:+ y) = Some (a, b).
Proof.
  intros (c1 & c2 & c3 & c4 & ->)%length_four (d1 & d2 & d3 & d4 & ->)%length_four Ha Hb.
  split; [done|]. unfold parse_id.
  change (String.substring 4 4 _) with (String c1 (String c2 (String c3 (String c4 "")))).
  change (String.substring 9 4 _) with (String d1 (String d2 (String d3 (String d4 "")))).
  rewrite Ha, Hb. reflexivity.
Qed.

Lemma format_id_parse a b :
  (0 ≤ a < 10000)%Z → (0 ≤ b < 10000)%Z →
  String.length (format_id a b) = 13 ∧ parse_id (format_id a b) = Some (a, b).
Proof.
  intros Ha Hb. unfold format_id.
  destruct (padded_number a Ha) as [? ?]. destruct (padded_number b Hb) as [? ?].
  by apply parse_id_format.
Qed.

Lemma generateUniqueId_formed u1 u2 :
  unit_draw u1 → unit_draw u2 → id_formed (generateUniqueId u1 u2).
Proof.
  intros Hu1 Hu2. exists (random_index u1 10000), (random_index u2 10000).
  split; [by apply random_index_range|]. split; [by apply random_index_range|].
  reflexivity.
Qed.

(** *** Doubles *)

Lemma pow2_pos k : (0 ≤ k)%Z → (0 < inject_Z (2 ^ k))%Q.
Proof.
  intros Hk. change 0%Q with (inject_Z 0). rewrite <- Zlt_Qlt.
  by apply Z.pow_pos_nonneg.
Qed.

Lemma double_make m k q :
  (Z.abs m < 2 ^ 53)%Z → (0 ≤ k ≤ 1074)%Z →
  (q * inject_Z (2 ^ k) == inject_Z m)%Q → double q.
Proof. intros Hm Hk Hq. by exists m, k. Qed.

Lemma double_zero : double 0.
Proof. apply (double_make 0 0); [done | lia | reflexivity]. Qed.

(** A double below 1 is at most [1 - 2^-53]. *)
Lemma double_below_one u :
  double u → (u < 1)%Q → (u <= 1 - (1 # 2 ^ 53))%Q.
Proof.
  intros (m & k & Hm & Hk & Hum) Hlt.
  pose proof (pow2_pos k ltac:(lia)) as Hpos.
  assert (m < 2 ^ k)%Z as Hmk.
  { rewrite Zlt_Qlt, <- Hum.
    apply Qlt_le_trans with (1 * inject_Z (2 ^ k))%Q.
    - by apply Qmult_lt_compat_r.
    - rewrite Qmult_1_l. apply Qle_refl. }
  assert (m * 2 ^ 53 ≤ (2 ^ 53 - 1) * 2 ^ k)%Z as Hz.
  { destruct (decide (k ≤ 53)%Z) as [Hle|Hgt].
    - assert (2 ^ k ≤ 2 ^ 53)%Z by (apply Z.pow_le_mono_r; lia). nia.
    - assert (2 ^ 54 ≤ 2 ^ k)%Z by (apply Z.pow_le_mono_r; lia).
      assert (m < 2 ^ 53)%Z by lia. nia. }
  rewrite Zle_Qle, !inject_Z_mult, <- Hum in Hz.
  revert Hz Hpos. generalize (inject_Z (2 ^ k)). intros P Hz Hpos.
  assert (u * inject_Z (2 ^ 53) <= inject_Z (2 ^ 53 - 1))%Q as Hz'.
  { apply (Qmult_le_r _ _ P); [done|].
    eapply Qle_trans; [|exact Hz]. apply Qle_lteq. right. ring. }
  clear Hz.
  change (inject_Z (2 ^ 53)) with (9007199254740992 # 1)%Q in *.
  change (inject_Z (2 ^ 53 - 1)) with (9007199254740991 # 1)%Q in *.
  change (1 # 2 ^ 53)%Q with (1 # 9007199254740992)%Q.
  lra.
Qed.

(** The product of a draw with [n] rounds to a double below [n], when a
    double [d0] lies below [n] by less than [n * 2^-52]. *)
Lemma floor_in_range n d0 u r :
  (0 < n)%Z → double d0 → (d0 < inject_Z n)%Q →
  (inject_Z n - d0 < inject_Z n * (1 # 2 ^ 52))%Q →
  double u → (0 <= u)%Q → (u < 1)%Q →
  rounds_to (u * inject_Z n) r →
  (0 ≤ Qfloor r < n)%Z.
Proof.
  intros Hn Hd0 Hlt Hgap Hu Hu0 Hu1 [Hr Hnear].
  apply double_below_one in Hu1; [|done].
  assert (0 < inject_Z n)%Q as Hn' by (by rewrite Zlt_Qlt in Hn).
  set (x := (u * inject_Z n)%Q) in *.
  assert (0 <= x)%Q as Hx0 by (by apply Qmult_le_0_compat; [|apply Qlt_le_weak]).
  assert (x <= inject_Z n - inject_Z n * (1 # 2 ^ 53))%Q as Hx1.
  { unfold x. 
    apply Qle_trans with ((1 - (1 # 2 ^ 53)) * inject_Z n)%Q.
    - apply Qmult_le_compat_r; [done | by apply Qlt_le_weak].
    - apply Qle_lteq. right. ring. }
  clearbody x. remember (inject_Z n) as N eqn:HN.
  change (1 # 2 ^ 53)%Q with (1 # 9007199254740992)%Q in *.
  change (1 # 2 ^ 52)%Q with (1 # 4503599627370496)%Q in *.
  assert (0 <= r)%Q as Hr0.
  { destruct (Qlt_le_dec r 0) as [Hneg|]; [|done]. exfalso.
    pose proof (Hnear 0%Q double_zero) as H.
    rewrite (Qabs_neg (r - x)) in H by lra.
    rewrite (Qabs_neg (0 - x)) in H by lra. lra. }
  assert (r < N)%Q as Hr1.
  { destruct (Qlt_le_dec r N) as [|Hge]; [done|]. exfalso.
    pose proof (Hnear d0 Hd0) as H.
    rewrite (Qabs_pos (r - x)) in H by lra.
    destruct (Qlt_le_dec d0 x).
    - rewrite (Qabs_neg (d0 - x)) in H by lra. lra.
    - rewrite (Qabs_pos (d0 - x)) in H by lra. lra. }
  split.
  - change 0%Z with (Qfloor 0). by apply Qfloor_resp_le.
  - rewrite Zlt_Qlt, <- HN. eapply Qle_lt_trans; [apply Qfloor_le | done].
Qed.

Lemma floor_two u r :
  double u → (0 <= u)%Q → (u < 1)%Q → rounds_to (u * inject_Z 2) r →
  (0 ≤ Qfloor r < 2)%Z.
Proof.
  apply (floor_in_range 2 (2 - (1 # 2 ^ 52))); [done | | done | done].
  apply (double_make (2 ^ 53 - 1) 52); [done | lia | reflexivity].
Qed.

Lemma floor_octet u r :
  double u → (0 <= u)%Q → (u < 1)%Q → rounds_to (u * inject_Z 255) r →
  (0 ≤ Qfloor r < 255)%Z.
Proof.
  apply (floor_in_range 255 (255 - (1 # 2 ^ 45))); [done | | done | done].
  apply (double_make (255 * 2 ^ 45 - 1) 45); [done | lia | reflexivity].
Qed.

Lemma floor_id_number u r :
  double u → (0 <= u)%Q → (u < 1)%Q → rounds_to (u * inject_Z 10000) r →
  (0 ≤ Qfloor r < 10000)%Z.
Proof.
  apply (floor_in_range 10000 (10000 - (1 # 2 ^ 39))); [done | | done | done].
  apply (double_make (10000 * 2 ^ 39 - 1) 39); [done | lia | reflexivity].
Qed.

(** Every number below [n] is the floor of an exact product: of [n] and
    the least multiple of [2^-20] that reaches it. *)
Lemma floor_reached n i :
  (0 < n ≤ 2 ^ 20)%Z → (0 ≤ i < n)%Z → script_floor n i.
Proof.
  intros Hn Hi. set (j := ((i * 2 ^ 20 + n - 1) / n)%Z).
  assert (i * 2 ^ 20 ≤ j * n < i * 2 ^ 20 + n)%Z as Hj.
  { unfold j. pose proof (Z.div_mod (i * 2 ^ 20 + n - 1) n ltac:(lia)) as E.
    pose proof (Z.mod_pos_bound (i * 2 ^ 20 + n - 1) n ltac:(lia)). lia. }
  assert (0 ≤ j < 2 ^ 20)%Z as Hj1 by nia.
  exists (j # 2 ^ 20)%Q, ((j # 2 ^ 20) * inject_Z n)%Q.
  split; [|split; [|split; [|split]]].
  - apply (double_make j 20); [lia | lia |].
    unfold Qeq. cbn. lia.
  - unfold Qle. cbn. lia.
  - unfold Qlt. cbn. lia.
  - split.
    + apply (double_make (j * n) 20); [nia | lia |].
      unfold Qeq. cbn. lia.
    + intros d _. 
      setoid_replace ((j # 2 ^ 20) * inject_Z n - (j # 2 ^ 20) * inject_Z n)%Q
        with 0%Q using relation Qeq by ring.
      apply Qabs_nonneg.
  - unfold Qfloor. cbn. apply Z.div_unique with (j * n - i * 2 ^ 20)%Z; lia.
Qed.

Lemma script_floor_range n i :
  n ∈ script_ranges → script_floor n i → (0 ≤ i < n)%Z.
Proof.
  intros Hn (u & r & Hu & Hu0 & Hu1 & Hr & ->).
  unfold script_ranges in Hn.
  apply elem_of_cons in Hn as [->|Hn]; [by apply (floor_two u)|].
  apply elem_of_cons in Hn as [->|Hn]; [by apply (floor_octet u)|].
  apply list_elem_of_singleton in Hn as ->. by apply (floor_id_number u).
Qed.

Lemma script_ranges_small n : n ∈ script_ranges → (0 < n ≤ 2 ^ 20)%Z.
Proof.
  unfold script_ranges. intros Hn.
  apply elem_of_cons in Hn as [->|Hn]; [lia|].
  apply elem_of_cons in Hn as [->|Hn]; [lia|].
  apply list_elem_of_singleton in Hn as ->. lia.
Qed.

(** Every number below [n] is the exact floor for the draw [i / n]. *)
Lemma random_index_reached n i :
  (0 < n)%Z → (0 ≤ i < n)%Z → ∃ u, unit_draw u ∧ random_index u n = i.
Proof.
  intros Hn Hi. exists (i # Z.to_pos n)%Q. split; [split|].
  - unfold Qle. cbn. lia.
  - unfold Qlt. cbn. lia.
  - unfold random_index, Qfloor. cbn. rewrite Pos.mul_1_r, Z2Pos.id by done.
    by apply Z.div_mul, Z.neq_sym, Z.lt_neq.
Qed.

(** X1.  The numbers [generateUniqueId] floors are numbers that
    [Math.floor(Math.random() * 10000)] can be in double arithmetic.  For
    two such numbers the id has the thirteen characters [DEV_dddd_dddd],
    and the two numbers can be read back from it.  So two ids are equal
    exactly when both numbers are: there are 10000 * 10000 ids, and a later
    id can repeat an earlier one. *)
Theorem generateUniqueId_decodes a b :
  script_floor 10000 a → script_floor 10000 b →
  String.length (format_id a b) = 13 ∧
  parse_id (format_id a b) = Some (a, b) ∧
  ∀ a' b', script_floor 10000 a' → script_floor 10000 b' →
    (format_id a b = format_id a' b' ↔ a = a' ∧ b = b').
Proof.
  assert (10000%Z ∈ script_ranges) as Hn by (unfold script_ranges; set_solver).
  intros Ha%(script_floor_range _ _ Hn) Hb%(script_floor_range _ _ Hn).
  destruct (format_id_parse a b Ha Hb) as [Hlen Hid]. split; [done|]. split; [done|].
  intros a' b' Ha'%(script_floor_range _ _ Hn) Hb'%(script_floor_range _ _ Hn).
  destruct (format_id_parse a' b' Ha' Hb') as [_ Hid']. split.
  - intros E. rewrite E, Hid' in Hid. by injection Hid as -> ->.
  - by intros [-> ->].
Qed.

(** The id for the numbers 121 and 7. *)
Lemma generateUniqueId_decodes_witness :
  String.length (format_id 121 7) = 13 ∧
  parse_id (format_id 121 7) = Some (121, 7)%Z.
Proof.
  destruct (generateUniqueId_decodes 121 7) as (H1 & H2 & _).
  - apply floor_reached; lia.
  - apply floor_reached; lia.
  - split; [exact H1 | exact H2].
Defined.

(** X2.  What [Math.floor(Math.random() * n)] can be in double
    arithmetic, for the three [n] of the script: exactly the numbers from 0
    to [n - 1].  So the index into [statuses] is 0 or 1, the numbers of an
    id lie in 0..9999, and an octet drawn by [generateRandomIP] lies in
    0..254.  The exact product of the embedding, on rational draws, takes
    the same values; and the address that [generateRandomIP] makes is
    [192.168.a.b] for two octets [a] and [b] of this kind. *)
Theorem random_numbers_in_range n i :
  n ∈ script_ranges →
  (script_floor n i ↔ (0 ≤ i < n)%Z) ∧
  ((∃ u, unit_draw u ∧ random_index u n = i) ↔ (0 ≤ i < n)%Z) ∧
  (∀ u1 u2, unit_draw u1 → unit_draw u2 →
     ∃ a b, script_floor 255 a ∧ script_floor 255 b ∧
            (0 ≤ a ≤ 254)%Z ∧ (0 ≤ b ≤ 254)%Z ∧
            generateRandomIP u1 u2
            = "192.168." +:+ pretty a +:+ "." +:+ pretty b).
Proof.
  intros Hn. pose proof (script_ranges_small n Hn) as Hsmall.
  split; [split|split; [split|]].
  - by apply script_floor_range.
  - by apply floor_reached.
  - intros (u & Hu & <-). apply random_index_range; [done | lia].
  - apply random_index_reached. lia.
  - intros u1 u2 Hu1 Hu2.
    pose proof (random_index_range u1 255 Hu1 ltac:(lia)).
    pose proof (random_index_range u2 255 Hu2 ltac:(lia)).
    exists (random_index u1 255), (random_index u2 255).
    split; [apply floor_reached; lia|]. split; [apply floor_reached; lia|].
    split; [lia|]. split; [lia|]. reflexivity.
Qed.

Lemma random_numbers_in_range_witness :
  script_floor 255 254 ∧ ¬ script_floor 255 255 ∧
  (∃ u, unit_draw u ∧ random_index u 255 = 254%Z) ∧
  ∃ a b, script_floor 255 a ∧ script_floor 255 b ∧
         (0 ≤ a ≤ 254)%Z ∧ (0 ≤ b ≤ 254)%Z ∧
         generateRandomIP (1 # 3) (9999 # 10000)
         = "192.168." +:+ pretty a +:+ "." +:+ pretty b.
Proof.
  destruct (random_numbers_in_range 255 254) as (H1 & H2 & H4);
    [unfold script_ranges; set_solver|].
  destruct (random_numbers_in_range 255 255) as (H3 & _ & _);
    [unfold script_ranges; set_solver|].
  split; [apply H1; lia|]. split; [|split; [apply H2; lia|]].
  - intros H. apply H3 in H. lia.
  - apply H4; split; by vm_compute.
Defined.

(** ** The sidebar toggle *)

(** X3.  On a desktop window, whatever is clicked and whenever the
    time-outs run: the main content is expanded exactly while the sidebar
    is collapsed, the class [expanded] of the sidebar is never set, a
    collapsed sidebar has its external button displayed or a time-out
    pending that will display it, and the step made after a device is added
    leaves the sidebar open. *)
Theorem desktop_sidebar_invariant c :
  chrome_reachable false c →
  mainContent_expanded c = sidebar_collapsed c ∧
  sidebar_expanded c = false ∧
  (sidebar_collapsed c = true → external_display c = "flex" ∨ 0 < timeouts c) ∧
  sidebar_collapsed (open_if_collapsed false c) = false.
Proof.
  intros Hc.
  assert (mainContent_expanded c = sidebar_collapsed c ∧
          sidebar_expanded c = false ∧
          (sidebar_collapsed c = true →
           external_display c = "flex" ∨ 0 < timeouts c)) as (H1 & H2 & H3).
  { induction Hc as [|c e _ (IH1 & IH2 & IH3) Hen]; [cbn; auto|].
    destruct e; cbn [chrome_run chrome_enabled] in *.
    - unfold toggleSidebar; cbn. rewrite IH1.
      destruct (sidebar_collapsed c); cbn; split_and!; auto with lia.
    - unfold open_if_collapsed, toggleSidebar.
      destruct (sidebar_collapsed c) eqn:E; cbn; rewrite ?IH1, ?E; cbn;
        split_and!; auto; done.
    - unfold timeout_fired; cbn. split_and!; auto. }
  split_and!; try done.
  unfold open_if_collapsed, toggleSidebar.
  by destruct (sidebar_collapsed c) eqn:E; cbn; rewrite ?E.
Qed.

Lemma desktop_sidebar_invariant_witness :
  sidebar_collapsed (toggleSidebar false (toggleSidebar false chrome_init)) = true ∧
  0 < timeouts (toggleSidebar false (toggleSidebar false chrome_init)).
Proof.
  destruct (desktop_sidebar_invariant
              (toggleSidebar false (toggleSidebar false chrome_init)))
    as (_ & _ & H & _).
  - apply (chrome_reachable_step false _ ToggleButtonClick); [|exact I].
    apply (chrome_reachable_step false _ ToggleButtonClick); [|exact I].
    constructor.
  - split; [reflexivity|].
    destruct (H eq_refl) as [Hd | Ht]; [discriminate Hd | exact Ht].
Defined.

(** X4.  On a mobile window the class [collapsed] set by the
    [DOMContentLoaded] listener is never removed, and no time-out is ever
    set.  So [if (sidebar.classList.contains('collapsed')) toggleSidebar()]
    toggles every time: the step made after a device is added opens a closed
    sidebar and closes an open one, and two such steps cancel. *)
Theorem mobile_sidebar_toggles c :
  chrome_reachable true c →
  sidebar_collapsed c = true ∧ mainContent_expanded c = true ∧
  external_display c = "flex" ∧ timeouts c = 0 ∧
  sidebar_expanded (open_if_collapsed true c) = negb (sidebar_expanded c) ∧
  open_if_collapsed true (open_if_collapsed true c) = c.
Proof.
  intros Hc.
  assert (sidebar_collapsed c = true ∧ mainContent_expanded c = true ∧
          external_display c = "flex" ∧ timeouts c = 0) as (H1 & H2 & H3 & H4).
  { induction Hc as [|c e _ (IH1 & IH2 & IH3 & IH4) Hen]; [by repeat split|].
    destruct e; cbn [chrome_run chrome_enabled] in *.
    - by unfold toggleSidebar; cbn.
    - unfold open_if_collapsed. rewrite IH1. by unfold toggleSidebar; cbn.
    - lia. }
  split_and!; try done.
  - unfold open_if_collapsed. by rewrite H1.
  - unfold open_if_collapsed. rewrite H1. cbn. rewrite H1.
    destruct c as [sc se me ed t]; unfold toggleSidebar; cbn in *.
    subst. by rewrite negb_involutive.
Qed.

Lemma mobile_sidebar_toggles_witness :
  sidebar_expanded (open_if_collapsed true (toggleSidebar true chrome_init)) = false.
Proof.
  destruct (mobile_sidebar_toggles (toggleSidebar true chrome_init))
    as (_ & _ & _ & _ & H & _).
  - apply (chrome_reachable_step true _ ToggleButtonClick); [|exact I]. constructor.
  - exact H.
Defined.

(** X5.  The time-out of a collapse is not cancelled by the expansion that
    follows it.  From any desktop page with the sidebar open: collapsing,
    expanding again, and then the time-out of the collapse, end with the
    sidebar open and the external button displayed. *)
Theorem desktop_timeout_after_reopen c :
  chrome_reachable false c → sidebar_collapsed c = false →
  let c1 := chrome_run false ToggleButtonClick c in
  let c2 := chrome_run false ToggleButtonClick c1 in
  let c3 := chrome_run false TimeoutFired c2 in
  chrome_enabled TimeoutFired c2 ∧ chrome_reachable false c3 ∧
  sidebar_collapsed c3 = false ∧ external_display c3 = "flex".
Proof.
  intros Hc Hopen c1 c2 c3.
  assert (chrome_enabled TimeoutFired c2) as Hen.
  { unfold c2, c1, chrome_enabled, chrome_run, toggleSidebar. cbn.
    rewrite Hopen. cbn. lia. }
  split; [done|]. split.
  - apply chrome_reachable_step; [|done].
    apply chrome_reachable_step; [|done].
    by apply chrome_reachable_step.
  - unfold c3, c2, c1, chrome_run, timeout_fired, toggleSidebar. cbn.
    by rewrite Hopen.
Qed.

Lemma desktop_timeout_after_reopen_witness :
  ∃ c, chrome_reachable false c ∧ sidebar_collapsed c = false ∧
       external_display c = "flex".
Proof.
  destruct (desktop_timeout_after_reopen (toggleSidebar false chrome_init))
    as (_ & H1 & H2 & H3).
  - apply (chrome_reachable_step false _ ToggleButtonClick); [|exact I]. constructor.
  - reflexivity.
  - eexists. split; [exact H1|]. split; [exact H2 | exact H3].
Defined.

Arguments applyFilters : simpl never.

(** ** Filters *)

(** What the loop of [applyFilters] does to one element. *)
Lemma foldl_alter_lookup (g : element → element) ks (m : gmap nat element) k :
  (∀ el, g (g el) = g el) →
  foldl (λ m k, alter g k m) m ks !! k
  = if decide (k ∈ ks) then g <$> m !! k else m !! k.
Proof.
  intros Hg. revert m. induction ks as [|k0 ks IH]; intros m; cbn; [done|].
  rewrite IH.
  destruct (decide (k ∈ k0 :: ks)) as [Hin|Hout], (decide (k ∈ ks)) as [Hks|Hks],
    (decide (k = k0)) as [->|Hne];
    rewrite ?lookup_alter_eq, ?lookup_alter_ne by done;
    try done; try (exfalso; set_solver).
  destruct (m !! k0); cbn; by rewrite ?Hg.
Qed.

Lemma elem_of_sidebar_links k l : k ∈ sidebar_links l ↔ Link k ∈ l.
Proof.
  unfold sidebar_links. rewrite list_elem_of_omap. split.
  - intros (n & Hn & Hk). destruct n; naive_solver.
  - intros Hk. by exists (Link k).
Qed.

Lemma existsb_ext_in {A} (P Q : A → bool) (l : list A) :
  (∀ x, x ∈ l → P x = Q x) → existsb P l = existsb Q l.
Proof.
  induction l as [|x l IH]; intros H; cbn; [done|].
  rewrite H by left. rewrite IH; [done|]. intros y Hy. apply H. by right.
Qed.

Lemma shouldBeFiltered_set_filtered f v el :
  shouldBeFiltered f (set_filtered v el) = shouldBeFiltered f el.
Proof. done. Qed.

Lemma shows_alter f v m k0 k :
  shows f (alter (set_filtered v) k0 m) k = shows f m k.
Proof.
  unfold shows. destruct (decide (k = k0)) as [->|Hne].
  - rewrite lookup_alter_eq. by destruct (m !! k0).
  - by rewrite lookup_alter_ne.
Qed.

Lemma applyFilters_loop_eq f devices hasFavorites s :
  (∀ k, k ∈ devices → is_Some (links s !! k)) →
  applyFilters_loop f devices hasFavorites s
  = Done (hasFavorites || existsb (shows f (links s)) devices)
      (set_links (λ m, foldl (λ m k,
         alter (λ el, set_filtered (shouldBeFiltered f el) el) k m) m devices) s).
Proof.
  revert hasFavorites s.
  induction devices as [|k ks IH]; intros hf s Hks.
  - cbn. unfold mret, M_ret. rewrite orb_false_r. by destruct s.
  - destruct (Hks k ltac:(left)) as [el Hel].
    cbn [applyFilters_loop]. unfold getElement, updateElement.
    unfold mbind, M_bind, modify. rewrite Hel. cbv zeta.
    assert (∀ v, alter (set_filtered v) k (links s)
                 = alter (λ el, set_filtered (shouldBeFiltered f el) el) k (links s)
                 ∨ v ≠ shouldBeFiltered f el) as Halt.
    { intros v. destruct (decide (v = shouldBeFiltered f el)) as [->|]; [left | by right].
      apply map_eq. intros k'. destruct (decide (k' = k)) as [->|].
      - rewrite !lookup_alter_eq, Hel. done.
      - by rewrite !lookup_alter_ne. }
    cbn [existsb]. unfold shows at 1. rewrite Hel.
    unfold shouldBeFiltered at 1 2.
    destruct (bool_decide (data_status el = "online") && negb (filterAvailable f)
              || bool_decide (data_status el = "offline") && negb (filterOffline f)) eqn:E1;
      destruct (negb (bool_decide (deviceTypeFilter f = "all")) &&
                negb (bool_decide (data_device_type el = deviceTypeFilter f))) eqn:E2.
    all: cbv beta iota.
    all: rewrite IH;
      [| intros k' Hk'; cbn; destruct (decide (k' = k)) as [->|];
         [rewrite lookup_alter_eq, Hel; by eexists
         | rewrite lookup_alter_ne by done; apply Hks; by right]].
    all: assert (shouldBeFiltered f el = _) as Hsb
           by (unfold shouldBeFiltered; rewrite E1, ?E2; reflexivity).
    all: f_equal;
      [ rewrite (existsb_ext_in _ (shows f (links s)))
          by (intros; apply shows_alter);
        rewrite ?andb_false_r, ?andb_true_r; cbn;
        destruct (data_favorite el), hf; done
      | unfold set_links; cbn;
        match goal with
        | |- context [alter (set_filtered ?v) _ _] =>
            destruct (Halt v) as [->|Hv]; [done | by rewrite Hsb in Hv]
        end ].
Qed.

Lemma lookup_filtered f s k :
  links (filtered f s) !! k
  = if decide (Link k ∈ sidebar s)
    then (λ el, set_filtered (shouldBeFiltered f el) el) <$> links s !! k
    else links s !! k.
Proof.
  unfold filtered. cbn. rewrite foldl_alter_lookup by done.
  destruct (decide (k ∈ _)) as [Hk|Hk]; rewrite elem_of_sidebar_links in Hk.
  - by rewrite decide_True.
  - by rewrite decide_False.
Qed.

Lemma existsb_sidebar_links (P : nat → bool) l :
  existsb P (sidebar_links l)
  = existsb (λ n, match n with Link k => P k | _ => false end) l.
Proof.
  unfold sidebar_links.
  induction l as [|[| |k] l IH]; cbn; [done| done | done |]. by rewrite IH.
Qed.

Lemma applyFilters_eq f s :
  Category Favorites ∈ sidebar s →
  (∀ k, Link k ∈ sidebar s → is_Some (links s !! k)) →
  applyFilters f s = Done tt (filtered f s).
Proof.
  intros Hfav Hatt. unfold applyFilters.
  unfold mbind at 1, M_bind at 1, gets at 1.
  unfold mbind at 1, M_bind at 1.
  rewrite applyFilters_loop_eq
    by (intros k Hk; by apply Hatt, elem_of_sidebar_links).
  unfold querySelector_category. msimpl.
  rewrite decide_True by done. cbn. unfold filtered. f_equal.
  set (s1 := set_links _ s).
  assert (existsb (shows f (links s)) (sidebar_links (sidebar s))
          = has_visible_favorite s1) as ->; [|done].
  unfold has_visible_favorite. rewrite existsb_sidebar_links.
  change (sidebar s1) with (sidebar s).
  apply existsb_ext_in. intros [| |k] Hk; try done.
  unfold visible_favorite, shows.
  change (links s1) with (links (filtered f s)).
  rewrite lookup_filtered, decide_True by done.
  destruct (links s !! k) as [el|]; [|done]. cbn.
  by destruct (shouldBeFiltered f el).
Qed.

Lemma filtered_frame f s :
  filtered f s
  = set_favoritesDisplay (λ _, favoritesDisplay (filtered f s))
      (set_links (λ _, links (filtered f s)) s).
Proof. by destruct s. Qed.



Lemma filtered_attached f s :
  (∀ k, Link k ∈ sidebar s → is_Some (links s !! k)) →
  ∀ k, Link k ∈ sidebar (filtered f s) → is_Some (links (filtered f s) !! k).
Proof.
  intros Hatt k Hk. change (sidebar (filtered f s)) with (sidebar s) in Hk.
  rewrite lookup_filtered, decide_True by done.
  destruct (Hatt k Hk) as [el ->]. by eexists.
Qed.

Lemma filtered_idem f s : filtered f (filtered f s) = filtered f s.
Proof.
  assert (links (filtered f (filtered f s)) = links (filtered f s)) as Hl.
  { apply map_eq. intros k. rewrite lookup_filtered.
    change (sidebar (filtered f s)) with (sidebar s).
    case_decide as Hk; [|done].
    rewrite lookup_filtered, decide_True by done.
    by destruct (links s !! k). }
  assert (favoritesDisplay (filtered f (filtered f s))
          = favoritesDisplay (filtered f s)) as Hd.
  { change (existsb (visible_favorite (filtered f (filtered f s))) (sidebar s)
            = existsb (visible_favorite (filtered f s)) (sidebar s)).
    apply existsb_ext_in. intros [| |k] _; try done.
    unfold visible_favorite. by rewrite Hl. }
  rewrite (filtered_frame f (filtered f s)), Hl, Hd.
  by destruct s.
Qed.

(** X7.  Applying the same filters a second time changes nothing: the
    page after two runs of [applyFilters] is the page after one. *)
Theorem applyFilters_idempotent f s :
  wf s → (applyFilters f ;; applyFilters f) s = applyFilters f s.
Proof.
  intros Hwf. unfold mbind, M_bind.
  rewrite (applyFilters_eq f s); [| apply Hwf | apply Hwf].
  rewrite applyFilters_eq;
    [| apply Hwf | apply filtered_attached, Hwf].
  by rewrite filtered_idem.
Qed.

Lemma applyFilters_idempotent_witness :
  (applyFilters clearFilters_controls ;; applyFilters clearFilters_controls) one_device
  = applyFilters clearFilters_controls one_device.
Proof. apply (applyFilters_idempotent clearFilters_controls one_device wf_one_device). Defined.



(** X9.  A click on a device does not look at the filters:
    [toggleDeviceStatus] leaves the class [filtered] of every element as it
    is.  So with the offline box unchecked, an online device that is shown
    goes offline and is still shown, although [shouldBeFiltered] holds for
    it; the filters catch up when [applyFilters] runs again. *)
Theorem toggleDeviceStatus_keeps_filtered f s k el :
  wf s → links s !! k = Some el →
  ∃ s', toggleDeviceStatus k s = Done tt s' ∧
    (∀ k' el', links s' !! k' = Some el' →
       ∃ el0, links s !! k' = Some el0 ∧ el_filtered el' = el_filtered el0) ∧
    (filterOffline f = false → data_status el = "online" →
     ∃ el', links s' !! k = Some el' ∧ el_filtered el' = el_filtered el ∧
            shouldBeFiltered f el' = true).
Proof.
  intros Hwf Hel. eexists. split.
  { rewrite (toggleDeviceStatus_eq k s el); [done | apply Hwf | apply Hwf | done]. }
  cbn. split.
  - intros k' el'. destruct (decide (k' = k)) as [->|Hne].
    + rewrite lookup_alter_eq, Hel. cbn. intros [= <-]. by exists el.
    + rewrite lookup_alter_ne by done. intros ->. by eexists.
  - intros Hoff Hon. rewrite lookup_alter_eq, Hel. cbn. eexists. split; [done|].
    split; [done|]. unfold shouldBeFiltered. cbn.
    rewrite decide_True by done. cbn. by rewrite Hoff, orb_true_r.
Qed.

Lemma toggleDeviceStatus_keeps_filtered_witness :
  ∃ s', toggleDeviceStatus 0 one_device = Done tt s' ∧
    ∃ el', links s' !! 0 = Some el' ∧ el_filtered el' = false ∧
           shouldBeFiltered {| filterAvailable := true; filterOffline := false;
                               deviceTypeFilter := "all" |} el' = true.
Proof.
  destruct (toggleDeviceStatus_keeps_filtered
              {| filterAvailable := true; filterOffline := false;
                 deviceTypeFilter := "all" |} one_device 0
              (default (new_element 0%Q "" "" false "" "" false) (links one_device !! 0))
              wf_one_device) as (s' & H1 & _ & H2).
  - by vm_compute.
  - exists s'. split; [exact H1|]. apply H2; by vm_compute.
Defined.

(** ** What a step changes *)

Lemma nonempty_true p : nonempty p = true → p ≠ "".
Proof.
  unfold nonempty. intros H ->. done.
Qed.


Lemma ip_ok_edit name isProtected deviceType deviceIP el :
  data_manual_add el && negb (nonempty deviceIP) = false →
  ip_ok (edit_element name isProtected deviceType deviceIP (data_manual_add el) el).
Proof.
  intros H. unfold ip_ok, edit_element. cbn.
  destruct (nonempty deviceIP) eqn:E.
  - split; [|by eexists]. intros [= ->]. done.
  - split; [done|]. intros Hm. rewrite Hm in H. done.
Qed.

Lemma ip_ok_new u name id isProtected deviceType deviceIP manual :
  manual && negb (nonempty deviceIP) = false →
  ip_ok (new_element u name id isProtected deviceType
           (if manual then deviceIP else "") manual).
Proof.
  intros H. unfold ip_ok, new_element. cbn.
  destruct manual; cbn in *.
  - destruct (nonempty deviceIP) eqn:E; [|done].
    split; [|by eexists]. intros [= ->]. done.
  - done.
Qed.

Lemma alter_insert (g : element → element) k el (m : gmap nat element) :
  m !! k = Some el → alter g k m = <[k := g el]> m.
Proof.
  intros H. apply map_eq. intros k'. destruct (decide (k' = k)) as [->|].
  - by rewrite lookup_alter_eq, lookup_insert_eq, H.
  - by rewrite lookup_alter_ne, lookup_insert_ne.
Qed.

Lemma form_change_same s s' :
  addForm s' = addForm s → addDeviceModal s' = addDeviceModal s →
  form_change s s'.
Proof. intros H1 H2. left. by rewrite H1, H2. Qed.

Lemma step_frame e s s' :
  sidebar s' = sidebar s → links s' = links s →
  devicePasswords s' = devicePasswords s →
  addForm s' = addForm s → addDeviceModal s' = addDeviceModal s →
  favoritesDisplay s' = favoritesDisplay s →
  step_ok e s s'.
Proof.
  intros H1 H2 H3 H4 H5 H6. split; [|split].
  - apply change_frame; [done | done | by apply pw_same].
  - by apply form_change_same.
  - by right.
Qed.

Lemma step_updated e s s1 :
  change e s s1 → addForm s1 = addForm s → addDeviceModal s1 = addDeviceModal s →
  step_ok e s (set_favoritesDisplay (λ _, has_visible_favorite s1) s1).
Proof.
  intros Hc H1 H2. split; [|split].
  - destruct Hc; [ by apply change_frame | by eapply change_add
                 | by eapply change_update | by eapply change_delete ].
  - by apply form_change_same.
  - by left.
Qed.

Ltac frame := apply step_frame; reflexivity.

Ltac quiet :=
  split;
  [ apply change_frame; cbn; try done; by apply pw_same
  | split; [left; by cbn | right; by cbn] ].

Section Change.
Variables toLowerCase trim cleanName : string → string.

Lemma step_toggleDeviceStatus e k s :
  wf s → is_Some (links s !! k) →
  step_ok e s (final (toggleDeviceStatus k s)).
Proof.
  intros Hwf [el Hel].
  rewrite (toggleDeviceStatus_eq k s el); [| apply Hwf | apply Hwf | done].
  cbn [final]. apply step_updated; [|done..].
  eapply (change_update _ _ _ k el); cbn; try done.
  - by apply alter_insert.
  - by apply pw_same.
Qed.

Lemma step_toggleFavorite e k s :
  wf s → is_Some (links s !! k) →
  step_ok e s (final (toggleFavorite k s)).
Proof.
  intros Hwf [el Hel].
  rewrite (toggleFavorite_eq k s el); [| apply Hwf | apply Hwf | done].
  cbn [final]. apply step_updated; [|done..].
  eapply (change_update _ _ _ k el); cbn; try done.
  - by apply alter_insert.
  - by apply pw_same.
Qed.

Lemma step_handleDeviceAction k act confirmed s :
  wf s → Link k ∈ sidebar s →
  let e := match act with
           | ActionEdit => EditButtonClick k
           | ActionDelete => DeleteButtonClick k confirmed
           end in
  step_ok e s (final (handleDeviceAction cleanName k act confirmed s)).
Proof.
  intros Hwf Hin e. destruct (wf_attached s Hwf k Hin) as [el Hel].
  unfold handleDeviceAction, getElement. msimpl. rewrite Hel.
  destruct (data_protected el) eqn:Hp.
  - cbn. frame.
  - destruct act.
    + rewrite (openEditDeviceModal_eq _ _ _ el) by done. cbn [final]. frame.
    + destruct confirmed; [|cbn; frame].
      unfold mbind, M_bind.
      rewrite (deleteDevice_eq k _ el) by done.
      rewrite updateSectionVisibility_eq.
      2:{ cbn. apply elem_of_removeChild. split; [apply Hwf | done]. }
      cbn [final]. apply step_updated; [|done..].
      apply (change_delete _ _ _ k el); cbn; try done. by left.
Qed.

Lemma step_confirmAddDevice u s :
  wf s → unit_draw u → addDeviceModal s = true →
  step_ok (ConfirmAddDeviceClick u) s (final (confirmAddDevice_click trim u s)).
Proof.
  intros Hwf Hu Hshown. unfold confirmAddDevice_click. msimpl.
  destruct (nonempty (trim _)); cbn; [|frame].
  destruct (passwordProtect (addForm s) && _) eqn:Epw; cbn; [frame|].
  destruct (bool_decide _ && _) eqn:Eip; cbn; [frame|].
  destruct (passwordProtect (addForm s)) eqn:Ep; cbn.
  all: rewrite addDeviceToSidebar_eq; [| apply Hwf | apply Hwf].
  all: cbn; rewrite updateSectionVisibility_eq;
    [| cbn; apply elem_of_place_old; apply Hwf].
  all: cbn [final]; split; [|split; [left; by cbn | by left]].
  all: eapply change_add; cbn; try done.
  all: try by apply ip_ok_new.
  - eapply pw_insert; [|done]. apply nonempty_true.
    cbn in Epw. by apply negb_false_iff in Epw.
  - by apply pw_same.
Qed.

Lemma step_confirmPasswordVerify s :
  wf s → passwordVerifyModal s = true →
  step_ok ConfirmPasswordVerifyClick s (final (confirmPasswordVerify_click cleanName s)).
Proof.
  intros Hwf Hshown.
  destruct (wf_dialog s Hwf (or_introl Hshown)) as [k Hk].
  destruct (wf_current s Hwf k Hk) as [el Hel].
  unfold confirmPasswordVerify_click, current_device, getElement. msimpl.
  rewrite Hk. cbn. rewrite Hel. cbn.
  destruct (decide (Some (verifyPassword s) = _)) as [Hcorrect|]; cbn; [|frame].
  assert (wf (set_passwordVerifyModal (λ _, false) s)) as Hwf'
    by by apply wf_hide_password.
  destruct (currentActionType s) as [[]|] eqn:Hact; cbn.
  - rewrite (openEditDeviceModal_eq _ _ _ el) by done. cbn. frame.
  - destruct (decide (Link k ∈ sidebar s)) as [Hin|Hout].
    + rewrite (deleteDevice_eq k _ el) by done.
      rewrite updateSectionVisibility_eq.
      2:{ cbn. apply elem_of_removeChild. split; [apply Hwf | done]. }
      cbn. split; [|split; [by apply form_change_same | by left]].
      apply (change_delete _ _ _ k el); cbn; try done. by right.
    + destruct (deleteDevice_detached k (set_passwordVerifyModal (λ _, false) s)
                  el Hel Hout) as [e ->].
      cbn. split; [|split; [by apply form_change_same | by right]].
      apply change_frame; cbn; try done. by eapply pw_delete.
  - frame.
Qed.

Lemma step_confirmEditDevice s :
  wf s → editDeviceModal s = true →
  step_ok ConfirmEditDeviceClick s (final (confirmEditDevice_click trim s)).
Proof.
  intros Hwf Hshown.
  destruct (wf_dialog s Hwf (or_intror Hshown)) as [k Hk].
  destruct (wf_current s Hwf k Hk) as [el Hel].
  unfold confirmEditDevice_click, current_device, getElement. msimpl.
  destruct (negb (editDeviceIP_disabled (editForm s))); cbn.
  all: rewrite ?Hk; cbn; rewrite ?Hel; cbn.
  all: destruct (nonempty (trim _)); cbn; [|frame].
  all: destruct (_ && no_password _); cbn; [frame|].
  all: rewrite ?Hk; cbn; rewrite ?Hel; cbn.
  all: destruct (data_manual_add el && _) eqn:Eip; cbn; [frame|].
  all: destruct (editPasswordProtect (editForm s)); cbn;
    [destruct (nonempty (editDevicePassword (editForm s))) eqn:Epw; cbn|].
  all: rewrite (updateDeviceInSidebar_eq _ _ _ _ _ _ _ _ el);
    [| apply Hwf | apply Hwf | done].
  all: cbn; rewrite updateSectionVisibility_eq;
    [| cbn; apply elem_of_place_old; apply Hwf].
  all: cbn [final]; split; [|split; [by apply form_change_same | by left]].
  all: eapply (change_update _ _ _ k el); cbn; try done.
  all: try by apply alter_insert.
  all: try (intros _; by apply ip_ok_edit).
  all: try (eapply pw_insert; [by apply nonempty_true | done]).
  all: try (by apply pw_same).
  all: try (by eapply pw_delete).
Qed.

Lemma step_scanForDevices e method s0 s :
  sidebar s = sidebar s0 → links s = links s0 →
  devicePasswords s = devicePasswords s0 →
  addDeviceModal s = addDeviceModal s0 →
  deviceId (addForm s) = deviceId (addForm s0) →
  favoritesDisplay s = favoritesDisplay s0 →
  step_ok e s0 (final (scanForDevices method s)).
Proof.
  intros H1 H2 H3 H4 H5 H6. rewrite scanForDevices_eq. cbn [final].
  split; [|split].
  - apply change_frame; cbn; try done. by apply pw_same.
  - left. cbn. by rewrite H4, H5.
  - right. by cbn.
Qed.

Lemma run_step_ok e s :
  wf s → enabled e s → step_ok e s (run toLowerCase trim cleanName e s).
Proof.
  intros Hwf Hen. unfold run. destruct e; cbn [handle enabled] in *.
  - unfold addDeviceButton_click, set_modal. msimpl. split; [|split].
    + apply change_frame; cbn; try done. by apply pw_same.
    + right. exists u1, u2. by destruct Hen.
    + right. by cbn.
  - unfold connectionOption_click. unfold mbind at 1, M_bind at 1, modify at 1.
    repeat case_decide; try by apply step_scanForDevices.
    all: cbn; quiet.
  - pose proof (keeps_scanForDevices_settled toLowerCase n r s) as Hs.
    unfold scan_only in Hs. rewrite Hs. frame.
  - destruct Hen. by apply step_confirmAddDevice.
  - apply step_toggleDeviceStatus; [done|]. by apply Hwf.
  - apply step_toggleFavorite; [done|]. by apply Hwf.
  - by apply (step_handleDeviceAction k ActionEdit false).
  - by apply (step_handleDeviceAction k ActionDelete confirmed).
  - by apply step_confirmPasswordVerify.
  - by apply step_confirmEditDevice.
  - destruct m; cbn; quiet.
  - destruct i; cbn; quiet.
Qed.

End Change.

(** ** Filters and the invariants *)

Lemma set_filtered_same el : set_filtered (el_filtered el) el = el.
Proof. by destruct el. Qed.

Lemma lookup_filtered_inv f s k el' :
  links (filtered f s) !! k = Some el' →
  ∃ el, links s !! k = Some el ∧ el' = set_filtered (el_filtered el') el.
Proof.
  rewrite lookup_filtered. case_decide.
  - destruct (links s !! k) as [el|]; [|done]. cbn. intros [= <-]. by exists el.
  - intros H'. exists el'. by rewrite set_filtered_same.
Qed.

Lemma lookup_filtered_is_Some f s k :
  is_Some (links (filtered f s) !! k) ↔ is_Some (links s !! k).
Proof.
  rewrite lookup_filtered. case_decide; [|done]. by rewrite fmap_is_Some.
Qed.

Lemma wf_filtered f s : wf s → wf (filtered f s).
Proof.
  intros Hwf. split.
  - apply Hwf.
  - apply Hwf.
  - intros k Hk. apply lookup_filtered_is_Some. by apply Hwf.
  - intros k Hk. apply lookup_filtered_is_Some in Hk. by apply Hwf.
  - intros k el' (el & Hel & ->)%lookup_filtered_inv. cbn. by eapply wf_status.
  - intros k Hk. apply lookup_filtered_is_Some.
    by apply (wf_current s Hwf).
  - apply (wf_dialog s Hwf).
Qed.

Lemma page_inv_filtered f s : page_inv s → page_inv (filtered f s).
Proof.
  intros (Hwf & [Hpw Hip] & [Hform Hids] & Hlist & _).
  split; [by apply wf_filtered|]. split; [|split; [|split]].
  - split; [done|]. intros k el' (el & Hel & ->)%lookup_filtered_inv.
    by apply (Hip k el).
  - split; [done|]. intros k el' (el & Hel & ->)%lookup_filtered_inv.
    by apply (Hids k el).
  - intros k el' Hk (el & Hel & ->)%lookup_filtered_inv.
    by apply (Hlist k el).
  - done.
Qed.

(** ** Invariants of the reachable pages *)

Lemma pw_change_nonempty (m m' : gmap string string) :
  pw_change m m' →
  (∀ id p, m !! id = Some p → p ≠ "") → ∀ id p, m' !! id = Some p → p ≠ "".
Proof.
  intros [->| id0 p0 Hp0 -> | id0 ->] Hm id p; [by apply Hm | |].
  - destruct (decide (id = id0)) as [->|].
    + rewrite lookup_insert_eq. by intros [= <-].
    + rewrite lookup_insert_ne by done. apply Hm.
  - destruct (decide (id = id0)) as [->|].
    + by rewrite lookup_delete_eq.
    + rewrite lookup_delete_ne by done. apply Hm.
Qed.

Lemma change_nonempty_data e s s' :
  change e s s' → nonempty_data s → nonempty_data s'.
Proof.
  intros Hc [Hpw Hip]. split.
  - destruct Hc as [_ _ Hc | ? _ _ _ _ _ Hc | ? ? ? _ _ _ _ _ Hc | ? ? _ _ _ _ Hc _].
    1-3: by eapply pw_change_nonempty.
    eapply pw_change_nonempty; [eapply pw_delete, Hc | done].
  - destruct Hc as [_ Hl _ | el Hl _ _ _ Hok _ | k0 el el' Hel Hl _ _ Hok _ | ? ? _ _ Hl _ _ _];
      rewrite Hl; try done.
    + intros k el0. destruct (decide (k = next_node s)) as [->|].
      * rewrite lookup_insert_eq. by intros [= <-].
      * rewrite lookup_insert_ne by done. apply Hip.
    + intros k el0. destruct (decide (k = k0)) as [->|].
      * rewrite lookup_insert_eq. intros [= <-]. apply Hok. by eapply Hip.
      * rewrite lookup_insert_ne by done. apply Hip.
Qed.

Lemma nonempty_data_init : nonempty_data init.
Proof. split; intros ??; cbn; by rewrite lookup_empty. Qed.

Lemma change_ids_formed e s s' :
  change e s s' → form_change s s' → ids_formed s → ids_formed s'.
Proof.
  intros Hc Hf [Hform Hids]. split.
  - destruct Hf as [[-> Hshown] | (u1 & u2 & Hu1 & Hu2 & ->)].
    + intros H. by apply Hform, Hshown.
    + intros _. by apply generateUniqueId_formed.
  - destruct Hc as [_ Hl _ | el Hl _ Hid Hshown _ _ | k0 el el' Hel Hl _ Hid _ _ | ? ? _ _ Hl _ _ _];
      rewrite Hl; try done.
    + intros k el0. destruct (decide (k = next_node s)) as [->|].
      * rewrite lookup_insert_eq. intros [= <-]. rewrite Hid. by apply Hform.
      * rewrite lookup_insert_ne by done. apply Hids.
    + intros k el0. destruct (decide (k = k0)) as [->|].
      * rewrite lookup_insert_eq. intros [= <-]. rewrite Hid. by eapply Hids.
      * rewrite lookup_insert_ne by done. apply Hids.
Qed.

Lemma ids_formed_init : ids_formed init.
Proof. split; [done|]. intros ??; cbn; by rewrite lookup_empty. Qed.

(** Sections *)

Lemma header_from_removeChild cur n k l :
  n ≠ Link k →
  header_from cur n (removeChild (Link k) l) = header_from cur n l.
Proof.
  intros Hn. revert cur. induction l as [|x l IH]; intros cur; [done|].
  destruct (decide (x = Link k)) as [->|Hx].
  - rewrite removeChild_cons_eq, IH. cbn [header_from].
    by rewrite (decide_False (P := Link k = n)).
  - rewrite removeChild_cons_ne by done. cbn [header_from].
    destruct (decide (x = n)); [done|]. apply IH.
Qed.

Lemma header_from_insert_after_other cur c k n l :
  n ≠ Link k →
  header_from cur n (insert_after (Category c) (Link k) l) = header_from cur n l.
Proof.
  intros Hn. revert cur. induction l as [|x l IH]; intros cur; [done|].
  cbn [insert_after]. destruct (decide (x = Category c)) as [->|Hx].
  - cbn [header_from]. destruct (decide (Category c = n)); [done|].
    by rewrite (decide_False (P := Link k = n)).
  - cbn [header_from]. destruct (decide (x = n)); [done|]. apply IH.
Qed.

Lemma header_from_insert_after cur c k l :
  Category c ∈ l → Link k ∉ l →
  header_from cur (Link k) (insert_after (Category c) (Link k) l) = Some c.
Proof.
  revert cur. induction l as [|x l IH]; intros cur Hc Hk; [by apply elem_of_nil in Hc|].
  cbn [insert_after]. destruct (decide (x = Category c)) as [->|Hx].
  - cbn [header_from]. rewrite (decide_False (P := Category c = Link k)) by done.
    by rewrite (decide_True (P := Link k = Link k)).
  - cbn [header_from]. rewrite (decide_False (P := x = Link k)) by set_solver.
    apply IH; set_solver.
Qed.

Lemma header_of_place c k l :
  Category c ∈ l → header_of (Link k) (place c k l) = Some c.
Proof.
  intros Hc. unfold header_of, place. apply header_from_insert_after.
  - apply elem_of_removeChild. by split.
  - rewrite elem_of_removeChild. by intros [_ ?].
Qed.

Lemma header_of_place_other c k n l :
  n ≠ Link k → header_of n (place c k l) = header_of n l.
Proof.
  intros Hn. unfold header_of, place.
  by rewrite header_from_insert_after_other, header_from_removeChild.
Qed.

Lemma change_listed e s s' :
  wf s → change e s s' → listed_by_section s → listed_by_section s'.
Proof.
  intros Hwf Hc Hs.
  destruct Hc as [Hsb Hl _ | el Hl Hsb _ _ _ _ | k0 el el' Hel Hl Hsb _ _ _
                 | k0 el Hel Hin Hl Hsb _ _];
    intros k el0; rewrite Hsb, Hl.
  - apply Hs.
  - destruct (decide (k = next_node s)) as [->|Hne].
    + rewrite lookup_insert_eq. intros _ [= <-]. apply header_of_place, Hwf.
    + rewrite lookup_insert_ne by done. intros Hin Hel.
      rewrite header_of_place_other by congruence.
      apply Hs; [|done]. apply elem_of_place in Hin; [|apply Hwf].
      destruct Hin as [|]; [congruence | done].
  - destruct (decide (k = k0)) as [->|Hne].
    + rewrite lookup_insert_eq. intros _ [= <-]. apply header_of_place, Hwf.
    + rewrite lookup_insert_ne by done. intros Hin Hel0.
      rewrite header_of_place_other by congruence.
      apply Hs; [|done]. apply elem_of_place in Hin; [|apply Hwf].
      destruct Hin as [|]; [congruence | done].
  - intros [Hin' Hne]%elem_of_removeChild Hel0.
    unfold header_of. rewrite header_from_removeChild by done. by apply Hs.
Qed.

Lemma listed_init : listed_by_section init.
Proof. intros k el _. cbn. by rewrite lookup_empty. Qed.

Lemma removeChild_insert_after h n l :
  n ∉ l → h ≠ n → removeChild n (insert_after h n l) = l.
Proof.
  intros Hn Hh. induction l as [|x l IH]; [done|].
  cbn. destruct (decide (x = h)) as [->|Hx].
  - rewrite removeChild_cons_ne, removeChild_cons_eq by done.
    rewrite removeChild_notin; [done | set_solver].
  - rewrite removeChild_cons_ne by set_solver. rewrite IH; [done | set_solver].
Qed.

Lemma removeChild_place c k l :
  removeChild (Link k) (place c k l) = removeChild (Link k) l.
Proof.
  unfold place. apply removeChild_insert_after; [|done].
  rewrite elem_of_removeChild. by intros [_ ?].
Qed.

Lemma change_display s s' :
  display_change s s' → favoritesDisplay s = has_visible_favorite s →
  favoritesDisplay s' = has_visible_favorite s'.
Proof.
  intros [H | (H1 & H2 & H3)] Hs; [done|].
  rewrite H1, Hs. unfold has_visible_favorite, visible_favorite. by rewrite H2, H3.
Qed.

Lemma page_inv_init : page_inv init.
Proof.
  split; [apply wf_init|]. split; [apply nonempty_data_init|].
  split; [apply ids_formed_init|]. split; [apply listed_init | done].
Qed.

Section Reachable.
Variables toLowerCase trim cleanName : string → string.

Lemma page_inv_run e s :
  page_inv s → enabled e s → page_inv (run toLowerCase trim cleanName e s).
Proof.
  intros (Hwf & H1 & H2 & H3 & H4) Hen.
  destruct (run_step_ok toLowerCase trim cleanName e s Hwf Hen) as (Hc & Hf & Hd).
  split; [by apply wf_run|]. split; [by eapply change_nonempty_data|].
  split; [by eapply change_ids_formed|].
  split; [by eapply change_listed | by eapply change_display].
Qed.

Lemma page_reachable_inv s :
  page_reachable toLowerCase trim cleanName s → page_inv s.
Proof.
  induction 1 as [|s e _ IH Hen]; [apply page_inv_init|].
  destruct e as [e|f]; cbn [page_run page_enabled] in *.
  - by apply page_inv_run.
  - rewrite applyFilters_eq; [| apply IH | apply IH].
    by apply page_inv_filtered.
Qed.

Lemma reachable_page_reachable s :
  reachable toLowerCase trim cleanName s →
  page_reachable toLowerCase trim cleanName s.
Proof.
  induction 1 as [|s e _ IH Hen]; [constructor|].
  by apply (page_reachable_step _ _ _ s (ScriptEvent e)).
Qed.

End Reachable.



(** X10.  In every page that can be reached by the events of the script
    and by changes of the filters, no stored password is the empty string,
    no device carries an empty [data-ip], and a device that was added by
    hand carries a [data-ip]. *)
Theorem reachable_nonempty_data toLowerCase trim cleanName s :
  page_reachable toLowerCase trim cleanName s →
  (∀ id p, devicePasswords s !! id = Some p → p ≠ "") ∧
  (∀ k el, links s !! k = Some el →
     data_ip el ≠ Some "" ∧ (data_manual_add el = true → is_Some (data_ip el))).
Proof.
  intros Hs. by destruct (page_reachable_inv _ _ _ s Hs) as (_ & H & _).
Qed.

Lemma reachable_nonempty_data_witness :
  devicePasswords one_device !! "DEV_0000_0000" = Some "pw" ∧ "pw" ≠ "".
Proof.
  destruct (reachable_nonempty_data _ _ _ one_device
              (reachable_page_reachable _ _ _ _ reachable_one_device)) as [H _].
  assert (devicePasswords one_device !! "DEV_0000_0000" = Some "pw") as Hpw
    by (by vm_compute).
  split; [exact Hpw | exact (H _ _ Hpw)].
Defined.







(** X14.  A step of the page moves at most one link and leaves every
    other child of the sidebar where it is: there is a link such that the
    children without it are the same, in the same order, before and after
    the step. *)
Theorem step_keeps_order toLowerCase trim cleanName e s :
  wf s → page_enabled e s →
  ∃ k, removeChild (Link k) (sidebar (page_run toLowerCase trim cleanName e s))
       = removeChild (Link k) (sidebar s).
Proof.
  intros Hwf Hen. destruct e as [e|f]; cbn [page_run page_enabled] in *.
  2:{ exists 0. rewrite applyFilters_eq; [done | apply Hwf | apply Hwf]. }
  destruct (run_step_ok toLowerCase trim cleanName e s Hwf Hen) as [Hc _].
  destruct Hc as [Hsb _ _ | el0 _ Hsb _ _ _ _ | k0 el0 el' _ _ Hsb _ _ _
                 | k0 el0 Hel0 _ _ Hsb _ Hauth].
  - exists 0. by rewrite Hsb.
  - exists (next_node s). by rewrite Hsb, removeChild_place.
  - exists k0. by rewrite Hsb, removeChild_place.
  - exists k0. rewrite Hsb. apply removeChild_notin.
    rewrite elem_of_removeChild. by intros [_ ?].
Qed.

Lemma step_keeps_order_witness :
  ∃ k, removeChild (Link k)
         (sidebar (page_run Js.ascii_toLowerCase Js.ascii_trim Js.ascii_trim
                     (ScriptEvent (FavoriteStarClick 0)) one_device))
       = removeChild (Link k) (sidebar one_device).
Proof.
  apply (step_keeps_order _ _ _ (ScriptEvent (FavoriteStarClick 0)) one_device
           wf_one_device).
  change (Link 0 ∈ sidebar one_device).
  apply (bool_decide_unpack _). by vm_compute.
Defined.



(** ** Scans that overlap *)

Lemma existsb_filter_false {A} (P : A → bool) (l : list A) :
  existsb P l = false → List.filter (λ v, negb (P v)) l = l.
Proof.
  induction l as [|x l IH]; cbn; [done|].
  intros [Hx Hl]%orb_false_iff. rewrite Hx. cbn. by rewrite IH.
Qed.

(** X16.  A response that arrives for a scan whose loading indicator is
    no longer in the list is shown as a connection error, whatever the
    response says: the error text is put behind what the list shows.  This
    is what happens to the first of two scans when the second is started
    before the first has settled, and the indicator of the second scan
    stays. *)
Theorem stale_scan_response toLowerCase :
  (∀ n r s,
     existsb (is_indicator n) (container s) = false →
     scanForDevices_settled toLowerCase n r s
     = Done tt (set_container (λ c, c ++ [ErrorMessage (Js.Str
         "Wystąpił błąd podczas łączenia z API. Sprawdź, czy serwer API jest uruchomiony.")])
         (set_pending (filter (λ m, m ≠ n)) s))) ∧
  (∀ method1 method2 r s,
     let s1 := final (scanForDevices method1 s) in
     let s2 := final (scanForDevices method2 s1) in
     next_node s ∈ pending s2 ∧
     container (final (scanForDevices_settled toLowerCase (next_node s) r s2))
     = [LoadingIndicator (S (next_node s)); ErrorMessage (Js.Str
         "Wystąpił błąd podczas łączenia z API. Sprawdź, czy serwer API jest uruchomiony.")]).
Proof.
  assert (∀ n r s,
     existsb (is_indicator n) (container s) = false →
     scanForDevices_settled toLowerCase n r s
     = Done tt (set_container (λ c, c ++ [ErrorMessage (Js.Str
         "Wystąpił błąd podczas łączenia z API. Sprawdź, czy serwer API jest uruchomiony.")])
         (set_pending (filter (λ m, m ≠ n)) s))) as Hstale.
  { intros n r s Hn. unfold scanForDevices_settled, catch.
    unfold mbind at 1, M_bind at 1, modify at 1.
    destruct r as [|data].
    - unfold throw, scan_catch. msimpl. rewrite Hn. reflexivity.
    - unfold scanForDevices_then, container_removeChild.
      unfold mbind at 1, M_bind at 1. unfold mbind at 1, M_bind at 1.
      unfold gets at 1. cbn [container set_pending]. rewrite Hn.
      unfold throw, scan_catch. msimpl. rewrite Hn. reflexivity. }
  split; [exact Hstale|].
  intros method1 method2 r s s1 s2. split.
  - unfold s2, s1. rewrite !scanForDevices_eq. cbn. set_solver.
  - rewrite Hstale.
    + unfold s2, s1. by rewrite !scanForDevices_eq.
    + unfold s2, s1. rewrite !scanForDevices_eq. cbn.
      rewrite bool_decide_eq_false_2 by lia. done.
Qed.

(** ** The edit dialog *)





(** ** Loading the page *)

Lemma insert_after_skip h n p q :
  h ∉ p → insert_after h n (p ++ q) = p ++ insert_after h n q.
Proof.
  induction p as [|x p IH]; intros Hh; cbn; [done|].
  rewrite decide_False by set_solver. rewrite IH; [done | set_solver].
Qed.

Lemma insert_header h c l :
  NoDup l → h ∈ l → h ≠ Category c → Category c ∉ l →
  insertBefore (Category c) (nextSibling h l) l
  = Some (insert_after h (Category c) l) ∧
  NoDup (insert_after h (Category c) l) ∧
  ∀ x, x ∈ insert_after h (Category c) l ↔ x = Category c ∨ x ∈ l.
Proof.
  intros Hnd Hh Hne Hc. split_and!.
  - rewrite insertBefore_after by done. by rewrite removeChild_notin.
  - by apply NoDup_insert_after.
  - intros x. by apply elem_of_insert_after.
Qed.

(** X19.  [initDeviceSections] on any children of the sidebar: the three
    headers that may be there are dropped, and new ones are put directly
    behind the filters section, in the order Favorites, Online, Offline;
    the other children stay in their order.  Running it a second time
    gives the same children again. *)
Theorem initDeviceSections_headers l pre post :
  NoDup l →
  removeChild (Category Offline)
    (removeChild (Category Online) (removeChild (Category Favorites) l))
  = pre ++ filtersSection :: post →
  let l' := pre ++ filtersSection :: Category Favorites :: Category Online ::
            Category Offline :: post in
  initDeviceSections l = Some l' ∧ initDeviceSections l' = Some l'.
Proof.
  intros Hnd Hl0 l'.
  assert (∀ l1, NoDup l1 →
            removeChild (Category Offline)
              (removeChild (Category Online) (removeChild (Category Favorites) l1))
            = pre ++ filtersSection :: post →
            initDeviceSections l1 = Some l' ∧ NoDup l' ∧
            ∀ c, Category c ∉ pre ++ post) as Hinit.
  { clear l Hnd Hl0. intros l Hnd Hl0. unfold initDeviceSections. rewrite Hl0.
    set (l0 := pre ++ filtersSection :: post).
    assert (NoDup l0) as Hnd0.
    { unfold l0. rewrite <- Hl0. by do 3 apply NoDup_removeChild. }
    assert (∀ c, Category c ∉ l0) as Hcat.
    { intros c. unfold l0. rewrite <- Hl0. rewrite !elem_of_removeChild.
      destruct c; naive_solver. }
    assert (filtersSection ∉ pre) as Hpre.
    { apply NoDup_app in Hnd0 as (_ & Hnd0 & _). intros Hin.
      apply (Hnd0 _ Hin). by left. }
    destruct (insert_header filtersSection Favorites l0) as (-> & Hnd1 & Hin1);
      [done | unfold l0; set_solver | done | apply Hcat |].
    cbn.
    destruct (insert_header (Category Favorites) Online
                (insert_after filtersSection (Category Favorites) l0))
      as (-> & Hnd2 & Hin2); [done | apply Hin1; by left | done | |].
    { rewrite Hin1. intros [|]; [done | by eapply Hcat]. }
    cbn.
    destruct (insert_header (Category Online) Offline
                (insert_after (Category Favorites) (Category Online)
                   (insert_after filtersSection (Category Favorites) l0)))
      as (-> & Hnd3 & _); [done | apply Hin2; by left | done | |].
    { rewrite Hin2, Hin1. intros [|[|]]; [done | done | by eapply Hcat]. }
    assert (∀ c, Category c ∉ pre) as Hcat'.
    { intros c Hc. apply (Hcat c). unfold l0. set_solver. }
    assert (insert_after (Category Online) (Category Offline)
              (insert_after (Category Favorites) (Category Online)
                 (insert_after filtersSection (Category Favorites) l0)) = l') as E.
    { unfold l0, l'.
      rewrite (insert_after_skip filtersSection) by done.
      rewrite (insert_after_skip (Category Favorites)) by apply Hcat'.
      rewrite (insert_after_skip (Category Online)) by apply Hcat'.
      reflexivity. }
    rewrite E in *. split; [done|]. split; [done|].
    intros c Hc. apply (Hcat c). unfold l0. set_solver. }
  destruct (Hinit l Hnd Hl0) as (H1 & Hnd' & Hcat).
  split; [done|]. apply Hinit; [done|].
  assert (∀ c, removeChild (Category c) pre = pre) as Hpre.
  { intros c. apply removeChild_notin. specialize (Hcat c). set_solver. }
  assert (∀ c, removeChild (Category c) post = post) as Hpost.
  { intros c. apply removeChild_notin. specialize (Hcat c). set_solver. }
  assert (∀ n p q, removeChild n (p ++ q) = removeChild n p ++ removeChild n q)
    as Happ by (intros; apply filter_app).
  unfold l'.
  rewrite Happ, Hpre, removeChild_cons_ne, removeChild_cons_eq by done.
  rewrite !removeChild_cons_ne, Hpost by done.
  rewrite Happ, Hpre, removeChild_cons_ne, removeChild_cons_eq by done.
  rewrite !removeChild_cons_ne, Hpost by done.
  rewrite Happ, Hpre, removeChild_cons_ne, removeChild_cons_eq by done.
  by rewrite Hpost.
Qed.

Lemma initDeviceSections_headers_witness :
  initDeviceSections
    [Other 0; filtersSection; Category Favorites; Category Online; Link 0;
     Category Offline; Link 1; Other 2; Other 3]
  = Some [Other 0; filtersSection; Category Favorites; Category Online;
          Category Offline; Link 0; Link 1; Other 2; Other 3].
Proof.
  apply (initDeviceSections_headers
           [Other 0; filtersSection; Category Favorites; Category Online;
            Link 0; Category Offline; Link 1; Other 2; Other 3]
           [Other 0] [Link 0; Link 1; Other 2; Other 3]).
  - apply (bool_decide_unpack _). by vm_compute.
  - by vm_compute.
Defined.

(** X20.  The end of the [DOMContentLoaded] listener:
    [initDeviceSections] puts the three headers, Favorites, Online and
    Offline in this order, directly behind the filters section of the page,
    before the text and the block that follow it, and displays them; the
    call of [applyFilters] in [initFilters] then hides the Favorites header,
    whatever the filter controls say.  This is the page [init]. *)
Theorem page_load f :
  initDeviceSections static_sidebar
  = Some [Other 0; filtersSection; Category Favorites; Category Online;
          Category Offline; Other 2; Other 3] ∧
  sidebar init
  = [Other 0; filtersSection; Category Favorites; Category Online;
     Category Offline; Other 2; Other 3] ∧
  links init = ∅ ∧
  applyFilters f (set_favoritesDisplay (λ _, true) init) = Done tt init ∧
  favoritesDisplay init = false.
Proof.
  split; [by vm_compute|]. split; [by vm_compute|]. split; [done|].
  split; [|done].
  rewrite applyFilters_eq.
  - reflexivity.
  - apply (bool_decide_unpack _). by vm_compute.
  - intros k Hk. change (Link k ∈ sidebar init) in Hk.
    rewrite sidebar_init in Hk. set_solver.
Qed.

(** ** The star, twice *)



